(** * A verification development for marketcalls/option-chain

    The Python sources [utils/option_chain.py] (class [OptionChainManager])
    and [utils/websocket_manager.py] (class [ProfessionalWebSocketManager])
    are embedded as executable Rocq definitions, one per method, and the
    properties of the option-chain engine and of the streaming connection
    are proved about these definitions.

    Modelling conventions
    - A Python value that arrives from JSON is a [json] term.  Python
      [int] and [float] are both exact rationals ([Q]): overflow, NaN
      and infinities are not modelled, and float rounding is modelled
      where it changes a result, in the put-call ratio: there [int / int]
      and [round(x, 2)] give the binary64 number nearest to the exact
      result ([double_of]), whose range of exponents is not bounded.
    - [round(x)] is round-half-to-even ([py_round]); [a // b] on integers
      is [Z.div]; [int(x)] truncates towards zero.
    - Strings are byte strings; [upper] and [isdigit] act on ASCII.
    - The text accepted by [float(str)] and [int(str)] is a parameter
      ([PyText]).
    - A method that can raise returns an [outcome]: the state reached and
      whether an exception left the method.
    - A JSON object is the list of its items; the keys are distinct.
    - The socket is the list of frames handed to [ws.send], which is
      taken to succeed.
    - [time.sleep], logging and the cache object have no effect on the
      state and are omitted. *)

From Stdlib Require Import ZArith QArith Qround String Ascii List Bool Lia Lqa
  FinFun.
From Stdlib Require Import DecimalString DecimalPos DecimalZ.
From stdpp Require Import base option list gmap strings.
Import ListNotations.

#[local] Open Scope Z_scope.
#[local] Open Scope string_scope.

(** ** Python values *)

#[local] Set Warnings "-register-all".

Inductive json : Type :=
| JNull
| JBool (b : bool)
| JNum (q : Q)
| JStr (s : string)
| JArr (l : list json)
| JObj (kvs : list (string * json)).

Inductive exn : Type :=
| AttributeError | TypeError | ValueError | KeyError.

(** The result of an expression that may raise. *)
Inductive res (A : Type) : Type :=
| Ok (a : A)
| Raise (e : exn).
Arguments Ok {A} a.
Arguments Raise {A} e.

Definition res_bind {A B} (r : res A) (k : A -> res B) : res B :=
  match r with
  | Ok a => k a
  | Raise e => Raise e
  end.

Notation "'let?' x := r 'in' k" := (res_bind r (fun x => k))
  (at level 10, x name, r at level 100, k at level 200).

(** The text that [float(...)] and [int(...)] accept. *)
Class PyText : Type := {
  float_of_str : string -> option Q;
  int_of_str : string -> option Z
}.

(** [bool(v)]. *)
Definition truthy (v : json) : bool :=
  match v with
  | JNull => false
  | JBool b => b
  | JNum q => negb (Qeq_bool q 0)
  | JStr s => negb (String.eqb s "")
  | JArr l => match l with [] => false | _ => true end
  | JObj kvs => match kvs with [] => false | _ => true end
  end.

(** [a or b]. *)
Definition py_or (a b : json) : json := if truthy a then a else b.

Fixpoint assoc (k : string) (kvs : list (string * json)) : option json :=
  match kvs with
  | [] => None
  | (k', v) :: rest => if String.eqb k k' then Some v else assoc k rest
  end.

(** [d.get(k, dflt)]; only a dict has [get]. *)
Definition py_get_d (d : json) (k : string) (dflt : json) : res json :=
  match d with
  | JObj kvs => Ok (match assoc k kvs with Some v => v | None => dflt end)
  | _ => Raise AttributeError
  end.

(** [d.get(k)]. *)
Definition py_get (d : json) (k : string) : res json := py_get_d d k JNull.

(** [v == s] for a [str] s. *)
Definition py_eq_str (v : json) (s : string) : bool :=
  match v with
  | JStr t => String.eqb t s
  | _ => false
  end.

(** The number a value stands for in arithmetic and comparisons. *)
Definition as_num (v : json) : res Q :=
  match v with
  | JNum q => Ok q
  | JBool b => Ok (if b then 1%Q else 0%Q)
  | _ => Raise TypeError
  end.

(** [v > 0]. *)
Definition py_gt0 (v : json) : res bool :=
  let? q := as_num v in Ok (if Qlt_le_dec 0 q then true else false).

Definition Qtrunc (q : Q) : Z := Z.quot (Qnum q) (Z.pos (Qden q)).

(** [float(v)]. *)
Definition py_float `{PyText} (v : json) : res Q :=
  match v with
  | JNum q => Ok q
  | JBool b => Ok (if b then 1%Q else 0%Q)
  | JStr s => match float_of_str s with Some q => Ok q | None => Raise ValueError end
  | _ => Raise TypeError
  end.

(** [int(v)]. *)
Definition py_int `{PyText} (v : json) : res Z :=
  match v with
  | JNum q => Ok (Qtrunc q)
  | JBool b => Ok (if b then 1 else 0)
  | JStr s => match int_of_str s with Some z => Ok z | None => Raise ValueError end
  | _ => Raise TypeError
  end.

(** [round(q)]: to the nearest integer, ties to the even one. *)
Definition py_round (q : Q) : Z :=
  let f := Qfloor q in
  match Qcompare (q - inject_Z f) (1 # 2) with
  | Lt => f
  | Gt => f + 1
  | Eq => if Z.even f then f else f + 1
  end.

(** 2 to the power [e], for any integer [e]. *)
Definition pow2 (e : Z) : Q :=
  (inject_Z (2 ^ Z.max 0 e) / inject_Z (2 ^ Z.max 0 (- e)))%Q.

(** (a / b) / 2^e for positive integers [a] and [b]. *)
Definition scaled (a b e : Z) : Q :=
  (a * 2 ^ Z.max 0 (- e)) # Z.to_pos (b * 2 ^ Z.max 0 e).

(** The binary64 number nearest to [q], ties to the even significand:
    the exponent [e] is the one for which |q| / 2^e has 53 bits, and the
    significand is |q| / 2^e rounded to an integer. *)
Definition double_of (q : Q) : Q :=
  let a := Z.abs (Qnum q) in
  let b := Z.pos (Qden q) in
  if Z.eqb a 0 then 0%Q
  else
    let e0 := Z.log2 a - Z.log2 b - 53 in
    let e :=
      if Qlt_le_dec (scaled a b e0) (inject_Z (2 ^ 53)) then e0 else e0 + 1 in
    (inject_Z (Z.sgn (Qnum q) * py_round (scaled a b e)) * pow2 e)%Q.

(** [a / b] on two [int]s: the float nearest to the quotient. *)
Definition py_truediv (a b : Z) : Q := double_of (inject_Z a / inject_Z b).

(** [round(x, 2)] on a float: the exact value of [x] is rounded to two
    decimal places, ties to the even digit, and the float nearest to
    that decimal number is returned. *)
Definition py_round2 (x : Q) : Q :=
  double_of (inject_Z (py_round (x * 100)) / 100).

(** [str(z)] for an [int]. *)
Definition py_str (z : Z) : string := NilZero.string_of_int (Z.to_int z).

(** ** Strings *)

(** [s.split('-')]. *)
Fixpoint split_dash (s : string) : list string :=
  match s with
  | EmptyString => [""]
  | String c rest =>
      if Ascii.eqb c "-" then "" :: split_dash rest
      else match split_dash rest with
           | h :: t => String c h :: t
           | [] => [String c ""]
           end
  end.

(** [s.zfill(2)]. *)
Definition zfill2 (s : string) : string :=
  match s with
  | EmptyString => "00"
  | String c EmptyString =>
      if Ascii.eqb c "+" || Ascii.eqb c "-" then String c "0" else String "0" s
  | _ => s
  end.

Definition upper_ascii (c : ascii) : ascii :=
  let n := nat_of_ascii c in
  if (97 <=? n)%nat && (n <=? 122)%nat then ascii_of_nat (n - 32) else c.

(** [s.upper()]. *)
Fixpoint upper (s : string) : string :=
  match s with
  | EmptyString => EmptyString
  | String c rest => String (upper_ascii c) (upper rest)
  end.

(** [s.replace('-', '')]. *)
Fixpoint drop_dashes (s : string) : string :=
  match s with
  | EmptyString => EmptyString
  | String c rest =>
      if Ascii.eqb c "-" then drop_dashes rest else String c (drop_dashes rest)
  end.

Definition is_digit (c : ascii) : bool :=
  let n := nat_of_ascii c in (48 <=? n)%nat && (n <=? 57)%nat.

Fixpoint all_digits (s : string) : bool :=
  match s with
  | EmptyString => true
  | String c rest => is_digit c && all_digits rest
  end.

(** [s.isdigit()]. *)
Definition isdigit (s : string) : bool :=
  negb (String.eqb s "") && all_digits s.

Definition months : list string :=
  ["JAN"; "FEB"; "MAR"; "APR"; "MAY"; "JUN";
   "JUL"; "AUG"; "SEP"; "OCT"; "NOV"; "DEC"].

(** [k in v] for a [str] k. *)
Definition py_in (k : string) (v : json) : res bool :=
  match v with
  | JObj kvs => Ok (match assoc k kvs with Some _ => true | None => false end)
  | JArr l => Ok (existsb (fun x => py_eq_str x k) l)
  | JStr s => Ok (match String.index 0 k s with Some _ => true | None => false end)
  | _ => Raise TypeError
  end.

(** What a call that may raise after changing the state leaves behind. *)
Inductive outcome (S : Type) : Type :=
| Done (s : S)
| Raised (e : exn) (s : S).
Arguments Done {S} s.
Arguments Raised {S} e s.

Definition state_of {S} (o : outcome S) : S :=
  match o with
  | Done s => s
  | Raised _ s => s
  end.

Definition raised {S} (o : outcome S) : bool :=
  match o with
  | Done _ => false
  | Raised _ _ => true
  end.

(** ** utils/websocket_manager.py: ProfessionalWebSocketManager *)

(** The dict handed to [subscribe], in key order; a value is a [str] or
    [None].  [json.dumps] is injective on these dicts and [json.loads]
    inverts it, so the set of serialised strings [self.subscriptions] is
    kept as the set of the dicts themselves. *)
Definition subscription : Type := list (string * option string).

(** A text frame handed to [ws.send], before [json.dumps]. *)
Inductive frame : Type :=
| FAuthenticate (key : option string)
| FSubscribe (symbol exchange : option string) (mode depth : Z).

Record manager (H : Type) : Type := Manager {
  ws : option (list frame);   (* the socket app: frames sent, oldest first *)
  active : bool;
  authenticated : bool;
  subscriptions : gset subscription;
  ws_url : option string;
  api_key : option string;
  quote_handlers : list H;
  depth_handlers : list H;
  ltp_handlers : list H
}.
Arguments Manager {H}.
Arguments ws {H}.
Arguments active {H}.
Arguments authenticated {H}.
Arguments subscriptions {H}.
Arguments ws_url {H}.
Arguments api_key {H}.
Arguments quote_handlers {H}.
Arguments depth_handlers {H}.
Arguments ltp_handlers {H}.

Module WS.
Section Manager.
Context {H : Type}.

(** [__init__]. *)
Definition init : manager H :=
  Manager None false false ∅ None None [] [] [].

Definition with_ws (v : option (list frame)) (m : manager H) : manager H :=
  Manager v (active m) (authenticated m) (subscriptions m) (ws_url m)
          (api_key m) (quote_handlers m) (depth_handlers m) (ltp_handlers m).

Definition with_active (v : bool) (m : manager H) : manager H :=
  Manager (ws m) v (authenticated m) (subscriptions m) (ws_url m)
          (api_key m) (quote_handlers m) (depth_handlers m) (ltp_handlers m).

Definition with_authenticated (v : bool) (m : manager H) : manager H :=
  Manager (ws m) (active m) v (subscriptions m) (ws_url m)
          (api_key m) (quote_handlers m) (depth_handlers m) (ltp_handlers m).

Definition with_subscriptions (v : gset subscription) (m : manager H) : manager H :=
  Manager (ws m) (active m) (authenticated m) v (ws_url m)
          (api_key m) (quote_handlers m) (depth_handlers m) (ltp_handlers m).

(** [self.ws.send(...)]. *)
Definition send (f : frame) (m : manager H) : manager H :=
  match ws m with
  | Some sent => with_ws (Some (sent ++ [f])%list) m
  | None => m
  end.

(** The frames that have gone out on the socket. *)
Definition sent (m : manager H) : list frame :=
  match ws m with
  | Some l => l
  | None => []
  end.

(** [connect]: a new socket app, not yet authenticated. *)
Definition connect (url key : string) (m : manager H) : bool * manager H :=
  (true,
   Manager (Some []) true false (subscriptions m) (Some url) (Some key)
           (quote_handlers m) (depth_handlers m) (ltp_handlers m)).

(** [authenticate]. *)
Definition authenticate (m : manager H) : manager H :=
  match ws m with
  | Some _ => send (FAuthenticate (api_key m)) m
  | None => m
  end.

(** [on_open]. *)
Definition on_open (m : manager H) : manager H := authenticate m.

(** [on_close]. *)
Definition on_close (m : manager H) : manager H := with_active false m.

(** [subscription.get(k)]. *)
Definition sub_get (k : string) (sub : subscription) : option string :=
  match list_find (fun kv => String.eqb k kv.1) sub with
  | Some (_, (_, v)) => v
  | None => None
  end.

(** [subscription.get('mode', 'ltp')]. *)
Definition sub_mode (sub : subscription) : option string :=
  match list_find (fun kv => String.eqb "mode" kv.1) sub with
  | Some (_, (_, v)) => v
  | None => Some "ltp"
  end.

(** [mode_map.get(mode, 1)]. *)
Definition mode_num (mode : option string) : Z :=
  match mode with
  | Some s =>
      if String.eqb s "ltp" then 1
      else if String.eqb s "quote" then 2
      else if String.eqb s "depth" then 3
      else 1
  | None => 1
  end.

(** [subscribe]. *)
Definition subscribe (sub : subscription) (m : manager H) : bool * manager H :=
  match ws m with
  | None => (false, m)
  | Some _ =>
      if negb (authenticated m) then (false, m)
      else
        let message :=
          FSubscribe (sub_get "symbol" sub) (sub_get "exchange" sub)
                     (mode_num (sub_mode sub)) 5 in
        let m := send message m in
        (true, with_subscriptions ({[ sub ]} ∪ subscriptions m) m)
  end.

(** [subscribe_batch]: an instrument is a dict with a symbol and an
    exchange. *)
Definition subscribe_batch (instruments : list subscription) (mode : string)
    (m : manager H) : manager H :=
  fold_left
    (fun m inst =>
       (subscribe [("symbol", sub_get "symbol" inst);
                   ("exchange", sub_get "exchange" inst);
                   ("mode", Some mode)] m).2)
    instruments m.

(** [resubscribe_all]: the set is walked in some order; re-adding a
    member during the walk does not change it. *)
Definition resubscribe_all (m : manager H) : manager H :=
  fold_left (fun m sub => (subscribe sub m).2) (elements (subscriptions m)) m.

(** [register_handler]. *)
Definition register_handler (mode : string) (handler : H) (m : manager H)
    : manager H :=
  if String.eqb mode "quote" then
    Manager (ws m) (active m) (authenticated m) (subscriptions m) (ws_url m)
            (api_key m) (quote_handlers m ++ [handler])%list (depth_handlers m)
            (ltp_handlers m)
  else if String.eqb mode "depth" then
    Manager (ws m) (active m) (authenticated m) (subscriptions m) (ws_url m)
            (api_key m) (quote_handlers m) (depth_handlers m ++ [handler])%list
            (ltp_handlers m)
  else if String.eqb mode "ltp" then
    Manager (ws m) (active m) (authenticated m) (subscriptions m) (ws_url m)
            (api_key m) (quote_handlers m) (depth_handlers m)
            (ltp_handlers m ++ [handler])%list
  else m.

(** *** Dispatch

    A handler is called with the payload and acts on the state [W] of
    the rest of the program; it returns or raises. *)
Context {W : Type} (run : H -> json -> W -> outcome W).

(** [for handler in handlers: try: handler(market_data) except: log]. *)
Definition deliver (handlers : list H) (market_data : json) (w : W) : W :=
  fold_left (fun w handler => state_of (run handler market_data w)) handlers w.

(** The mode [process_market_data] settles on: ['ltp'] unless the
    payload has a depth or bids field, or else an open field. *)
Definition classify (market_data : json) : res string :=
  let? has_depth := py_in "depth" market_data in
  let? has_bids :=
    (if has_depth then Ok true else py_in "bids" market_data) in
  if has_bids then Ok "depth"
  else
    let? has_open := py_in "open" market_data in
    Ok (if has_open then "quote" else "ltp").

(** [process_market_data]. *)
Definition process_market_data (m : manager H) (data : json) (w : W)
    : outcome W :=
  match py_get_d data "data" data with
  | Raise e => Raised e w
  | Ok market_data =>
      match classify market_data with
      | Raise e => Raised e w
      | Ok mode =>
          if String.eqb mode "depth" then
            Done (deliver (depth_handlers m) market_data w)
          else if String.eqb mode "quote" then
            Done (deliver (quote_handlers m) market_data w)
          else Done w
      end
  end.

(** [on_message]: [message] is the parsed frame, [None] when
    [json.loads] raises.  The whole body sits in one [try]; whatever is
    raised is logged and the message dropped. *)
Definition on_message (message : option json) (m : manager H) (w : W)
    : manager H * W :=
  match message with
  | None => (m, w)
  | Some data =>
      match py_get data "type" with
      | Raise _ => (m, w)
      | Ok ty =>
          if py_eq_str ty "auth" then
            match py_get data "status" with
            | Raise _ => (m, w)
            | Ok status =>
                if py_eq_str status "success" then
                  let m := with_authenticated true m in
                  if decide (subscriptions m = ∅) then (m, w)
                  else (resubscribe_all m, w)
                else (m, w)
            end
          else
            match py_get data "ltp" with
            | Raise _ => (m, w)
            | Ok ltp =>
                if py_eq_str ty "market_data"
                   || match ltp with JNull => false | _ => true end
                then (m, state_of (process_market_data m data w))
                else (m, w)
            end
      end
  end.

End Manager.
End WS.

(** ** utils/option_chain.py: OptionChainManager *)

(** ['CE'] or ['PE']. *)
Inductive option_type : Type := CE | PE.

Definition type_name (t : option_type) : string :=
  match t with
  | CE => "CE"
  | PE => "PE"
  end.

(** The dict under ['ce_data'] and ['pe_data']. *)
Record side_quote : Type := SideQuote {
  ltp : Q;
  bid : Q;
  ask : Q;
  bid_qty : Z;
  ask_qty : Z;
  spread : Q;
  volume : Z;
  oi : Z
}.

Definition empty_quote : side_quote := SideQuote 0 0 0 0 0 0 0 0.

(** A value of [self.option_data]. *)
Record row : Type := Row {
  strike : Z;
  tag : string;
  position : Z;
  ce_symbol : string;
  pe_symbol : string;
  ce_data : side_quote;
  pe_data : side_quote
}.

Definition with_ce_data (v : side_quote) (r : row) : row :=
  Row (strike r) (tag r) (position r) (ce_symbol r) (pe_symbol r) v (pe_data r).

Definition with_pe_data (v : side_quote) (r : row) : row :=
  Row (strike r) (tag r) (position r) (ce_symbol r) (pe_symbol r) (ce_data r) v.

(** [self.expiry]: a [str], a [datetime] (day and month number), or
    anything else. *)
Inductive expiry_value : Type :=
| ExpiryStr (s : string)
| ExpiryDate (day month : nat)
| ExpiryOther.

(** The REST client: [quotes(symbol, exchange)] returns the response or
    raises. *)
Definition api : Type := string -> string -> res json.

(** The two bound methods the engine registers with the connection. *)
Inductive chain_handler : Type := HandleDepthUpdate | HandleQuoteUpdate.

Record chain : Type := Chain {
  underlying : string;
  expiry : expiry_value;
  strike_step : Z;
  option_data : list (Z * row);        (* a dict, in insertion order *)
  subscription_map : gmap string (Z * option_type);
  underlying_ltp : json;
  underlying_bid : json;
  underlying_ask : json;
  atm_strike : Z;
  websocket_manager : option (manager chain_handler);
  api_client : option api;
  monitoring_active : bool;
  initialized : bool
}.

(** *** Dicts keyed by strike *)

Fixpoint dict_get {V} (k : Z) (d : list (Z * V)) : option V :=
  match d with
  | [] => None
  | (k', v) :: rest => if Z.eqb k k' then Some v else dict_get k rest
  end.

(** [d[k] = v]: an existing key keeps its place, a new one goes last. *)
Fixpoint dict_set {V} (k : Z) (v : V) (d : list (Z * V)) : list (Z * V) :=
  match d with
  | [] => [(k, v)]
  | (k', v') :: rest =>
      if Z.eqb k k' then (k, v) :: rest else (k', v') :: dict_set k v rest
  end.

Definition dict_keys {V} (d : list (Z * V)) : list Z := map fst d.
Definition dict_values {V} (d : list (Z * V)) : list V := map snd d.

(** [range(lo, hi)]. *)
Definition py_range (lo hi : Z) : list Z :=
  map (fun n => lo + Z.of_nat n) (seq 0 (Z.to_nat (hi - lo))).

Section Engine.
Context `{PyText}.

(** [__init__]. *)
Definition new_chain (underlying : string) (expiry : expiry_value)
    (websocket_manager : option (manager chain_handler)) : chain :=
  Chain underlying expiry
        (if String.eqb underlying "NIFTY" then 50 else 100)
        [] ∅ (JNum 0) (JNum 0) (JNum 0) 0 websocket_manager None false false.

Definition with_option_data (v : list (Z * row)) (c : chain) : chain :=
  Chain (underlying c) (expiry c) (strike_step c) v (subscription_map c)
        (underlying_ltp c) (underlying_bid c) (underlying_ask c)
        (atm_strike c) (websocket_manager c) (api_client c)
        (monitoring_active c) (initialized c).

Definition with_subscription_map (v : gmap string (Z * option_type))
    (c : chain) : chain :=
  Chain (underlying c) (expiry c) (strike_step c) (option_data c) v
        (underlying_ltp c) (underlying_bid c) (underlying_ask c)
        (atm_strike c) (websocket_manager c) (api_client c)
        (monitoring_active c) (initialized c).

Definition with_underlying_ltp (v : json) (c : chain) : chain :=
  Chain (underlying c) (expiry c) (strike_step c) (option_data c)
        (subscription_map c) v (underlying_bid c) (underlying_ask c)
        (atm_strike c) (websocket_manager c) (api_client c)
        (monitoring_active c) (initialized c).

Definition with_underlying_bid (v : json) (c : chain) : chain :=
  Chain (underlying c) (expiry c) (strike_step c) (option_data c)
        (subscription_map c) (underlying_ltp c) v (underlying_ask c)
        (atm_strike c) (websocket_manager c) (api_client c)
        (monitoring_active c) (initialized c).

Definition with_underlying_ask (v : json) (c : chain) : chain :=
  Chain (underlying c) (expiry c) (strike_step c) (option_data c)
        (subscription_map c) (underlying_ltp c) (underlying_bid c) v
        (atm_strike c) (websocket_manager c) (api_client c)
        (monitoring_active c) (initialized c).

Definition with_atm_strike (v : Z) (c : chain) : chain :=
  Chain (underlying c) (expiry c) (strike_step c) (option_data c)
        (subscription_map c) (underlying_ltp c) (underlying_bid c)
        (underlying_ask c) v (websocket_manager c) (api_client c)
        (monitoring_active c) (initialized c).

Definition with_websocket_manager (v : option (manager chain_handler))
    (c : chain) : chain :=
  Chain (underlying c) (expiry c) (strike_step c) (option_data c)
        (subscription_map c) (underlying_ltp c) (underlying_bid c)
        (underlying_ask c) (atm_strike c) v (api_client c)
        (monitoring_active c) (initialized c).

Definition with_api_client (v : option api) (c : chain) : chain :=
  Chain (underlying c) (expiry c) (strike_step c) (option_data c)
        (subscription_map c) (underlying_ltp c) (underlying_bid c)
        (underlying_ask c) (atm_strike c) (websocket_manager c) v
        (monitoring_active c) (initialized c).

Definition with_monitoring_active (v : bool) (c : chain) : chain :=
  Chain (underlying c) (expiry c) (strike_step c) (option_data c)
        (subscription_map c) (underlying_ltp c) (underlying_bid c)
        (underlying_ask c) (atm_strike c) (websocket_manager c)
        (api_client c) v (initialized c).

Definition with_initialized (v : bool) (c : chain) : chain :=
  Chain (underlying c) (expiry c) (strike_step c) (option_data c)
        (subscription_map c) (underlying_ltp c) (underlying_bid c)
        (underlying_ask c) (atm_strike c) (websocket_manager c)
        (api_client c) (monitoring_active c) v.

(** The [for mon in [...]: ... else: ...] scan of
    [construct_option_symbol]. *)
Fixpoint scan_months (mons : list string) (expiry_clean : string) : string :=
  match mons with
  | [] => "28AUG"
  | mon :: rest =>
      match String.index 0 mon expiry_clean with
      | Some idx =>
          let day := String.substring (idx - 2) (idx - (idx - 2)) expiry_clean in
          let day := if negb (isdigit day) then "01" else day in
          zfill2 day ++ mon
      | None => scan_months rest expiry_clean
      end
  end.

(** The day-and-month part of the symbol. *)
Definition expiry_formatted (e : expiry_value) : string :=
  match e with
  | ExpiryStr s =>
      match split_dash s with
      | day :: month :: _ =>
          zfill2 day ++ String.substring 0 3 (upper month)
      | _ => scan_months months (upper (drop_dashes s))
      end
  | ExpiryDate day month =>
      zfill2 (py_str (Z.of_nat day)) ++ nth (month - 1) months ""
  | ExpiryOther => "28AUG"
  end.

(** [construct_option_symbol]; a strike is an [int], so
    [strike == int(strike)] holds and it is written by [str(int(strike))]. *)
Definition construct_option_symbol (self : chain) (strike : Z)
    (option_type : option_type) : string :=
  let strike_str := py_str strike in
  underlying self ++ expiry_formatted (expiry self) ++ "25" ++ strike_str
    ++ type_name option_type.

(** [round(ltp / strike_step) * strike_step]. *)
Definition atm_for (ltp : json) (strike_step : Z) : res Z :=
  let? q := as_num ltp in
  Ok (py_round (q / inject_Z strike_step) * strike_step).

(** The part of [calculate_atm] that asks the REST client, inside the
    [try]: the value to return and the state reached, or the state
    reached when something raised. *)
Definition fetch_atm (self : chain) : res Z * chain :=
  let exchange :=
    if String.eqb (underlying self) "SENSEX" then "BSE_INDEX" else "NSE_INDEX" in
  match api_client self with
  | None => (Raise AttributeError, self)
  | Some client =>
      match client (underlying self) exchange with
      | Raise e => (Raise e, self)
      | Ok response =>
          match py_get response "status" with
          | Raise e => (Raise e, self)
          | Ok status =>
              if py_eq_str status "success" then
                match (let? data := py_get_d response "data" (JObj []) in
                       let? l := py_get_d data "ltp" (JNum 0) in
                       let? b := py_get_d data "bid" l in
                       let? a := py_get_d data "ask" l in
                       Ok (l, b, a)) with
                | Raise e => (Raise e, self)
                | Ok (l, b, a) =>
                    let self :=
                      with_underlying_ask a
                        (with_underlying_bid b (with_underlying_ltp l self)) in
                    match py_gt0 l with
                    | Raise e => (Raise e, self)
                    | Ok true =>
                        match atm_for l (strike_step self) with
                        | Raise e => (Raise e, self)
                        | Ok atm => (Ok atm, with_atm_strike atm self)
                        end
                    | Ok false => (Ok 0, self)
                    end
                end
              else (Ok 0, self)
          end
      end
  end.

(** [self.underlying_ltp and self.underlying_ltp > 0]. *)
Definition has_cached_ltp (self : chain) : res bool :=
  if truthy (underlying_ltp self) then py_gt0 (underlying_ltp self)
  else Ok false.

(** [calculate_atm]: the returned strike and the state.  Whatever is
    raised inside is caught and 0 returned. *)
Definition calculate_atm (self : chain) : Z * chain :=
  match has_cached_ltp self with
  | Raise _ => (0, self)
  | Ok true =>
      match atm_for (underlying_ltp self) (strike_step self) with
      | Raise _ => (0, self)
      | Ok atm => (atm, with_atm_strike atm self)
      end
  | Ok false =>
      match fetch_atm self with
      | (Ok atm, self) => (atm, self)
      | (Raise _, self) => (0, self)
      end
  end.

(** The list [strikes] built by [generate_strikes]: strike, tag,
    position. *)
Definition strike_list (atm step : Z) : list (Z * string * Z) :=
  let itm :=
    map (fun i => (atm - i * step, "ITM" ++ py_str i, - i))
        (rev (py_range 1 21)) in
  let otm :=
    map (fun i => (atm + i * step, "OTM" ++ py_str i, i)) (py_range 1 21) in
  List.app itm (List.app [(atm, "ATM", 0)] otm).

(** One turn of the loop that fills [option_data] and
    [subscription_map]. *)
Definition add_strike (self : chain) (info : Z * string * Z) : chain :=
  let '(strike, tag, position) := info in
  let r := Row strike tag position
               (construct_option_symbol self strike CE)
               (construct_option_symbol self strike PE)
               empty_quote empty_quote in
  let self := with_option_data (dict_set strike r (option_data self)) self in
  let self :=
    with_subscription_map
      (<[ce_symbol r := (strike, CE)]> (subscription_map self)) self in
  with_subscription_map
    (<[pe_symbol r := (strike, PE)]> (subscription_map self)) self.

(** [generate_strikes]. *)
Definition generate_strikes (self : chain) : chain :=
  if Z.eqb (atm_strike self) 0 then self
  else fold_left add_strike
                 (strike_list (atm_strike self) (strike_step self)) self.

(** [subscribe_underlying_quote]. *)
Definition subscribe_underlying_quote (self : chain) : chain :=
  match websocket_manager self with
  | Some m =>
      let exchange :=
        if String.eqb (underlying self) "SENSEX" then "BSE_INDEX"
        else "NSE_INDEX" in
      let subscription :=
        [("exchange", Some exchange); ("symbol", Some (underlying self));
         ("mode", Some "quote")] in
      with_websocket_manager (Some (WS.subscribe subscription m).2) self
  | None => self
  end.

(** [batch_subscribe_options]. *)
Definition batch_subscribe_options (self : chain) : chain :=
  match websocket_manager self with
  | None => self
  | Some m =>
      let exchange :=
        if String.eqb (underlying self) "SENSEX" then "BFO" else "NFO" in
      let instruments :=
        flat_map (fun strike_data =>
                    [[("symbol", Some (ce_symbol strike_data));
                      ("exchange", Some exchange)];
                     [("symbol", Some (pe_symbol strike_data));
                      ("exchange", Some exchange)]])
                 (dict_values (option_data self)) in
      with_websocket_manager
        (Some (WS.subscribe_batch instruments "depth" m)) self
  end.

(** [setup_depth_subscriptions]. *)
Definition setup_depth_subscriptions (self : chain) : chain :=
  match websocket_manager self with
  | None => self
  | Some m =>
      let m := WS.register_handler "depth" HandleDepthUpdate m in
      let m := WS.register_handler "quote" HandleQuoteUpdate m in
      let self := with_websocket_manager (Some m) self in
      let self := subscribe_underlying_quote self in
      batch_subscribe_options self
  end.

(** [initialize]. *)
Definition initialize (api_client : api) (self : chain) : bool * chain :=
  if initialized self then (true, self)
  else
    let self := with_api_client (Some api_client) self in
    let self := (calculate_atm self).2 in
    let self := generate_strikes self in
    let self := setup_depth_subscriptions self in
    (true, with_initialized true self).

(** [get_strike_position]; [strike_step] is 50 or 100. *)
Definition get_strike_position (self : chain) (strike : Z) : Z :=
  if Z.eqb (atm_strike self) 0 then 0
  else (strike - atm_strike self) / strike_step self.

(** [get_position_tag]. *)
Definition get_position_tag (position : Z) : string :=
  if Z.eqb position 0 then "ATM"
  else if Z.ltb 0 position then "OTM" ++ py_str (Z.abs position)
  else "ITM" ++ py_str (Z.abs position).

(** One turn of the loop of [update_option_tags]. *)
Definition retag (self : chain) (strike_data : row) : row :=
  let position := get_strike_position self (strike strike_data) in
  Row (strike strike_data) (get_position_tag position) position
      (ce_symbol strike_data) (pe_symbol strike_data)
      (ce_data strike_data) (pe_data strike_data).

(** [update_option_tags]. *)
Definition update_option_tags (self : chain) : chain :=
  with_option_data
    (map (fun kv => (kv.1, retag self kv.2)) (option_data self)) self.

(** [start_monitoring]. *)
Definition start_monitoring (self : chain) : chain :=
  with_monitoring_active true self.

(** [stop_monitoring]. *)
Definition stop_monitoring (self : chain) : chain :=
  with_monitoring_active false self.

End Engine.

Section Handlers.
Context `{PyText}.

(** [handle_quote_update]. *)
Definition handle_quote_update (data : json) (self : chain) : outcome chain :=
  match py_get_d data "symbol" (JStr "") with
  | Raise e => Raised e self
  | Ok symbol =>
      if negb (py_eq_str symbol (underlying self)) then Done self
      else
        match py_get_d data "ltp" (JNum 0) with
        | Raise e => Raised e self
        | Ok ltp =>
            if negb (truthy ltp) then Done self
            else
              match py_float ltp with
              | Raise e => Raised e self
              | Ok l =>
                  let self := with_underlying_ltp (JNum l) self in
                  let old_atm := atm_strike self in
                  let '(atm, self) := calculate_atm self in
                  let self := with_atm_strike atm self in
                  let self :=
                    if negb (Z.eqb old_atm (atm_strike self)) then
                      match option_data self with
                      | [] =>
                          let self := generate_strikes self in
                          match websocket_manager self with
                          | Some m =>
                              if authenticated m
                              then batch_subscribe_options self
                              else self
                          | None => self
                          end
                      | _ :: _ => update_option_tags self
                      end
                    else self in
                  match (let? b := py_get_d data "bid" (JNum 0) in
                         py_float (py_or b (JNum 0))) with
                  | Raise e => Raised e self
                  | Ok b =>
                      let self := with_underlying_bid (JNum b) self in
                      match (let? a := py_get_d data "ask" (JNum 0) in
                             py_float (py_or a (JNum 0))) with
                      | Raise e => Raised e self
                      | Ok a => Done (with_underlying_ask (JNum a) self)
                      end
                  end
              end
        end
  end.

(** [data.get('symbol') or data.get('Symbol') or
    data.get('trading_symbol') or '']. *)
Definition depth_symbol (data : json) : res json :=
  let? s1 := py_get data "symbol" in
  let? s2 := py_get data "Symbol" in
  let? s3 := py_get data "trading_symbol" in
  Ok (py_or s1 (py_or s2 (py_or s3 (JStr "")))).

(** [symbol in self.subscription_map] followed by
    [self.subscription_map[symbol]]: a list or a dict is not hashable. *)
Definition routing_lookup (self : chain) (symbol : json)
    : res (option (Z * option_type)) :=
  match symbol with
  | JStr s => Ok (subscription_map self !! s)
  | JArr _ | JObj _ => Raise TypeError
  | _ => Ok None
  end.

(** The best price and size of one side of the book: the first level,
    as a dict with price and quantity or as a pair. *)
Definition best_level (levels : json) : res (json * json) :=
  if negb (truthy levels) then Ok (JNum 0, JNum 0)
  else
    match levels with
    | JArr (JObj kvs :: _) =>
        Ok (match assoc "price" kvs with Some v => v | None => JNum 0 end,
            match assoc "quantity" kvs with Some v => v | None => JNum 0 end)
    | JArr (JArr (p :: q :: _) :: _) => Ok (p, q)
    | JArr _ => Ok (JNum 0, JNum 0)
    | JStr _ => Ok (JNum 0, JNum 0)
    | JObj _ => Raise KeyError
    | _ => Raise TypeError
    end.

(** [float(v) if v else 0]. *)
Definition float_or_0 (v : json) : res Q :=
  if truthy v then py_float v else Ok 0%Q.

(** [int(v) if v else 0]. *)
Definition int_or_0 (v : json) : res Z :=
  if truthy v then py_int v else Ok 0.

(** The dict [depth_data] that [handle_depth_update] builds from a
    tick. *)
Definition depth_data_of (data : json) : res side_quote :=
  let? depth_data_raw := py_get_d data "depth" (JObj []) in
  let? sides :=
    (if truthy depth_data_raw then
       let? b0 := py_get_d depth_data_raw "bids" (JArr []) in
       let? b := py_get_d depth_data_raw "buy" b0 in
       let? a0 := py_get_d depth_data_raw "asks" (JArr []) in
       let? a := py_get_d depth_data_raw "sell" a0 in
       Ok (b, a)
     else
       let? b := py_get_d data "bids" (JArr []) in
       let? a := py_get_d data "asks" (JArr []) in
       Ok (b, a)) in
  let? l1 := py_get data "ltp" in
  let? l2 := py_get data "last_price" in
  let ltp := py_or l1 (py_or l2 (JNum 0)) in
  let? best_b := best_level sides.1 in
  let? best_a := best_level sides.2 in
  let? ltp := float_or_0 ltp in
  let? bid := float_or_0 best_b.1 in
  let? ask := float_or_0 best_a.1 in
  let? bid_qty := int_or_0 best_b.2 in
  let? ask_qty := int_or_0 best_a.2 in
  let? v := py_get_d data "volume" (JNum 0) in
  let? volume := py_int (py_or v (JNum 0)) in
  let? o := py_get_d data "oi" (JNum 0) in
  let? oi := py_int (py_or o (JNum 0)) in
  let spread :=
    if (if Qlt_le_dec 0 bid then true else false)
       && (if Qlt_le_dec 0 ask then true else false)
    then (ask - bid)%Q else 0%Q in
  Ok (SideQuote ltp bid ask bid_qty ask_qty spread volume oi).

(** [update_option_depth]. *)
Definition update_option_depth (strike : Z) (option_type : option_type)
    (depth_data : side_quote) (self : chain) : chain :=
  match dict_get strike (option_data self) with
  | Some r =>
      let r :=
        match option_type with
        | CE => with_ce_data depth_data r
        | PE => with_pe_data depth_data r
        end in
      with_option_data (dict_set strike r (option_data self)) self
  | None => self
  end.

(** [handle_depth_update]. *)
Definition handle_depth_update (data : json) (self : chain) : outcome chain :=
  match (let? symbol := depth_symbol data in routing_lookup self symbol) with
  | Raise e => Raised e self
  | Ok None => Done self
  | Ok (Some (strike, option_type)) =>
      match depth_data_of data with
      | Raise e => Raised e self
      | Ok depth_data =>
          Done (update_option_depth strike option_type depth_data self)
      end
  end.

End Handlers.

(** The dict returned by [calculate_market_metrics]. *)
Record market_metrics : Type := MarketMetrics {
  total_ce_volume : Z;
  total_pe_volume : Z;
  total_volume : Z;
  total_ce_oi : Z;
  total_pe_oi : Z;
  pcr : Q
}.

(** [sum(...)] over a list of integers. *)
Definition py_sum (l : list Z) : Z := fold_left Z.add l 0.

(** [calculate_market_metrics]. *)
Definition calculate_market_metrics (self : chain) : market_metrics :=
  let rows := dict_values (option_data self) in
  let total_ce_volume := py_sum (map (fun opt => volume (ce_data opt)) rows) in
  let total_pe_volume := py_sum (map (fun opt => volume (pe_data opt)) rows) in
  let total_ce_oi := py_sum (map (fun opt => oi (ce_data opt)) rows) in
  let total_pe_oi := py_sum (map (fun opt => oi (pe_data opt)) rows) in
  let pcr :=
    if Z.ltb 0 total_ce_oi
    then py_truediv total_pe_oi total_ce_oi else 0%Q in
  MarketMetrics total_ce_volume total_pe_volume
                (total_ce_volume + total_pe_volume)
                total_ce_oi total_pe_oi (py_round2 pcr).

(** The dict returned by [get_option_chain]; [timestamp] is the clock
    reading. *)
Record snapshot : Type := Snapshot {
  snap_underlying : string;
  snap_underlying_ltp : json;
  snap_underlying_bid : json;
  snap_underlying_ask : json;
  snap_atm_strike : Z;
  snap_expiry : expiry_value;
  snap_timestamp : string;
  snap_options : list row;
  snap_market_metrics : market_metrics
}.

(** [get_option_chain]. *)
Definition get_option_chain (timestamp : string) (self : chain) : snapshot :=
  Snapshot (underlying self) (underlying_ltp self) (underlying_bid self)
           (underlying_ask self) (atm_strike self) (expiry self) timestamp
           (dict_values (option_data self)) (calculate_market_metrics self).

(** ** Vocabulary of the properties *)

(** A reading of numeric text for worked examples: plain decimal
    integers, nothing else. *)
Definition plain_text : PyText :=
  {| float_of_str := fun s => option_map (fun d => inject_Z (Z.of_int d))
                                         (NilZero.int_of_string s);
     int_of_str := fun s => option_map Z.of_int (NilZero.int_of_string s) |}.

(** The string has a dash in it. *)
Fixpoint has_dash (s : string) : bool :=
  match s with
  | EmptyString => false
  | String c rest => Ascii.eqb c "-" || has_dash rest
  end.

(** The tick has no ltp, or a falsy one (0, null, false, an empty string,
    list or dict). *)
Definition ltp_falsy (kvs : list (string * json)) : Prop :=
  match assoc "ltp" kvs with
  | None => True
  | Some v => truthy v = false
  end.

(** A REST client that answers every quote request with a successful
    response carrying the given price. *)
Definition quoting (price : Q) : api :=
  fun _ _ =>
    Ok (JObj [("status", JStr "success");
              ("data", JObj [("ltp", JNum price)])]).

(** NIFTY, expiry 28-AUG-25, initialised from a quote of 24537. *)
Definition nifty : chain :=
  (initialize (quoting 24537) (new_chain "NIFTY" (ExpiryStr "28-AUG-25") None)).2.

(** [nifty] after a depth tick with open interest -5 for the 24600 call
    and one with open interest 10 for the 24600 put. *)
Definition nifty_negative_oi : chain :=
  state_of
    (@handle_depth_update plain_text
       (JObj [("symbol", JStr "NIFTY28AUG2524600PE"); ("oi", JNum 10)])
       (state_of
          (@handle_depth_update plain_text
             (JObj [("symbol", JStr "NIFTY28AUG2524600CE"); ("oi", JNum (-5))])
             nifty))).

(** [nifty] after a depth tick with open interest 100000 for the 24600
    call and one with open interest 2500 for the 24600 put. *)
Definition nifty_with_oi : chain :=
  state_of
    (@handle_depth_update plain_text
       (JObj [("symbol", JStr "NIFTY28AUG2524600PE"); ("oi", JNum 2500)])
       (state_of
          (@handle_depth_update plain_text
             (JObj [("symbol", JStr "NIFTY28AUG2524600CE");
                    ("oi", JNum 100000)])
             nifty))).

(** The unit roundoff of binary64, 2^-53: the largest relative change
    that rounding to the nearest float makes. *)
Definition unit_roundoff : Q := 1 # 9007199254740992.

(** A lower-case ASCII letter, a to z. *)
Definition is_lower (c : ascii) : bool :=
  let n := nat_of_ascii c in (97 <=? n)%nat && (n <=? 122)%nat.

(** The fields fixed by [__init__] together with the grid and the
    routing table. *)
Definition same_grid (s s' : chain) : Prop :=
  underlying s' = underlying s
  /\ expiry s' = expiry s
  /\ strike_step s' = strike_step s
  /\ option_data s' = option_data s
  /\ subscription_map s' = subscription_map s
  /\ initialized s' = initialized s.

(** The quote request raises, answers with a status other than success,
    or answers success with a price that is not positive. *)
Inductive quote_unavailable : res json -> Prop :=
| quote_raises (e : exn) : quote_unavailable (Raise e)
| quote_not_success (kvs : list (string * json)) :
    match assoc "status" kvs with
    | Some status => py_eq_str status "success"
    | None => false
    end = false ->
    quote_unavailable (Ok (JObj kvs))
| quote_not_positive (kvs data : list (string * json)) (price : Q) :
    assoc "status" kvs = Some (JStr "success") ->
    assoc "data" kvs = Some (JObj data) ->
    assoc "ltp" data = Some (JNum price) ->
    (price <= 0)%Q ->
    quote_unavailable (Ok (JObj kvs)).

(** A REST client whose every request raises. *)
Definition unreachable_api : api := fun _ _ => Raise ValueError.

(** The tag of the spec for an offset from the ATM strike. *)
Definition grid_tag (offset : Z) : string :=
  if Z.ltb offset 0 then "ITM" ++ py_str (Z.abs offset)
  else if Z.eqb offset 0 then "ATM"
  else "OTM" ++ py_str offset.

(** The row [generate_strikes] stores for one entry of its list. *)
Definition grid_row (self : chain) (info : Z * string * Z) : row :=
  Row info.1.1 info.1.2 info.2
      (construct_option_symbol self info.1.1 CE)
      (construct_option_symbol self info.1.1 PE)
      empty_quote empty_quote.

(** Every field but the grid and the routing table. *)
Definition same_settings (s s' : chain) : Prop :=
  underlying s' = underlying s
  /\ expiry s' = expiry s
  /\ strike_step s' = strike_step s
  /\ underlying_ltp s' = underlying_ltp s
  /\ underlying_bid s' = underlying_bid s
  /\ underlying_ask s' = underlying_ask s
  /\ atm_strike s' = atm_strike s
  /\ websocket_manager s' = websocket_manager s
  /\ api_client s' = api_client s
  /\ monitoring_active s' = monitoring_active s
  /\ initialized s' = initialized s.

(** The quote request answers success with the given positive price. *)
Definition quote_gives (response : res json) (price : Q) : Prop :=
  exists kvs data,
    response = Ok (JObj kvs)
    /\ assoc "status" kvs = Some (JStr "success")
    /\ assoc "data" kvs = Some (JObj data)
    /\ assoc "ltp" data = Some (JNum price)
    /\ (0 < price)%Q.

(** What a quote tick does to the grid: nothing, or, when the ATM strike
    moved, generation on an engine without rows and re-tagging on one
    with rows.  [mid] is the state once the new ATM strike is stored. *)
Inductive quote_effect (self after : chain) : Prop :=
| quote_keeps :
    atm_strike after = atm_strike self ->
    same_grid self after ->
    quote_effect self after
| quote_generates (mid : chain) :
    same_grid self mid ->
    (strike_step self | atm_strike mid) ->
    atm_strike mid <> atm_strike self ->
    option_data self = [] ->
    same_grid (generate_strikes mid) after ->
    atm_strike after = atm_strike mid ->
    quote_effect self after
| quote_retags (mid : chain) :
    same_grid self mid ->
    (strike_step self | atm_strike mid) ->
    atm_strike mid <> atm_strike self ->
    option_data self <> [] ->
    same_grid (update_option_tags mid) after ->
    atm_strike after = atm_strike mid ->
    quote_effect self after.

(** A row after re-tagging against the ATM strike [atm]: everything but
    the position and the tag is kept; the position is 0 when [atm] is 0
    and the floor of (strike - atm) / step otherwise. *)
Definition relabelled (atm step : Z) (old new : Z * row) : Prop :=
  new.1 = old.1
  /\ strike new.2 = strike old.2
  /\ ce_symbol new.2 = ce_symbol old.2
  /\ pe_symbol new.2 = pe_symbol old.2
  /\ ce_data new.2 = ce_data old.2
  /\ pe_data new.2 = pe_data old.2
  /\ position new.2
     = (if Z.eqb atm 0 then 0 else (strike old.2 - atm) / step)
  /\ tag new.2 = get_position_tag (position new.2).

(** A handler that records the payload it was called with in a log and
    then returns, or raises when [fails] says so. *)
Definition recording (fails : string -> bool) (name : string) (payload : json)
    (log : list (string * json)) : outcome (list (string * json)) :=
  if fails name then Raised ValueError (log ++ [(name, payload)])%list
  else Done (log ++ [(name, payload)])%list.

(** A connection with one handler registered for every mode. *)
Definition three_handlers : manager string :=
  WS.register_handler "ltp" "on_ltp"
    (WS.register_handler "quote" "on_quote"
       (WS.register_handler "depth" "on_depth" WS.init)).

(** The frame [subscribe] sends for a subscription. *)
Definition frame_of (sub : subscription) : frame :=
  FSubscribe (WS.sub_get "symbol" sub) (WS.sub_get "exchange" sub)
             (WS.mode_num (WS.sub_mode sub)) 5.

(** The subscription to the NIFTY index in quote mode. *)
Definition nifty_quote : subscription :=
  [("exchange", Some "NSE_INDEX"); ("symbol", Some "NIFTY");
   ("mode", Some "quote")].

(** The auth-success message. *)
Definition auth_success : json :=
  JObj [("type", JStr "auth"); ("status", JStr "success")].

(** A handler that does nothing. *)
Definition silent (_ : unit) (_ : json) (w : unit) : outcome unit := Done w.

(** A connection that was opened, authenticated, and asked for
    [nifty_quote]. *)
Definition subscribed : manager unit :=
  (WS.subscribe nifty_quote
     (WS.on_message silent (Some auth_success)
        (WS.on_open (WS.connect "ws://localhost:8765" "key" WS.init).2) tt).1).2.

(** The states an engine goes through: it is created, initialised, and
    from then on fed quote and depth ticks by the connection, whose own
    state changes in between.  The two handlers are registered with the
    connection by [initialize], so ticks arrive only afterwards. *)
Inductive reachable `{PyText} : chain -> Prop :=
| reach_new (underlying : string) (expiry : expiry_value)
    (wsm : option (manager chain_handler)) :
    reachable (new_chain underlying expiry wsm)
| reach_initialize (client : api) (s : chain) :
    reachable s -> reachable (initialize client s).2
| reach_quote (data : json) (s : chain) :
    reachable s -> initialized s = true ->
    reachable (state_of (handle_quote_update data s))
| reach_depth (data : json) (s : chain) :
    reachable s -> initialized s = true ->
    reachable (state_of (handle_depth_update data s))
| reach_connection (wsm : option (manager chain_handler)) (s : chain) :
    reachable s -> reachable (with_websocket_manager wsm s)
| reach_start_monitoring (s : chain) :
    reachable s -> reachable (start_monitoring s)
| reach_stop_monitoring (s : chain) :
    reachable s -> reachable (stop_monitoring s).

(** The grid is empty or one window of 41 strikes, every row sits under
    its own strike with the symbols built from it, and the routing table
    sends both symbols of every row to that row. *)
Record window_ok (s : chain) : Prop := {
  ok_step : 0 < strike_step s;
  ok_atm : (strike_step s | atm_strike s);
  ok_window :
    option_data s = []
    \/ exists base,
         (strike_step s | base)
         /\ dict_keys (option_data s)
            = map (fun i => base + i * strike_step s) (py_range (-20) 21);
  ok_rows :
    forall k r, In (k, r) (option_data s) ->
      strike r = k
      /\ ce_symbol r = construct_option_symbol s k CE
      /\ pe_symbol r = construct_option_symbol s k PE;
  ok_routing :
    forall k r t, In (k, r) (option_data s) ->
      subscription_map s !! construct_option_symbol s k t = Some (k, t)
}.

(** Every row carries the position and the tag that
    [update_option_tags] would give it now. *)
Definition tags_ok (s : chain) : Prop :=
  forall k r, In (k, r) (option_data s) ->
    position r = get_strike_position s k
    /\ tag r = get_position_tag (position r).

(** The invariant of the reachable states; an engine that has not been
    initialised has no rows. *)
Definition invariant (s : chain) : Prop :=
  window_ok s /\ tags_ok s /\ (initialized s = false -> option_data s = []).

(** The rows whose tag is ATM. *)
Definition atm_rows (s : chain) : list (Z * row) :=
  List.filter (fun kr => String.eqb (tag kr.2) "ATM") (option_data s).

(** [nifty] after a quote of 30000 for the underlying. *)
Definition nifty_at_30000 : chain :=
  state_of (@handle_quote_update plain_text
              (JObj [("symbol", JStr "NIFTY"); ("ltp", JNum 30000)]) nifty).

(** The value of a key of a JSON object, [None] of Python when the key is
    missing. *)
Definition field (kvs : list (string * json)) (k : string) : json :=
  match assoc k kvs with
  | Some v => v
  | None => JNull
  end.

(** The subscription dict [subscribe_batch] builds for an instrument. *)
Definition batch_entry (mode : string) (inst : subscription) : subscription :=
  [("symbol", WS.sub_get "symbol" inst);
   ("exchange", WS.sub_get "exchange" inst);
   ("mode", Some mode)].

(** The key is missing from the object, or its value is falsy. *)
Definition falsy_field (kvs : list (string * json)) (k : string) : Prop :=
  match assoc k kvs with
  | None => True
  | Some v => truthy v = false
  end.

(** The symbol of one side of a row. *)
Definition symbol_of (t : option_type) (r : row) : string :=
  match t with
  | CE => ce_symbol r
  | PE => pe_symbol r
  end.

(** The quote of one side of a row. *)
Definition side_of (t : option_type) (r : row) : side_quote :=
  match t with
  | CE => ce_data r
  | PE => pe_data r
  end.

(** The row with one side replaced, as [update_option_depth] does. *)
Definition with_side (t : option_type) (q : side_quote) (r : row) : row :=
  match t with
  | CE => with_ce_data q r
  | PE => with_pe_data q r
  end.

(** The spread of a quote is ask - bid when both are positive and 0
    otherwise. *)
Definition spread_ok (q : side_quote) : Prop :=
  spread q
  = if (if Qlt_le_dec 0 (bid q) then true else false)
       && (if Qlt_le_dec 0 (ask q) then true else false)
    then (ask q - bid q)%Q else 0%Q.

(** What [handle_quote_update] does once the price is stored and the ATM
    strike recomputed: [old_atm] is the strike before the tick. *)
Definition after_atm_change (old_atm : Z) (mid : chain) : chain :=
  if negb (Z.eqb old_atm (atm_strike mid)) then
    match option_data mid with
    | [] =>
        let g := generate_strikes mid in
        match websocket_manager g with
        | Some m => if authenticated m then batch_subscribe_options g else g
        | None => g
        end
    | _ :: _ => update_option_tags mid
    end
  else mid.

(** Two entries of the grid with the same key, strike, symbols and side
    quotes; the tag and the position may differ. *)
Definition same_quotes (old new : Z * row) : Prop :=
  new.1 = old.1
  /\ strike new.2 = strike old.2
  /\ ce_symbol new.2 = ce_symbol old.2
  /\ pe_symbol new.2 = pe_symbol old.2
  /\ ce_data new.2 = ce_data old.2
  /\ pe_data new.2 = pe_data old.2.

(** An engine whose [initialize] found the REST client down. *)
Definition nifty_without_quote : chain :=
  (initialize unreachable_api
     (new_chain "NIFTY" (ExpiryStr "28-AUG-25") None)).2.

(** Every entry of the routing table names a strike of the grid, under
    the symbol built from that strike and the side. *)
Definition routing_sound (s : chain) : Prop :=
  forall sym k t,
    subscription_map s !! sym = Some (k, t) ->
    In k (dict_keys (option_data s))
    /\ sym = construct_option_symbol s k t.

(** What identifies the contracts of a grid entry: the key, the strike
    and the two symbols. *)
Definition cell (kr : Z * row) : Z * Z * string * string :=
  (kr.1, strike kr.2, ce_symbol kr.2, pe_symbol kr.2).

(** The states an engine goes through from the state [s] on. *)
Inductive evolves `{PyText} (s : chain) : chain -> Prop :=
| ev_here : evolves s s
| ev_initialize (client : api) (s' : chain) :
    evolves s s' -> evolves s (initialize client s').2
| ev_quote (data : json) (s' : chain) :
    evolves s s' -> initialized s' = true ->
    evolves s (state_of (handle_quote_update data s'))
| ev_depth (data : json) (s' : chain) :
    evolves s s' -> initialized s' = true ->
    evolves s (state_of (handle_depth_update data s'))
| ev_connection (wsm : option (manager chain_handler)) (s' : chain) :
    evolves s s' -> evolves s (with_websocket_manager wsm s')
| ev_start_monitoring (s' : chain) :
    evolves s s' -> evolves s (start_monitoring s')
| ev_stop_monitoring (s' : chain) :
    evolves s s' -> evolves s (stop_monitoring s').

(** * Properties *)

(** ** Strings and decimal numerals *)

Lemma py_str_inj (a b : Z) : py_str a = py_str b -> a = b.
Proof.
  unfold py_str. intros E.
  assert (N : forall z, Z.to_int z <> Decimal.Pos Decimal.Nil
                        /\ Z.to_int z <> Decimal.Neg Decimal.Nil).
  { intros [|p|p]; simpl; split; try discriminate;
      intros [= E']; exact (Unsigned.to_uint_nonnil p E'). }
  apply to_int_inj.
  destruct (N a) as [Na1 Na2], (N b) as [Nb1 Nb2].
  pose proof (NilZero.isi _ Na1 Na2) as Ia.
  pose proof (NilZero.isi _ Nb1 Nb2) as Ib.
  rewrite E in Ia. rewrite Ia in Ib. congruence.
Qed.

Lemma all_digits_uint (d : Decimal.uint) :
  all_digits (NilEmpty.string_of_uint d) = true.
Proof. induction d; simpl; auto. Qed.

Lemma isdigit_uint (d : Decimal.uint) :
  isdigit (NilZero.string_of_uint d) = true.
Proof.
  destruct d; try reflexivity;
    unfold isdigit, NilZero.string_of_uint;
    simpl; apply all_digits_uint.
Qed.

(** [str] of an integer is a run of digits, after a minus sign when the
    integer is negative: it has no fraction part. *)
Lemma py_str_digits (z : Z) :
  exists ds, isdigit ds = true
             /\ py_str z = if Z.ltb z 0 then String "-" ds else ds.
Proof.
  unfold py_str. destruct z as [|p|p]; simpl.
  - exists "0". split; reflexivity.
  - exists (NilZero.string_of_uint (Pos.to_uint p)).
    split; [apply isdigit_uint | reflexivity].
  - exists (NilZero.string_of_uint (Pos.to_uint p)).
    split; [apply isdigit_uint | reflexivity].
Qed.

Lemma append_cons (x : ascii) (a b : string) :
  String x a ++ b = String x (a ++ b).
Proof. reflexivity. Qed.

Lemma split_dash_no_dash (s : string) :
  has_dash s = false -> split_dash s = [s].
Proof.
  induction s as [|c s IH]; simpl; [reflexivity|].
  destruct (Ascii.eqb c "-"); simpl; [discriminate|].
  intros Hs. rewrite (IH Hs). reflexivity.
Qed.

Lemma split_dash_app (a b : string) :
  has_dash a = false ->
  split_dash (a ++ String "-" b) = a :: split_dash b.
Proof.
  induction a as [|c a IH]; simpl; [reflexivity|].
  destruct (Ascii.eqb c "-"); simpl; [discriminate|].
  intros Ha. rewrite (IH Ha). reflexivity.
Qed.

Lemma append_assoc (a b c : string) : (a ++ b) ++ c = a ++ (b ++ c).
Proof.
  induction a as [|x a IH]; [reflexivity|].
  now rewrite !append_cons, IH.
Qed.

Lemma append_inv_head (a b c : string) : a ++ b = a ++ c -> b = c.
Proof.
  induction a as [|x a IH]; [auto|].
  rewrite !append_cons. intros [= E]. auto.
Qed.

Lemma append_length (a b : string) :
  String.length (a ++ b) = (String.length a + String.length b)%nat.
Proof.
  induction a as [|x a IH]; [reflexivity|].
  rewrite append_cons. simpl. now rewrite IH.
Qed.

Lemma append_inv_same_length (a b c d : string) :
  String.length a = String.length b ->
  a ++ c = b ++ d -> a = b /\ c = d.
Proof.
  revert b. induction a as [|x a IH]; intros [|y b]; simpl;
    try discriminate; auto.
  rewrite !append_cons. intros [= L] [= -> E].
  destruct (IH b L E) as [-> ->]. auto.
Qed.

Lemma append_inv_tail2 (a b : string) (t u : option_type) :
  a ++ type_name t = b ++ type_name u -> a = b /\ t = u.
Proof.
  intros E.
  assert (L : String.length a = String.length b).
  { apply (f_equal String.length) in E. rewrite !append_length in E.
    destruct t, u; simpl in E; lia. }
  destruct (append_inv_same_length _ _ _ _ L E) as [-> E'].
  split; [reflexivity|]. destruct t, u; simpl in E'; congruence.
Qed.

(** The symbol determines the strike and the option type. *)
Lemma construct_option_symbol_inj (self : chain) (k1 k2 : Z)
    (t1 t2 : option_type) :
  construct_option_symbol self k1 t1 = construct_option_symbol self k2 t2 ->
  k1 = k2 /\ t1 = t2.
Proof.
  unfold construct_option_symbol. intros E.
  do 3 apply append_inv_head in E.
  apply append_inv_tail2 in E. destruct E as [E ->].
  split; [now apply py_str_inj | reflexivity].
Qed.

Lemma upper_ascii_idem (c : ascii) : upper_ascii (upper_ascii c) = upper_ascii c.
Proof. destruct c as [[] [] [] [] [] [] [] []]; vm_compute; reflexivity. Qed.

Lemma upper_idem (s : string) : upper (upper s) = upper s.
Proof.
  induction s as [|c s IH]; simpl; [reflexivity|].
  now rewrite upper_ascii_idem, IH.
Qed.

Lemma upper_substring (n m : nat) (s : string) :
  upper (String.substring n m s) = String.substring n m (upper s).
Proof.
  revert n m. induction s as [|c s IH]; intros [|n] [|m]; simpl;
    try reflexivity; try apply IH.
  now rewrite IH.
Qed.

Lemma substring_length_3 (s : string) :
  (3 <= String.length s)%nat -> String.length (String.substring 0 3 s) = 3%nat.
Proof.
  destruct s as [|a [|b [|c s]]]; simpl; try lia.
  destruct s; reflexivity.
Qed.

Lemma upper_length (s : string) : String.length (upper s) = String.length s.
Proof. induction s as [|c s IH]; simpl; [reflexivity | now rewrite IH]. Qed.

Lemma digit_not_sign (c : ascii) :
  is_digit c = true -> Ascii.eqb c "+" || Ascii.eqb c "-" = false.
Proof. destruct c as [[] [] [] [] [] [] [] []]; vm_compute; congruence. Qed.

Lemma zfill2_digits (day : string) :
  isdigit day = true -> (String.length day <= 2)%nat ->
  String.length (zfill2 day) = 2%nat
  /\ isdigit (zfill2 day) = true
  /\ (String.length day = 1%nat -> zfill2 day = String "0" day).
Proof.
  destruct day as [|c [|d [|e r]]]; simpl; try discriminate; try lia.
  - unfold isdigit. simpl. rewrite andb_true_r. intros Hc _.
    rewrite (digit_not_sign c Hc). simpl. rewrite Hc. auto.
  - intros Hd _. repeat split; [exact Hd | discriminate].
Qed.

Lemma upper_ascii_cases (c : ascii) :
  is_lower (upper_ascii c) = false
  /\ (upper_ascii c = c
      \/ (is_lower c = true
          /\ nat_of_ascii c = (nat_of_ascii (upper_ascii c) + 32)%nat)).
Proof.
  destruct c as [[] [] [] [] [] [] [] []]; vm_compute;
    (split; [reflexivity|]);
    first [left; reflexivity | right; split; reflexivity].
Qed.

Lemma get_upper (i : nat) (s : string) :
  String.get i (upper s) = option_map upper_ascii (String.get i s).
Proof.
  revert i. induction s as [|c s IH]; intros [|i]; cbn; auto.
Qed.

Lemma split_dash_expiry (day month suffix : string) :
  has_dash day = false -> has_dash month = false ->
  suffix = "" \/ (exists year, suffix = String "-" year) ->
  exists more,
    split_dash (day ++ String "-" (month ++ suffix)) = day :: month :: more.
Proof.
  intros Hd Hm Hs. rewrite (split_dash_app _ _ Hd).
  destruct Hs as [-> | [year ->]].
  - exists []. f_equal.
    replace (month ++ "") with month.
    + now apply split_dash_no_dash.
    + clear. induction month as [|c m IH]; [reflexivity|].
      rewrite append_cons. now rewrite <- IH.
  - exists (split_dash year). now rewrite (split_dash_app _ _ Hm).
Qed.

(** C8. Symbol construction is the exact concatenation of the
    underlying, the expiry day and month, the year 25, the strike and the
    option type.  For an expiry string day-month or day-month-year the
    day is padded with a zero to two digits and the month is the first
    three letters in upper case: no character of it is a lower-case
    letter, and each is the character of the expiry at the same place,
    or the capital of that character when that is a lower-case letter
    (32 code points below it).  The integer strike is written as its
    digits, with no fraction part.  NIFTY, 28-AUG-25, 24600, CE gives
    NIFTY28AUG2524600CE. *)
Theorem construct_option_symbol_exact
    (self : chain) (day month suffix : string) (strike : Z) (t : option_type) :
  has_dash day = false ->
  has_dash month = false ->
  suffix = "" \/ (exists year, suffix = String "-" year) ->
  expiry self = ExpiryStr (day ++ String "-" (month ++ suffix)) ->
  let mon := String.substring 0 3 (upper month) in
  construct_option_symbol self strike t
    = underlying self ++ zfill2 day ++ mon ++ "25" ++ py_str strike
        ++ type_name t
  /\ (isdigit day = true -> (String.length day <= 2)%nat ->
      String.length (zfill2 day) = 2%nat
      /\ isdigit (zfill2 day) = true
      /\ (String.length day = 1%nat -> zfill2 day = String "0" day))
  /\ ((3 <= String.length month)%nat ->
      String.length mon = 3%nat /\ upper mon = mon)
  /\ (forall (i : nat) (c : ascii),
        String.get i mon = Some c ->
        (i < 3)%nat
        /\ is_lower c = false
        /\ exists c0,
             String.get i month = Some c0
             /\ (c = c0
                 \/ (is_lower c0 = true
                     /\ nat_of_ascii c0 = (nat_of_ascii c + 32)%nat)))
  /\ (exists ds, isdigit ds = true
                 /\ py_str strike = if Z.ltb strike 0 then String "-" ds else ds)
  /\ construct_option_symbol
       (new_chain "NIFTY" (ExpiryStr "28-AUG-25") None) 24600 CE
     = "NIFTY28AUG2524600CE".
Proof.
  intros Hd Hm Hs He mon.
  split; [|split; [|split; [|split; [|split]]]].
  - unfold construct_option_symbol, expiry_formatted. rewrite He.
    destruct (split_dash_expiry day month suffix Hd Hm Hs) as [more ->].
    fold mon. now rewrite !append_assoc.
  - apply zfill2_digits.
  - intros L. subst mon. split.
    + apply substring_length_3. now rewrite upper_length.
    + rewrite upper_substring. now rewrite upper_idem.
  - intros i c G. subst mon.
    destruct (Nat.lt_ge_cases i 3) as [Li|Ge].
    + split; [exact Li|].
      rewrite substring_correct1 in G by exact Li.
      rewrite Nat.add_0_r, get_upper in G.
      destruct (String.get i month) as [c0|]; [|discriminate].
      cbn in G. injection G as <-.
      destruct (upper_ascii_cases c0) as [Nl Cs].
      split; [exact Nl|]. exists c0. split; [reflexivity|].
      destruct Cs as [E|[Lc En]]; [left; exact E | right; split; assumption].
    + rewrite substring_correct2 in G by exact Ge. discriminate.
  - apply py_str_digits.
  - reflexivity.
Qed.

Lemma construct_option_symbol_exact_witness :
  construct_option_symbol
    (new_chain "NIFTY" (ExpiryStr "5-aug-25") None) 24600 PE
  = "NIFTY" ++ "05" ++ "AUG" ++ "25" ++ "24600" ++ "PE".
Proof.
  refine (proj1 (construct_option_symbol_exact
                   (new_chain "NIFTY" (ExpiryStr "5-aug-25") None)
                   "5" "aug" "-25" 24600 PE _ _ _ _)).
  - reflexivity.
  - reflexivity.
  - right. exists "25". reflexivity.
  - reflexivity.
Defined.

(** ** Quote ticks without a price *)

(** C10. A quote tick whose ltp is missing, zero or otherwise falsy
    leaves the whole engine state as it was, whatever its symbol: the
    bid and the ask of the underlying are not written either, and nothing
    is raised. *)
Theorem handle_quote_update_no_ltp `{PyText}
    (self : chain) (kvs : list (string * json)) :
  ltp_falsy kvs ->
  handle_quote_update (JObj kvs) self = Done self
  /\ underlying_bid (state_of (handle_quote_update (JObj kvs) self))
     = underlying_bid self
  /\ underlying_ask (state_of (handle_quote_update (JObj kvs) self))
     = underlying_ask self.
Proof.
  intros F.
  assert (E : handle_quote_update (JObj kvs) self = Done self).
  { unfold handle_quote_update, py_get_d.
    destruct (negb (py_eq_str _ (underlying self))); [reflexivity|].
    unfold ltp_falsy in F. destruct (assoc "ltp" kvs) as [v|].
    - now rewrite F.
    - reflexivity. }
  rewrite E. auto.
Qed.

Lemma handle_quote_update_no_ltp_witness :
  @handle_quote_update plain_text
    (JObj [("symbol", JStr "NIFTY"); ("ltp", JNum 0);
           ("bid", JNum 24500); ("ask", JNum 24501)])
    (new_chain "NIFTY" (ExpiryStr "28-AUG-25") None)
  = Done (new_chain "NIFTY" (ExpiryStr "28-AUG-25") None).
Proof.
  refine (proj1 (@handle_quote_update_no_ltp plain_text _ _ _)).
  reflexivity.
Defined.

(** ** Rounding to the nearest integer and to binary64 *)

Lemma py_round_near (q : Q) :
  (q - (1 # 2) <= inject_Z (py_round q) <= q + (1 # 2))%Q.
Proof.
  unfold py_round.
  pose proof (Qfloor_le q) as Lo. pose proof (Qlt_floor q) as Hi.
  rewrite inject_Z_plus in Hi. change (inject_Z 1) with 1%Q in Hi.
  destruct (Qcompare (q - inject_Z (Qfloor q)) (1 # 2)) eqn:C.
  - apply Qeq_alt in C.
    destruct (Z.even (Qfloor q)); rewrite ?inject_Z_plus;
      change (inject_Z 1) with 1%Q; lra.
  - apply Qlt_alt in C. lra.
  - apply Qgt_alt in C. rewrite inject_Z_plus.
    change (inject_Z 1) with 1%Q. lra.
Qed.

Lemma py_round_nonneg (q : Q) : (0 <= q)%Q -> 0 <= py_round q.
Proof.
  intros Hq. destruct (py_round_near q) as [Lo _].
  destruct (Z_lt_le_dec (py_round q) 0) as [N|P]; [|exact P].
  exfalso. assert (L : (inject_Z (py_round q) <= inject_Z (-1))%Q)
    by (rewrite <- Zle_Qle; lia).
  change (inject_Z (-1)) with (-1 # 1)%Q in L. lra.
Qed.

Lemma pow2_pos (e : Z) : (0 < pow2 e)%Q.
Proof.
  unfold pow2.
  assert (A : 0 < 2 ^ Z.max 0 e) by (apply Z.pow_pos_nonneg; lia).
  assert (B : 0 < 2 ^ Z.max 0 (- e)) by (apply Z.pow_pos_nonneg; lia).
  apply Qlt_shift_div_l.
  - change 0%Q with (inject_Z 0). now rewrite <- Zlt_Qlt.
  - rewrite Qmult_0_l. change 0%Q with (inject_Z 0). now rewrite <- Zlt_Qlt.
Qed.

(** [scaled a b e] is a / b divided by 2^e. *)
Lemma scaled_pow2 (a : Z) (b : positive) (e : Z) :
  (scaled a (Z.pos b) e * pow2 e == a # b)%Q.
Proof.
  unfold scaled, pow2.
  assert (A : 0 < 2 ^ Z.max 0 e) by (apply Z.pow_pos_nonneg; lia).
  assert (B : 0 < 2 ^ Z.max 0 (- e)) by (apply Z.pow_pos_nonneg; lia).
  set (dn := 2 ^ Z.max 0 e) in *. set (up := 2 ^ Z.max 0 (- e)) in *.
  rewrite (Qmake_Qdiv (a * up)), (Qmake_Qdiv a).
  rewrite Z2Pos.id by lia. rewrite !inject_Z_mult.
  assert (Ndn : ~ (inject_Z dn == 0)%Q).
  { change 0%Q with (inject_Z 0). rewrite inject_Z_injective. lia. }
  assert (Nup : ~ (inject_Z up == 0)%Q).
  { change 0%Q with (inject_Z 0). rewrite inject_Z_injective. lia. }
  assert (Nb : ~ (inject_Z (Z.pos b) == 0)%Q).
  { change 0%Q with (inject_Z 0). rewrite inject_Z_injective. lia. }
  field. auto.
Qed.

Lemma scaled_le (a b e c : Z) :
  0 < b -> c * (b * 2 ^ Z.max 0 e) <= a * 2 ^ Z.max 0 (- e) ->
  (inject_Z c <= scaled a b e)%Q.
Proof.
  intros Hb L. unfold scaled, Qle. cbn [Qnum Qden inject_Z].
  assert (A : 0 < 2 ^ Z.max 0 e) by (apply Z.pow_pos_nonneg; lia).
  rewrite Z2Pos.id by nia. rewrite Z.mul_1_r. exact L.
Qed.

Lemma le_scaled (a b e c : Z) :
  0 < b -> (inject_Z c <= scaled a b e)%Q ->
  c * (b * 2 ^ Z.max 0 e) <= a * 2 ^ Z.max 0 (- e).
Proof.
  intros Hb. unfold scaled, Qle. cbn [Qnum Qden inject_Z].
  assert (A : 0 < 2 ^ Z.max 0 e) by (apply Z.pow_pos_nonneg; lia).
  rewrite Z2Pos.id by nia. rewrite Z.mul_1_r. auto.
Qed.

Lemma pow2_step (e : Z) :
  2 ^ Z.max 0 (- (e + 1)) * 2 * 2 ^ Z.max 0 e
  = 2 ^ Z.max 0 (- e) * 2 ^ Z.max 0 (e + 1).
Proof.
  destruct (Z_lt_le_dec e 0) as [N|P].
  - replace (Z.max 0 e) with 0 by lia.
    replace (Z.max 0 (e + 1)) with 0 by lia.
    replace (Z.max 0 (- e)) with (Z.max 0 (- (e + 1)) + 1) by lia.
    rewrite Z.pow_add_r by lia.
    change (2 ^ 0) with 1. change (2 ^ 1) with 2.
    generalize (2 ^ Z.max 0 (- (e + 1))). intros x. ring.
  - replace (Z.max 0 (- e)) with 0 by lia.
    replace (Z.max 0 (- (e + 1))) with 0 by lia.
    replace (Z.max 0 (e + 1)) with (Z.max 0 e + 1) by lia.
    rewrite Z.pow_add_r by lia.
    change (2 ^ 0) with 1. change (2 ^ 1) with 2.
    generalize (2 ^ Z.max 0 e). intros x. ring.
Qed.

(** With the exponent taken from the bit lengths, the scaled value is at
    least 2^52. *)
Lemma scaled_first (a b : Z) :
  0 < a -> 0 < b ->
  (inject_Z (2 ^ 52) <= scaled a b (Z.log2 a - Z.log2 b - 53))%Q.
Proof.
  intros Ha Hb. apply scaled_le; [exact Hb|].
  destruct (Z.log2_spec a Ha) as [La _], (Z.log2_spec b Hb) as [_ Ub].
  pose proof (Z.log2_nonneg a) as Na. pose proof (Z.log2_nonneg b) as Nb.
  set (la := Z.log2 a) in *. set (lb := Z.log2 b) in *.
  rewrite Z.pow_succ_r in Ub by lia.
  destruct (Z_lt_le_dec (la - lb - 53) 0) as [N|P].
  - replace (Z.max 0 (la - lb - 53)) with 0 by lia.
    replace (Z.max 0 (- (la - lb - 53))) with (lb + 53 - la) by lia.
    assert (E : 2 ^ la * 2 ^ (lb + 53 - la) = 2 ^ 53 * 2 ^ lb).
    { rewrite <- !Z.pow_add_r by lia. f_equal. lia. }
    assert (0 < 2 ^ (lb + 53 - la)) by (apply Z.pow_pos_nonneg; lia).
    change (2 ^ 0) with 1. change (2 ^ 52) with 4503599627370496.
    change (2 ^ 53) with 9007199254740992 in E. nia.
  - replace (Z.max 0 (la - lb - 53)) with (la - lb - 53) by lia.
    replace (Z.max 0 (- (la - lb - 53))) with 0 by lia.
    assert (E : 2 ^ 53 * 2 ^ lb * 2 ^ (la - lb - 53) = 2 ^ la).
    { rewrite <- !Z.pow_add_r by lia. f_equal. lia. }
    assert (0 < 2 ^ (la - lb - 53)) by (apply Z.pow_pos_nonneg; lia).
    change (2 ^ 0) with 1. change (2 ^ 52) with 4503599627370496.
    change (2 ^ 53) with 9007199254740992 in E. nia.
Qed.

Lemma scaled_next (a b e : Z) :
  0 < a -> 0 < b ->
  (inject_Z (2 ^ 53) <= scaled a b e)%Q ->
  (inject_Z (2 ^ 52) <= scaled a b (e + 1))%Q.
Proof.
  intros Ha Hb L. apply le_scaled in L; [|exact Hb].
  apply scaled_le; [exact Hb|].
  pose proof (pow2_step e) as S.
  assert (A : 0 < 2 ^ Z.max 0 e) by (apply Z.pow_pos_nonneg; lia).
  assert (B : 0 < 2 ^ Z.max 0 (- e)) by (apply Z.pow_pos_nonneg; lia).
  assert (C : 0 < 2 ^ Z.max 0 (e + 1)) by (apply Z.pow_pos_nonneg; lia).
  assert (D : 0 < 2 ^ Z.max 0 (- (e + 1))) by (apply Z.pow_pos_nonneg; lia).
  set (dn0 := 2 ^ Z.max 0 e) in *. set (up0 := 2 ^ Z.max 0 (- e)) in *.
  set (dn1 := 2 ^ Z.max 0 (e + 1)) in *.
  set (up1 := 2 ^ Z.max 0 (- (e + 1))) in *.
  change (2 ^ 52) with 4503599627370496.
  change (2 ^ 53) with 9007199254740992 in L.
  apply (Z.mul_le_mono_pos_r _ _ up0); [exact B|].
  replace (4503599627370496 * (b * dn1) * up0)
    with (4503599627370496 * b * (up0 * dn1)) by ring.
  rewrite <- S. nia.
Qed.

(** Rounding to binary64 changes a number that is not negative by at
    most the unit roundoff, relatively. *)
Lemma double_of_near (q : Q) :
  (0 <= q)%Q ->
  (q * (1 - unit_roundoff) <= double_of q <= q * (1 + unit_roundoff))%Q.
Proof.
  intros Hq. destruct q as [a b]. unfold double_of. cbn [Qnum Qden].
  assert (Ha : 0 <= a) by (unfold Qle in Hq; cbn in Hq; lia).
  destruct (Z.eqb_spec (Z.abs a) 0) as [Z0|N0].
  { assert (E : (a # b == 0)%Q) by (unfold Qeq; cbn; lia).
    rewrite E. unfold unit_roundoff. lra. }
  assert (Pa : 0 < a) by lia.
  rewrite (Z.abs_eq a) by lia. rewrite (Z.sgn_pos a) by lia.
  rewrite Z.mul_1_l.
  set (e0 := Z.log2 a - Z.log2 (Z.pos b) - 53).
  set (e := if Qlt_le_dec (scaled a (Z.pos b) e0) (inject_Z (2 ^ 53))
            then e0 else e0 + 1).
  assert (S : (inject_Z (2 ^ 52) <= scaled a (Z.pos b) e)%Q).
  { subst e. destruct (Qlt_le_dec (scaled a (Z.pos b) e0) (inject_Z (2 ^ 53))).
    - apply scaled_first; lia.
    - apply scaled_next; [lia | lia | assumption]. }
  pose proof (py_round_near (scaled a (Z.pos b) e)) as [Lo Hi].
  pose proof (pow2_pos e) as Pp.
  pose proof (scaled_pow2 a b e) as Eq.
  set (s := scaled a (Z.pos b) e) in *.
  set (m := inject_Z (py_round s)) in *.
  set (P := pow2 e) in *.
  assert (A : ((s - (1 # 2)) * P <= m * P)%Q)
    by (apply Qmult_le_compat_r; [exact Lo | lra]).
  assert (B : (m * P <= (s + (1 # 2)) * P)%Q)
    by (apply Qmult_le_compat_r; [exact Hi | lra]).
  assert (C : (inject_Z (2 ^ 52) * P <= s * P)%Q)
    by (apply Qmult_le_compat_r; [exact S | lra]).
  change (inject_Z (2 ^ 52)) with (4503599627370496 # 1) in C.
  clearbody m. clearbody s. clearbody P.
  rewrite <- Eq. unfold unit_roundoff. split; lra.
Qed.

Lemma double_of_nonneg (q : Q) : (0 <= q)%Q -> (0 <= double_of q)%Q.
Proof.
  intros Hq. destruct (double_of_near q Hq) as [Lo _].
  unfold unit_roundoff in Lo.
  assert (L : (0 <= q * (1 - (1 # 9007199254740992)))%Q).
  { apply Qmult_le_0_compat; [exact Hq | lra]. }
  lra.
Qed.

(** ** Market metrics *)

Lemma py_round2_0 : (py_round2 0 == 0)%Q.
Proof. reflexivity. Qed.

Lemma fold_add_shift (l : list Z) (a : Z) :
  fold_left Z.add l a = a + fold_left Z.add l 0.
Proof.
  revert a. induction l as [|x l IH]; intros a; cbn [fold_left]; [lia|].
  rewrite (IH (a + x)), (IH (0 + x)). lia.
Qed.

Lemma py_sum_cons (x : Z) (l : list Z) : py_sum (x :: l) = x + py_sum l.
Proof. unfold py_sum. cbn. apply fold_add_shift. Qed.

Lemma py_sum_nonneg {A} (f : A -> Z) (l : list A) :
  (forall x, In x l -> 0 <= f x) -> 0 <= py_sum (map f l).
Proof.
  induction l as [|x l IH]; intros N.
  - cbn. lia.
  - cbn [map]. rewrite py_sum_cons.
    assert (0 <= f x) by (apply N; left; reflexivity).
    assert (0 <= py_sum (map f l)) by (apply IH; intros y I; apply N; right; exact I).
    lia.
Qed.

(** C9.  With open interest that is not negative, as in the data
    model, the totals are sums over all rows, the total volume is the
    sum of the call and put volumes, the ratio is 0 whenever the total
    call open interest is 0, whatever the put total, and otherwise it is
    round(total put OI / total call OI, 2) as Python computes it on
    floats: the quotient is the float x nearest to the exact quotient,
    at most one unit roundoff away from it; x is rounded to the two-place
    decimal n/100 nearest to it, ties to the even digit, so at most
    0.005 away; and the ratio reported is the float nearest to n/100. *)
Theorem calculate_market_metrics_pcr (self : chain) :
  (forall k r, In (k, r) (option_data self) ->
     0 <= oi (ce_data r) /\ 0 <= oi (pe_data r)) ->
  let m := calculate_market_metrics self in
  let rows := dict_values (option_data self) in
  let quotient :=
    (inject_Z (total_pe_oi m) / inject_Z (total_ce_oi m))%Q in
  let x := double_of quotient in
  let n := py_round (x * 100) in
  total_ce_volume m = py_sum (map (fun opt => volume (ce_data opt)) rows)
  /\ total_pe_volume m = py_sum (map (fun opt => volume (pe_data opt)) rows)
  /\ total_ce_oi m = py_sum (map (fun opt => oi (ce_data opt)) rows)
  /\ total_pe_oi m = py_sum (map (fun opt => oi (pe_data opt)) rows)
  /\ total_volume m = total_ce_volume m + total_pe_volume m
  /\ (total_ce_oi m = 0 -> (pcr m == 0)%Q)
  /\ (total_ce_oi m <> 0 ->
      pcr m = py_round2 (py_truediv (total_pe_oi m) (total_ce_oi m))
      /\ pcr m = double_of (inject_Z n / 100)
      /\ (quotient * (1 - unit_roundoff) <= x
          <= quotient * (1 + unit_roundoff))%Q
      /\ (x - (1 # 200) <= inject_Z n / 100 <= x + (1 # 200))%Q
      /\ (inject_Z n / 100 * (1 - unit_roundoff) <= pcr m
          <= inject_Z n / 100 * (1 + unit_roundoff))%Q).
Proof.
  intros Hoi. cbv zeta. unfold calculate_market_metrics. cbn [total_ce_volume
    total_pe_volume total_ce_oi total_pe_oi total_volume pcr].
  repeat (split; [reflexivity|]).
  set (ce := py_sum (map (fun opt => oi (ce_data opt))
                         (dict_values (option_data self)))).
  set (pe := py_sum (map (fun opt => oi (pe_data opt))
                         (dict_values (option_data self)))).
  assert (Rows : forall r, In r (dict_values (option_data self)) ->
            0 <= oi (ce_data r) /\ 0 <= oi (pe_data r)).
  { intros r I. unfold dict_values in I. apply in_map_iff in I.
    destruct I as ([k r0] & <- & I). exact (Hoi k r0 I). }
  assert (Nce : 0 <= ce).
  { apply py_sum_nonneg. intros r I. apply (Rows r I). }
  assert (Npe : 0 <= pe).
  { apply py_sum_nonneg. intros r I. apply (Rows r I). }
  split.
  - intros ->. cbn [Z.ltb Z.compare]. apply py_round2_0.
  - intros Nz. assert (Pce : 0 < ce) by lia.
    rewrite (proj2 (Z.ltb_lt 0 ce) Pce).
    assert (Qce : (0 < inject_Z ce)%Q).
    { change 0%Q with (inject_Z 0). now rewrite <- Zlt_Qlt. }
    assert (Qpe : (0 <= inject_Z pe)%Q).
    { change 0%Q with (inject_Z 0). now rewrite <- Zle_Qle. }
    assert (Nq : (0 <= inject_Z pe / inject_Z ce)%Q).
    { apply Qle_shift_div_l; [exact Qce | now rewrite Qmult_0_l]. }
    pose proof (double_of_near _ Nq) as Hx.
    pose proof (double_of_nonneg _ Nq) as Nx.
    set (x := double_of (inject_Z pe / inject_Z ce)) in *.
    pose proof (py_round_near (x * 100)) as [Lo Hi].
    assert (Nn : 0 <= py_round (x * 100)).
    { apply py_round_nonneg.
      apply Qmult_le_0_compat; [exact Nx | discriminate]. }
    assert (Qn : (0 <= inject_Z (py_round (x * 100)) / 100)%Q).
    { apply Qle_shift_div_l; [reflexivity|]. rewrite Qmult_0_l.
      change 0%Q with (inject_Z 0). now rewrite <- Zle_Qle. }
    split; [reflexivity|]. split; [reflexivity|]. split; [exact Hx|].
    split.
    + unfold Qdiv. change (/ 100)%Q with (1 # 100)%Q.
      set (n := inject_Z (py_round (x * 100))) in *.
      clearbody n. clearbody x. split; lra.
    + unfold py_round2. fold x. apply (double_of_near _ Qn).
Qed.

Lemma calculate_market_metrics_pcr_witness :
  total_ce_oi (calculate_market_metrics nifty_with_oi) = 100000
  /\ total_pe_oi (calculate_market_metrics nifty_with_oi) = 2500
  /\ pcr (calculate_market_metrics nifty_with_oi) = double_of (3 # 100).
Proof.
  split; [reflexivity|]. split; [reflexivity|].
  refine (proj1 (proj2 (proj2 (proj2 (proj2 (proj2 (proj2
            (calculate_market_metrics_pcr nifty_with_oi _)))))) _)).
  - intros k r I.
    assert (F : forallb
                  (fun kr =>
                     Z.leb 0 (oi (ce_data kr.2)) && Z.leb 0 (oi (pe_data kr.2)))
                  (option_data nifty_with_oi) = true)
      by (vm_compute; reflexivity).
    rewrite forallb_forall in F. specialize (F (k, r) I). cbn [snd] in F.
    apply andb_true_iff in F. destruct F as [F1 F2].
    split; apply Z.leb_le; assumption.
  - vm_compute. discriminate.
Defined.

(** ** What the methods leave alone *)

Lemma same_grid_refl (s : chain) : same_grid s s.
Proof. repeat split. Qed.

Lemma same_grid_trans (a b c : chain) :
  same_grid a b -> same_grid b c -> same_grid a c.
Proof.
  unfold same_grid. intros (?&?&?&?&?&?) (?&?&?&?&?&?).
  repeat split; congruence.
Qed.

Ltac frame_cases :=
  repeat case_match; simplify_eq; cbn; repeat split; auto.

Lemma fetch_atm_same_grid (self : chain) : same_grid self (fetch_atm self).2.
Proof. unfold fetch_atm. frame_cases. Qed.

Lemma calculate_atm_same_grid (self : chain) :
  same_grid self (calculate_atm self).2.
Proof.
  unfold calculate_atm.
  pose proof (fetch_atm_same_grid self) as F.
  destruct (has_cached_ltp self) as [[|]|]; try apply same_grid_refl.
  - destruct (atm_for _ _); cbn; repeat split.
  - destruct (fetch_atm self) as [[a|e] s']; exact F.
Qed.

(** [calculate_atm] returns the strike it stored, or returns 0 and
    leaves the stored strike alone. *)
Lemma calculate_atm_result (self : chain) :
  atm_strike (calculate_atm self).2 = (calculate_atm self).1
  \/ ((calculate_atm self).1 = 0
      /\ atm_strike (calculate_atm self).2 = atm_strike self).
Proof.
  unfold calculate_atm, fetch_atm. frame_cases.
Qed.

Lemma subscribe_underlying_quote_frame (self : chain) :
  exists m, subscribe_underlying_quote self = with_websocket_manager m self.
Proof.
  unfold subscribe_underlying_quote.
  destruct (websocket_manager self) eqn:E; eauto.
  exists None. destruct self; cbn in *; now subst.
Qed.

Lemma batch_subscribe_options_frame (self : chain) :
  exists m, batch_subscribe_options self = with_websocket_manager m self.
Proof.
  unfold batch_subscribe_options.
  destruct (websocket_manager self) eqn:E; eauto.
  exists None. destruct self; cbn in *; now subst.
Qed.

Lemma setup_depth_subscriptions_frame (self : chain) :
  exists m, setup_depth_subscriptions self = with_websocket_manager m self.
Proof.
  unfold setup_depth_subscriptions.
  destruct (websocket_manager self) eqn:E.
  - destruct (subscribe_underlying_quote_frame
                (with_websocket_manager
                   (Some (WS.register_handler "quote" HandleQuoteUpdate
                            (WS.register_handler "depth" HandleDepthUpdate m)))
                   self)) as [m1 ->].
    destruct (batch_subscribe_options_frame
                (with_websocket_manager m1
                   (with_websocket_manager
                      (Some (WS.register_handler "quote" HandleQuoteUpdate
                               (WS.register_handler "depth" HandleDepthUpdate m)))
                      self))) as [m2 ->].
    exists m2. reflexivity.
  - exists None. destruct self; cbn in *; now subst.
Qed.

(** ** Initialisation without a quote *)

Lemma fetch_atm_unavailable (self : chain) (client : api) :
  api_client self = Some client ->
  (forall exchange, quote_unavailable (client (underlying self) exchange)) ->
  (fetch_atm self).1 = Raise AttributeError /\ False
  \/ (exists e, (fetch_atm self).1 = Raise e)
  \/ ((fetch_atm self).1 = Ok 0).
Proof.
  intros Hc Hq. unfold fetch_atm. rewrite Hc.
  match goal with |- context [client ?u ?x] => specialize (Hq x) end.
  inversion Hq as [e He | kvs Hs He | kvs data price Hs Hd Hl Hp He].
  - right. left. eauto.
  - right. right. cbn. unfold py_get, py_get_d.
    destruct (assoc "status" kvs) as [st|]; cbn.
    + now rewrite Hs.
    + reflexivity.
  - right. cbn. rewrite Hs. cbn. rewrite Hd. cbn. rewrite Hl. cbn.
    destruct (Qlt_le_dec 0 price) as [L|L].
    + exfalso. apply (Qlt_not_le _ _ L Hp).
    + right. reflexivity.
Qed.

Lemma fetch_atm_atm_strike (self : chain) :
  (forall a, (fetch_atm self).1 = Ok a ->
             atm_strike (fetch_atm self).2 = a
             \/ (a = 0 /\ atm_strike (fetch_atm self).2 = atm_strike self))
  /\ (forall e, (fetch_atm self).1 = Raise e
                -> atm_strike (fetch_atm self).2 = atm_strike self).
Proof.
  unfold fetch_atm.
  repeat case_match; simplify_eq; cbn; split; intros; simplify_eq; auto.
Qed.

(** C3, as the code has it.  With no cached price and no usable
    quote, [initialize] leaves the ATM strike at 0, creates no row and no
    routing entry, marks the engine initialised and returns True. *)
Theorem initialize_quote_unavailable (client : api) (self : chain) :
  initialized self = false ->
  has_cached_ltp self = Ok false ->
  atm_strike self = 0 ->
  option_data self = [] ->
  subscription_map self = ∅ ->
  (forall exchange, quote_unavailable (client (underlying self) exchange)) ->
  (initialize client self).1 = true
  /\ atm_strike (initialize client self).2 = 0
  /\ option_data (initialize client self).2 = []
  /\ subscription_map (initialize client self).2 = ∅
  /\ initialized (initialize client self).2 = true.
Proof.
  intros Hi Hl Ha Ho Hs Hq. unfold initialize. rewrite Hi. cbn [fst snd].
  set (s1 := with_api_client (Some client) self).
  assert (A1 : atm_strike (calculate_atm s1).2 = 0).
  { unfold calculate_atm.
    change (has_cached_ltp s1) with (has_cached_ltp self). rewrite Hl.
    destruct (fetch_atm_unavailable s1 client eq_refl Hq) as [[_ []]|[[e E]|E]];
      destruct (fetch_atm_atm_strike s1) as [F0 FR];
      destruct (fetch_atm s1) as [[a|e'] s2] eqn:Ef; cbn in *;
      simplify_eq.
    - now rewrite (FR _ eq_refl).
    - destruct (F0 0 eq_refl) as [->|[_ ->]]; auto. }
  destruct (calculate_atm_same_grid s1) as (_&_&_&Go&Gs&_).
  set (s2 := (calculate_atm s1).2) in *.
  assert (G : generate_strikes s2 = s2).
  { unfold generate_strikes. now rewrite A1. }
  rewrite G.
  destruct (setup_depth_subscriptions_frame s2) as [m ->].
  cbn. rewrite Go, Gs. subst s1. cbn. auto.
Qed.

Lemma initialize_quote_unavailable_witness :
  (initialize unreachable_api
     (new_chain "NIFTY" (ExpiryStr "28-AUG-25") None)).1 = true.
Proof.
  refine (proj1 (initialize_quote_unavailable unreachable_api
                   (new_chain "NIFTY" (ExpiryStr "28-AUG-25") None)
                   _ _ _ _ _ _)); try reflexivity.
  intros exchange. apply quote_raises.
Defined.

(** The statement of the spec fails on the return value: with the REST
    client down, a new engine stays empty and [initialize] still answers
    True. *)
Lemma initialize_reports_success_counterexample :
  let r := initialize unreachable_api
             (new_chain "NIFTY" (ExpiryStr "28-AUG-25") None) in
  atm_strike r.2 = 0 /\ option_data r.2 = [] /\ r.1 <> false.
Proof. vm_compute. repeat split; discriminate. Qed.

(** ** Dicts keyed by strike *)

Lemma dict_set_fresh {V} (k : Z) (v : V) (d : list (Z * V)) :
  ~ In k (dict_keys d) -> dict_set k v d = (d ++ [(k, v)])%list.
Proof.
  unfold dict_keys. induction d as [|[k' v'] d IH]; cbn; [reflexivity|].
  intros N. destruct (Z.eqb_spec k k') as [->|_].
  - exfalso. apply N. now left.
  - rewrite IH; [reflexivity|]. intros I. apply N. now right.
Qed.

Lemma dict_set_keys {V} (k : Z) (v : V) (d : list (Z * V)) :
  In k (dict_keys d) -> dict_keys (dict_set k v d) = dict_keys d.
Proof.
  unfold dict_keys. induction d as [|[k' v'] d IH]; cbn; [intros []|].
  destruct (Z.eqb_spec k k') as [->|Ne]; cbn; [reflexivity|].
  intros [E|I]; [congruence|]. now rewrite IH.
Qed.

Lemma dict_get_In {V} (k : Z) (v : V) (d : list (Z * V)) :
  dict_get k d = Some v -> In (k, v) d.
Proof.
  induction d as [|[k' v'] d IH]; cbn; [discriminate|].
  destruct (Z.eqb_spec k k') as [->|Ne].
  - intros [= ->]. now left.
  - intros E. right. auto.
Qed.

Lemma dict_get_NoDup {V} (k : Z) (v : V) (d : list (Z * V)) :
  List.NoDup (dict_keys d) -> In (k, v) d -> dict_get k d = Some v.
Proof.
  unfold dict_keys. induction d as [|[k' v'] d IH]; cbn; [intros _ []|].
  intros ND [E|I].
  - injection E as -> ->. now rewrite Z.eqb_refl.
  - inversion ND as [|? ? Nk ND']; subst.
    destruct (Z.eqb_spec k k') as [->|Ne]; [|auto].
    exfalso. apply Nk. apply (in_map fst) in I. exact I.
Qed.

(** ** The generated grid *)

Lemma add_strike_settings (self : chain) (info : Z * string * Z) :
  same_settings self (add_strike self info).
Proof. destruct info as [[k t] p]. repeat split. Qed.

Lemma add_strike_symbols (self : chain) (info : Z * string * Z)
    (k : Z) (t : option_type) :
  construct_option_symbol (add_strike self info) k t
  = construct_option_symbol self k t.
Proof. destruct info as [[k' t'] p]. reflexivity. Qed.

Lemma fold_add_strike_settings (infos : list (Z * string * Z)) (self : chain) :
  same_settings self (fold_left add_strike infos self).
Proof.
  revert self. induction infos as [|info infos IH]; intros self; cbn.
  - repeat split.
  - specialize (IH (add_strike self info)).
    pose proof (add_strike_settings self info) as A.
    unfold same_settings in *.
    destruct IH as (?&?&?&?&?&?&?&?&?&?&?), A as (?&?&?&?&?&?&?&?&?&?&?).
    repeat split; congruence.
Qed.

Lemma fold_add_strike_option_data (infos : list (Z * string * Z))
    (self : chain) :
  List.NoDup (map (fun info => info.1.1) infos) ->
  (forall info, In info infos -> ~ In info.1.1 (dict_keys (option_data self))) ->
  option_data (fold_left add_strike infos self)
  = (option_data self
     ++ map (fun info => (info.1.1, grid_row self info)) infos)%list.
Proof.
  revert self. induction infos as [|info infos IH]; intros self ND Fresh; cbn.
  - now rewrite app_nil_r.
  - inversion ND as [|? ? Nk ND']; subst.
    rewrite IH; [| exact ND' |].
    + destruct info as [[k t] p]. cbn.
      rewrite dict_set_fresh by (apply (Fresh (k, t, p)); now left).
      rewrite <- app_assoc. cbn. reflexivity.
    + intros info' I'. destruct info as [[k t] p]. cbn.
      rewrite dict_set_fresh by (apply (Fresh (k, t, p)); now left).
      unfold dict_keys. rewrite map_app, in_app_iff. cbn.
      intros [I|[E|[]]].
      * apply (Fresh info'); [now right | exact I].
      * apply Nk. cbn. rewrite E.
        apply (in_map (fun info => info.1.1)) in I'. exact I'.
Qed.

Lemma in_py_range (lo hi i : Z) : In i (py_range lo hi) <-> lo <= i < hi.
Proof.
  unfold py_range. rewrite in_map_iff. split.
  - intros (n & <- & I). apply in_seq in I. lia.
  - intros B. exists (Z.to_nat (i - lo)). split; [lia|].
    apply in_seq. lia.
Qed.

Lemma NoDup_py_range (lo hi : Z) : List.NoDup (py_range lo hi).
Proof.
  unfold py_range. apply Injective_map_NoDup.
  - intros a b E. lia.
  - apply List.seq_NoDup.
Qed.

Lemma length_py_range (lo hi : Z) :
  List.length (py_range lo hi) = Z.to_nat (hi - lo).
Proof. unfold py_range. now rewrite length_map, length_seq. Qed.

(** The list built by [generate_strikes] is the window of offsets -20 to
    20 around the ATM strike, tagged as the spec says. *)
Lemma strike_list_offsets (atm step : Z) :
  strike_list atm step
  = map (fun i => (atm + i * step, grid_tag i, i)) (py_range (-20) 21).
Proof.
  unfold strike_list.
  replace (py_range (-20) 21)
    with (List.app (map Z.opp (rev (py_range 1 21)))
                   (List.app [0] (py_range 1 21))) by reflexivity.
  rewrite !map_app, map_map. f_equal; [|f_equal].
  - apply map_ext_in. intros i I. apply in_rev, in_py_range in I.
    unfold grid_tag. rewrite (proj2 (Z.ltb_lt (- i) 0)) by lia.
    replace (Z.abs (- i)) with i by lia.
    replace (atm + - i * step) with (atm - i * step) by ring. reflexivity.
  - cbn. replace (atm + 0 * step) with atm by ring. reflexivity.
Qed.

Lemma strike_list_keys (atm step : Z) :
  map (fun info => info.1.1) (strike_list atm step)
  = map (fun i => atm + i * step) (py_range (-20) 21).
Proof. rewrite strike_list_offsets, map_map. reflexivity. Qed.

Lemma NoDup_strike_list_keys (atm step : Z) :
  step <> 0 ->
  List.NoDup (map (fun info => info.1.1) (strike_list atm step)).
Proof.
  intros Hs. rewrite strike_list_keys.
  apply Injective_map_NoDup; [|apply NoDup_py_range].
  intros a b E. nia.
Qed.

(** [generate_strikes] on an engine without rows. *)
Lemma generate_strikes_empty (self : chain) :
  option_data self = [] ->
  strike_step self <> 0 ->
  atm_strike self <> 0 ->
  option_data (generate_strikes self)
  = map (fun i =>
           let info := (atm_strike self + i * strike_step self, grid_tag i, i) in
           (info.1.1, grid_row self info))
        (py_range (-20) 21).
Proof.
  intros He Hs Ha. unfold generate_strikes.
  destruct (Z.eqb_spec (atm_strike self) 0) as [E|_]; [contradiction|].
  rewrite fold_add_strike_option_data.
  - rewrite He, strike_list_offsets, map_map. reflexivity.
  - now apply NoDup_strike_list_keys.
  - intros info _. rewrite He. intros [].
Qed.

(** ** Initialisation from a quote *)

Lemma calculate_atm_quote (self : chain) (client : api) (price : Q) :
  has_cached_ltp self = Ok false ->
  api_client self = Some client ->
  (forall exchange, quote_gives (client (underlying self) exchange) price) ->
  atm_strike (calculate_atm self).2
  = py_round (price / inject_Z (strike_step self)) * strike_step self.
Proof.
  intros Hl Hc Hq. unfold calculate_atm, fetch_atm. rewrite Hl, Hc.
  match goal with |- context [client ?u ?x] => specialize (Hq x) end.
  destruct Hq as (kvs & data & -> & Hs & Hd & Hp & Hpos).
  cbn. rewrite Hs. cbn. rewrite Hd. cbn. rewrite Hp. cbn.
  destruct (Qlt_le_dec 0 price) as [L|L].
  - reflexivity.
  - exfalso. apply (Qlt_not_le _ _ Hpos L).
Qed.

(** C1, as the code has it.  On an engine without a cached price
    and without rows, a quote with price P > 0 makes [initialize] store
    ATM = round(P/S)*S, a multiple of the strike step S.  When that ATM
    is not 0, the grid then holds exactly 41 rows under 41 distinct
    strikes ATM + i*S for i from -20 to 20, in that order, the row of
    offset i at position i and tagged ITM|i| below 0, ATM at 0 and OTMi
    above 0.  When that ATM is 0, no row is generated: the grid stays
    empty. *)
Theorem initialize_generates_grid (client : api) (self : chain) (price : Q) :
  initialized self = false ->
  has_cached_ltp self = Ok false ->
  option_data self = [] ->
  strike_step self <> 0 ->
  (forall exchange, quote_gives (client (underlying self) exchange) price) ->
  let step := strike_step self in
  let atm := py_round (price / inject_Z step) * step in
  let after := (initialize client self).2 in
  atm_strike after = atm
  /\ (step | atm)
  /\ (atm <> 0 ->
      map (fun kr => (kr.1, strike kr.2, tag kr.2, position kr.2))
          (option_data after)
      = map (fun i => (atm + i * step, atm + i * step, grid_tag i, i))
            (py_range (-20) 21)
      /\ List.length (option_data after) = 41%nat
      /\ List.NoDup (dict_keys (option_data after)))
  /\ (atm = 0 -> option_data after = []).
Proof.
  intros Hi Hl He Hs Hq step atm after.
  subst after. unfold initialize. rewrite Hi. cbn [snd].
  set (s1 := with_api_client (Some client) self).
  pose proof (calculate_atm_quote s1 client price Hl eq_refl Hq) as A1.
  destruct (calculate_atm_same_grid s1) as (_&_&Gstep&Go&_&_).
  set (s2 := (calculate_atm s1).2) in *.
  change (strike_step s1) with step in *. fold atm in A1.
  destruct (setup_depth_subscriptions_frame (generate_strikes s2)) as [m ->].
  cbn [with_initialized with_websocket_manager atm_strike option_data].
  assert (A3 : atm_strike (generate_strikes s2) = atm).
  { unfold generate_strikes. destruct (Z.eqb (atm_strike s2) 0); [exact A1|].
    destruct (fold_add_strike_settings (strike_list (atm_strike s2)
                (strike_step s2)) s2) as (_&_&_&_&_&_&->&_). exact A1. }
  split; [exact A3|]. split; [exists (py_round (price / inject_Z step)); reflexivity|].
  split.
  - intros Hatm.
    rewrite generate_strikes_empty; [| now rewrite Go | now rewrite Gstep | now rewrite A1 ].
    rewrite A1, Gstep. split; [|split].
    + rewrite map_map. reflexivity.
    + now rewrite length_map, length_py_range.
    + unfold dict_keys. rewrite map_map. cbn.
      apply Injective_map_NoDup; [|apply NoDup_py_range].
      intros a b E. nia.
  - intros Z0. unfold generate_strikes. rewrite A1, Z0.
    cbn [Z.eqb]. rewrite Go. exact He.
Qed.

Lemma initialize_generates_grid_witness :
  atm_strike (initialize (quoting 24537)
                (new_chain "NIFTY" (ExpiryStr "28-AUG-25") None)).2
  = py_round (24537 / inject_Z 50) * 50.
Proof.
  refine (proj1 (initialize_generates_grid (quoting 24537)
                   (new_chain "NIFTY" (ExpiryStr "28-AUG-25") None) 24537
                   _ _ _ _ _)); try reflexivity.
  - discriminate.
  - intros exchange.
    exists [("status", JStr "success"); ("data", JObj [("ltp", JNum 24537)])],
           [("ltp", JNum 24537)].
    repeat split; reflexivity.
Defined.

(** The statement of the spec fails for a price below half a strike
    step: with step 50 and price 10 the ATM strike is round(0.2)*50 = 0
    and [generate_strikes] returns at once, so there is no row at all. *)
Lemma initialize_small_price_counterexample :
  let after := (initialize (quoting 10)
                  (new_chain "NIFTY" (ExpiryStr "28-AUG-25") None)).2 in
  (0 < 10)%Q
  /\ strike_step after = 50
  /\ atm_strike after = 0
  /\ option_data after = []
  /\ List.length (option_data after) <> 41%nat.
Proof. vm_compute. repeat split; discriminate. Qed.

(** ** Quote ticks and re-tagging *)

Lemma generate_strikes_atm (self : chain) :
  atm_strike (generate_strikes self) = atm_strike self.
Proof.
  unfold generate_strikes. destruct (Z.eqb (atm_strike self) 0); [reflexivity|].
  now destruct (fold_add_strike_settings
                  (strike_list (atm_strike self) (strike_step self)) self)
    as (_&_&_&_&_&_&->&_).
Qed.

Lemma atm_for_multiple (v : json) (step a : Z) :
  atm_for v step = Ok a -> (step | a).
Proof.
  unfold atm_for. destruct (as_num v); cbn; intros [= <-].
  apply Z.divide_factor_r.
Qed.

(** The strike [calculate_atm] returns is a multiple of the strike
    step. *)
Lemma calculate_atm_multiple (self : chain) :
  (strike_step self | (calculate_atm self).1).
Proof.
  unfold calculate_atm, fetch_atm.
  repeat case_match; simplify_eq; cbn;
    try apply Z.divide_0_r;
    match goal with
    | E : atm_for _ _ = Ok _ |- _ => exact (atm_for_multiple _ _ _ E)
    end.
Qed.

Lemma handle_quote_update_effect `{PyText} (data : json) (self : chain) :
  quote_effect self (state_of (handle_quote_update data self)).
Proof.
  unfold handle_quote_update.
  destruct (py_get_d data "symbol" (JStr "")) as [symbol|e]; cbn;
    [|apply quote_keeps; [reflexivity | apply same_grid_refl]].
  destruct (negb (py_eq_str symbol (underlying self))); cbn;
    [apply quote_keeps; [reflexivity | apply same_grid_refl]|].
  destruct (py_get_d data "ltp" (JNum 0)) as [v|e]; cbn;
    [|apply quote_keeps; [reflexivity | apply same_grid_refl]].
  destruct (negb (truthy v)); cbn;
    [apply quote_keeps; [reflexivity | apply same_grid_refl]|].
  destruct (py_float v) as [l|e]; cbn;
    [|apply quote_keeps; [reflexivity | apply same_grid_refl]].
  set (s1 := with_underlying_ltp (JNum l) self).
  pose proof (calculate_atm_same_grid s1) as G1.
  destruct (calculate_atm s1) as [atm s2] eqn:Ec. cbn [snd] in G1.
  set (mid := with_atm_strike atm s2).
  assert (Gm : same_grid self mid).
  { unfold same_grid in *. destruct G1 as (?&?&?&?&?&?). repeat split; assumption. }
  change (atm_strike s1) with (atm_strike self).
  match goal with
  | |- quote_effect _ (state_of (match ?b with Ok _ => _ | Raise _ => _ end)) =>
      set (bid_v := b)
  end.
  match goal with
  | |- context [match ?a with Ok _ => Done _ | Raise e => Raised e _ end] =>
      set (ask_v := a)
  end.
  assert (Tail : forall s : chain,
             let after :=
               state_of
                 match bid_v with
                 | Ok b =>
                     match ask_v with
                     | Ok a => Done (with_underlying_ask (JNum a)
                                       (with_underlying_bid (JNum b) s))
                     | Raise e => Raised e (with_underlying_bid (JNum b) s)
                     end
                 | Raise e => Raised e s
                 end in
             same_grid s after /\ atm_strike after = atm_strike s).
  { intros s. destruct bid_v, ask_v; cbn; repeat split. }
  assert (Am : atm_strike mid = atm) by reflexivity.
  assert (Dm : (strike_step self | atm_strike mid)).
  { rewrite Am. pose proof (calculate_atm_multiple s1) as D.
    rewrite Ec in D. exact D. }
  assert (Om : option_data mid = option_data s2) by reflexivity.
  destruct (Z.eqb_spec (atm_strike self) atm) as [E|N]; cbn [negb].
  - destruct (Tail mid) as [G A].
    apply quote_keeps; [congruence | exact (same_grid_trans _ _ _ Gm G)].
  - destruct (option_data s2) as [|kr rest] eqn:Eo.
    + set (g := generate_strikes mid).
      assert (Eg : exists m, match websocket_manager g with
                             | Some m0 => if authenticated m0
                                          then batch_subscribe_options g else g
                             | None => g
                             end = with_websocket_manager m g).
      { destruct (websocket_manager g) as [m0|] eqn:Ew.
        - destruct (authenticated m0).
          + apply batch_subscribe_options_frame.
          + exists (Some m0). destruct g; cbn in *; now subst.
        - exists None. destruct g; cbn in *; now subst. }
      destruct Eg as [m ->].
      destruct (Tail (with_websocket_manager m g)) as [G A].
      apply (quote_generates _ _ mid).
      * exact Gm.
      * exact Dm.
      * rewrite Am. congruence.
      * destruct Gm as (_&_&_&Go&_). congruence.
      * exact G.
      * rewrite A. apply generate_strikes_atm.
    + destruct (Tail (update_option_tags mid)) as [G A].
      apply (quote_retags _ _ mid).
      * exact Gm.
      * exact Dm.
      * rewrite Am. congruence.
      * destruct Gm as (_&_&_&Go&_). rewrite <- Go, Om. discriminate.
      * exact G.
      * exact A.
Qed.

Lemma update_option_tags_relabelled (mid : chain) :
  Forall2 (relabelled (atm_strike mid) (strike_step mid))
          (option_data mid) (option_data (update_option_tags mid)).
Proof.
  unfold update_option_tags. cbn [option_data with_option_data].
  induction (option_data mid) as [|[k r] rest IH]; cbn; constructor; auto.
  repeat split.
Qed.

Lemma Forall2_same_keys (atm step : Z) (l l' : list (Z * row)) :
  Forall2 (relabelled atm step) l l' -> dict_keys l' = dict_keys l.
Proof.
  unfold dict_keys.
  induction 1 as [|old new l l' R _ IH]; cbn; [reflexivity|].
  destruct R as (-> & _). now rewrite IH.
Qed.

(** C4, as the code has it.  When a quote tick changes the ATM
    strike on a grid that has rows, no row is added or removed, the
    routing table is untouched and every row keeps its key, strike,
    symbols and both side quotes; the tag is recomputed from the
    position, and the position is 0 if the new ATM strike is 0 and
    otherwise the floor of (strike - ATM) / step, which is negative for
    every strike below ATM. *)
Theorem handle_quote_update_retags `{PyText} (data : json) (self : chain) :
  option_data self <> [] ->
  atm_strike (state_of (handle_quote_update data self)) <> atm_strike self ->
  let after := state_of (handle_quote_update data self) in
  let atm := atm_strike after in
  let step := strike_step self in
  dict_keys (option_data after) = dict_keys (option_data self)
  /\ subscription_map after = subscription_map self
  /\ Forall2 (relabelled atm step) (option_data self) (option_data after)
  /\ (atm <> 0 -> 0 < step ->
      Forall2 (fun old new =>
                 step * position new.2 <= strike old.2 - atm
                                       < step * position new.2 + step
                 /\ (strike old.2 < atm -> position new.2 < 0))
              (option_data self) (option_data after)).
Proof.
  intros Hne Hatm after atm step.
  destruct (handle_quote_update_effect data self)
    as [Ea _ | mid _ _ _ He _ _ | mid Gm _ Nm _ Ga Aa].
  - contradiction.
  - contradiction.
  - fold after in Ga, Aa.
    destruct Gm as (_&_&Gs&Go&Gr&_), Ga as (_&_&_&Go'&Gr'&_).
    cbn in Gr'.
    pose proof (update_option_tags_relabelled mid) as R.
    rewrite <- Go' in R. rewrite Go, Gs, <- Aa in R.
    fold atm step in R.
    split; [exact (Forall2_same_keys _ _ _ _ R)|].
    split; [congruence|]. split; [exact R|].
    intros Na Hs.
    eapply Forall2_impl; [exact R|].
    intros old new (_&_&_&_&_&_&P&_). rewrite P.
    rewrite (proj2 (Z.eqb_neq atm 0) Na).
    pose proof (Z.mul_div_le (strike old.2 - atm) step Hs).
    pose proof (Z.mul_succ_div_gt (strike old.2 - atm) step Hs).
    split; [lia|].
    intros L. apply Z.div_lt_upper_bound; lia.
Qed.

Lemma handle_quote_update_retags_witness :
  dict_keys (option_data
               (state_of (@handle_quote_update plain_text
                            (JObj [("symbol", JStr "NIFTY"); ("ltp", JNum 24612)])
                            nifty)))
  = dict_keys (option_data nifty).
Proof.
  refine (proj1 (@handle_quote_update_retags plain_text
                   (JObj [("symbol", JStr "NIFTY"); ("ltp", JNum 24612)])
                   nifty _ _)).
  - vm_compute. discriminate.
  - vm_compute. discriminate.
Defined.

(** The statement of the spec fails when the new ATM strike is 0: a
    quote of 10 on [nifty] rounds to ATM 0, and the row of strike 24600
    gets position 0 instead of floor((24600 - 0) / 50) = 492. *)
Lemma retag_zero_atm_counterexample :
  let after :=
    state_of (@handle_quote_update plain_text
                (JObj [("symbol", JStr "NIFTY"); ("ltp", JNum 10)]) nifty) in
  atm_strike nifty = 24550
  /\ atm_strike after = 0
  /\ option_data nifty <> []
  /\ option_map position (dict_get 24600 (option_data after)) = Some 0
  /\ (24600 - atm_strike after) / strike_step after = 492
  /\ option_map position (dict_get 24600 (option_data after))
     <> Some ((24600 - atm_strike after) / strike_step after).
Proof. vm_compute. repeat split; try reflexivity; discriminate. Qed.

(** ** Dispatch of inbound messages *)

Section DispatchFacts.
Context {H W : Type} (run : H -> json -> W -> outcome W).

Lemma register_handler_order (mode : string) (h : H) (m : manager H) :
  (mode = "quote" ->
   quote_handlers (WS.register_handler mode h m)
   = (quote_handlers m ++ [h])%list)
  /\ (mode = "depth" ->
      depth_handlers (WS.register_handler mode h m)
      = (depth_handlers m ++ [h])%list)
  /\ (mode = "ltp" ->
      ltp_handlers (WS.register_handler mode h m)
      = (ltp_handlers m ++ [h])%list).
Proof. repeat split; intros ->; reflexivity. Qed.

(** A payload classified as depth or quote goes to every handler of that
    mode, in registration order, each starting from the state the one
    before it left, whether that one returned or raised. *)
Lemma process_market_data_delivers (m : manager H) (kvs : list (string * json))
    (w : W) :
  assoc "data" kvs = None ->
  (WS.classify (JObj kvs) = Ok "depth" ->
   WS.process_market_data run m (JObj kvs) w
   = Done (fold_left (fun w h => state_of (run h (JObj kvs) w))
                     (depth_handlers m) w))
  /\ (WS.classify (JObj kvs) = Ok "quote" ->
      WS.process_market_data run m (JObj kvs) w
      = Done (fold_left (fun w h => state_of (run h (JObj kvs) w))
                        (quote_handlers m) w)).
Proof.
  intros Hd. unfold WS.process_market_data, py_get_d. rewrite Hd.
  split; intros ->; reflexivity.
Qed.

(** A payload classified as ltp reaches no handler, whatever is
    registered. *)
Lemma process_market_data_ltp (m : manager H) (data market_data : json) (w : W) :
  py_get_d data "data" data = Ok market_data ->
  WS.classify market_data = Ok "ltp" ->
  WS.process_market_data run m data w = Done w.
Proof.
  intros Hd Hc. unfold WS.process_market_data. now rewrite Hd, Hc.
Qed.

End DispatchFacts.

Lemma deliver_recording (fails : string -> bool) (names : list string)
    (payload : json) (log : list (string * json)) :
  WS.deliver (recording fails) names payload log
  = (log ++ map (fun name => (name, payload)) names)%list.
Proof.
  unfold WS.deliver. revert log.
  induction names as [|n names IH]; intros log; cbn.
  - now rewrite app_nil_r.
  - rewrite IH. unfold recording. destruct (fails n); cbn;
      now rewrite <- app_assoc.
Qed.

(** C6, at the failing input.  The message with only a symbol and
    an ltp field is classified as ltp-mode, a handler is registered for
    that mode, and [on_message] calls nobody: the log of calls stays
    empty.  The same connection delivers a depth-mode and a quote-mode
    message to the handler of that mode. *)
Theorem ltp_message_reaches_no_handler :
  let tick := JObj [("symbol", JStr "NIFTY"); ("ltp", JNum 24537)] in
  let nobody_fails := fun _ : string => false in
  ltp_handlers three_handlers = ["on_ltp"]
  /\ WS.classify tick = Ok "ltp"
  /\ WS.on_message (recording nobody_fails) (Some tick) three_handlers []
     = (three_handlers, [])
  /\ WS.on_message (recording nobody_fails)
       (Some (JObj [("symbol", JStr "NIFTY"); ("ltp", JNum 24537);
                    ("open", JNum 24500)]))
       three_handlers []
     = (three_handlers,
        [("on_quote", JObj [("symbol", JStr "NIFTY"); ("ltp", JNum 24537);
                            ("open", JNum 24500)])]).
Proof. cbv zeta. repeat split; reflexivity. Qed.

(** ** Subscriptions and authentication *)

Section SubscriptionFacts.
Context {H : Type}.

(** [subscribe] before authentication is refused and leaves no trace. *)
Lemma subscribe_rejected (sub : subscription) (m : manager H) :
  authenticated m = false -> WS.subscribe sub m = (false, m).
Proof.
  intros Ha. unfold WS.subscribe. rewrite Ha. now destruct (ws m).
Qed.

(** [subscribe] once authenticated sends the frame and records the
    subscription. *)
Lemma subscribe_accepted (sub : subscription) (m : manager H)
    (frames : list frame) :
  authenticated m = true ->
  ws m = Some frames ->
  WS.subscribe sub m
  = (true,
     Manager (Some (frames ++ [frame_of sub])%list) (active m) true
             ({[ sub ]} ∪ subscriptions m) (ws_url m) (api_key m)
             (quote_handlers m) (depth_handlers m) (ltp_handlers m)).
Proof.
  intros Ha Hw. unfold WS.subscribe, WS.send. rewrite Hw, Ha. cbn.
  unfold WS.with_subscriptions, WS.with_ws, frame_of. cbn. now rewrite Ha.
Qed.

Lemma resubscribe_fold (subs : list subscription) (m : manager H)
    (frames : list frame) :
  authenticated m = true ->
  ws m = Some frames ->
  (forall sub, In sub subs -> sub ∈ subscriptions m) ->
  fold_left (fun m sub => (WS.subscribe sub m).2) subs m
  = Manager (Some (frames ++ map frame_of subs)%list) (active m) true
            (subscriptions m) (ws_url m) (api_key m)
            (quote_handlers m) (depth_handlers m) (ltp_handlers m).
Proof.
  revert m frames. induction subs as [|sub subs IH]; intros m frames Ha Hw Hin.
  - cbn. rewrite app_nil_r. destruct m; cbn in *. now subst.
  - cbn [fold_left]. rewrite (subscribe_accepted sub m frames Ha Hw).
    cbn [snd].
    assert (E : {[ sub ]} ∪ subscriptions m = subscriptions m).
    { apply subseteq_union_1_L, singleton_subseteq_l, Hin. now left. }
    rewrite E.
    rewrite (IH _ (frames ++ [frame_of sub])%list); cbn; auto.
    + now rewrite <- app_assoc.
    + intros s I. apply Hin. now right.
Qed.

(** C7, as the code has it.  An auth-success message marks the
    connection authenticated and replays every recorded subscription,
    once each, and calls no handler.  The recorded subscriptions are
    those [subscribe] accepted; a call made before authentication is
    refused without being recorded, so it is not among them. *)
Theorem auth_success_replays_recorded {W : Type}
    (run : H -> json -> W -> outcome W) (m : manager H) (frames : list frame)
    (kvs : list (string * json)) (w : W) :
  ws m = Some frames ->
  assoc "type" kvs = Some (JStr "auth") ->
  assoc "status" kvs = Some (JStr "success") ->
  let after := (WS.on_message run (Some (JObj kvs)) m w).1 in
  authenticated after = true
  /\ subscriptions after = subscriptions m
  /\ WS.sent after
     = (frames ++ map frame_of (elements (subscriptions m)))%list
  /\ (forall sub, sub ∈ subscriptions m -> In (frame_of sub) (WS.sent after))
  /\ (WS.on_message run (Some (JObj kvs)) m w).2 = w
  /\ (forall sub (m0 : manager H),
        authenticated m0 = false ->
        WS.subscribe sub m0 = (false, m0)
        /\ subscriptions (WS.subscribe sub m0).2 = subscriptions m0).
Proof.
  intros Hw Ht Hs after.
  assert (E : WS.on_message run (Some (JObj kvs)) m w
              = (Manager (Some (frames
                                ++ map frame_of (elements (subscriptions m)))%list)
                         (active m) true (subscriptions m) (ws_url m)
                         (api_key m) (quote_handlers m) (depth_handlers m)
                         (ltp_handlers m), w)).
  { unfold WS.on_message, py_get, py_get_d. rewrite Ht. cbn. rewrite Hs. cbn.
    destruct (decide (subscriptions m = ∅)) as [E0|N0].
    - rewrite E0, elements_empty. cbn. rewrite app_nil_r.
      f_equal. destruct m; cbn in *. now subst.
    - f_equal. unfold WS.resubscribe_all.
      rewrite (resubscribe_fold _ _ frames); cbn; auto.
      intros sub I. apply list_elem_of_In in I. now apply elem_of_elements in I. }
  subst after. rewrite E. cbn.
  repeat split; auto.
  - intros sub I. apply in_or_app. right. apply in_map.
    apply list_elem_of_In. now apply elem_of_elements.
  - now apply subscribe_rejected.
  - now rewrite subscribe_rejected.
Qed.

End SubscriptionFacts.

Lemma auth_success_replays_recorded_witness :
  In (frame_of nifty_quote)
     (WS.sent (WS.on_message silent (Some auth_success)
              (WS.connect "ws://localhost:8765" "key" subscribed).2 tt).1).
Proof.
  refine (proj1 (proj2 (proj2 (proj2
            (auth_success_replays_recorded silent
               (WS.connect "ws://localhost:8765" "key" subscribed).2 []
               [("type", JStr "auth"); ("status", JStr "success")] tt
               _ _ _)))) nifty_quote _); reflexivity.
Defined.

(** The statement of the spec fails for a call made before
    authentication: the call is refused, nothing is recorded, and the
    auth-success message that follows sends no subscribe frame for it. *)
Lemma rejected_subscribe_not_replayed_counterexample :
  let opened : manager unit :=
    WS.on_open (WS.connect "ws://localhost:8765" "key" WS.init).2 in
  let asked := WS.subscribe nifty_quote opened in
  let after := (WS.on_message silent (Some auth_success) asked.2 tt).1 in
  asked.1 = false
  /\ authenticated after = true
  /\ WS.sent after = [FAuthenticate (Some "key")]
  /\ ~ In (frame_of nifty_quote) (WS.sent after).
Proof.
  vm_compute. repeat split; try reflexivity.
  intros [E|[]]. discriminate.
Qed.

(** ** Reachable states and their invariant *)

Lemma construct_option_symbol_ext (s s' : chain) (k : Z) (t : option_type) :
  underlying s' = underlying s -> expiry s' = expiry s ->
  construct_option_symbol s' k t = construct_option_symbol s k t.
Proof. unfold construct_option_symbol. now intros -> ->. Qed.

Lemma window_ok_fields (s s' : chain) :
  underlying s' = underlying s -> expiry s' = expiry s ->
  strike_step s' = strike_step s -> option_data s' = option_data s ->
  subscription_map s' = subscription_map s ->
  (strike_step s | atm_strike s') ->
  window_ok s -> window_ok s'.
Proof.
  intros Gu Ge Gs Go Gr Da [St _ Wi Ro Rt].
  split; rewrite ?Gs, ?Go, ?Gr; auto.
  - intros k r I. specialize (Ro k r I).
    now rewrite !(construct_option_symbol_ext s s').
  - intros k r t I. rewrite (construct_option_symbol_ext s s') by assumption.
    eauto.
Qed.

Lemma window_ok_ext (s s' : chain) :
  same_grid s s' -> (strike_step s | atm_strike s') ->
  window_ok s -> window_ok s'.
Proof.
  intros (Gu & Ge & Gs & Go & Gr & _). now apply window_ok_fields.
Qed.

Lemma tags_ok_fields (s s' : chain) :
  strike_step s' = strike_step s -> option_data s' = option_data s ->
  atm_strike s' = atm_strike s -> tags_ok s -> tags_ok s'.
Proof.
  intros Gs Go Ga T k r I. rewrite Go in I.
  unfold get_strike_position. rewrite Ga, Gs. exact (T k r I).
Qed.

Lemma tags_ok_ext (s s' : chain) :
  same_grid s s' -> atm_strike s' = atm_strike s -> tags_ok s -> tags_ok s'.
Proof.
  intros (_ & _ & Gs & Go & _). now apply tags_ok_fields.
Qed.

Lemma grid_tag_position_tag (i : Z) : grid_tag i = get_position_tag i.
Proof.
  unfold grid_tag, get_position_tag.
  destruct (Z.ltb_spec i 0), (Z.eqb_spec i 0), (Z.ltb_spec 0 i);
    try lia; try reflexivity.
  now replace (Z.abs i) with i by lia.
Qed.

Lemma get_position_tag_ATM (p : Z) : get_position_tag p = "ATM" <-> p = 0.
Proof.
  unfold get_position_tag. destruct (Z.eqb_spec p 0) as [->|N].
  - tauto.
  - split; [|contradiction].
    destruct (Z.ltb 0 p); rewrite !append_cons; discriminate.
Qed.

Lemma add_strike_routing_new (self : chain) (k : Z) (tg : string) (p : Z)
    (t : option_type) :
  subscription_map (add_strike self (k, tg, p))
    !! construct_option_symbol self k t
  = Some (k, t).
Proof.
  cbn. destruct t.
  - rewrite lookup_insert_ne.
    + apply lookup_insert_eq.
    + intros E. apply construct_option_symbol_inj in E.
      destruct E as [_ E]. discriminate.
  - apply lookup_insert_eq.
Qed.

Lemma add_strike_routing_kept (self : chain) (info : Z * string * Z)
    (k : Z) (t : option_type) :
  subscription_map self !! construct_option_symbol self k t = Some (k, t) ->
  subscription_map (add_strike self info) !! construct_option_symbol self k t
  = Some (k, t).
Proof.
  destruct info as [[k' tg] p]. intros E. cbn.
  destruct (decide (construct_option_symbol self k' PE
                    = construct_option_symbol self k t)) as [E1|N1].
  - rewrite E1, lookup_insert_eq.
    apply construct_option_symbol_inj in E1. destruct E1 as [-> <-].
    reflexivity.
  - rewrite lookup_insert_ne by exact N1.
    destruct (decide (construct_option_symbol self k' CE
                      = construct_option_symbol self k t)) as [E2|N2].
    + rewrite E2, lookup_insert_eq.
      apply construct_option_symbol_inj in E2. destruct E2 as [-> <-].
      reflexivity.
    + now rewrite lookup_insert_ne by exact N2.
Qed.

Lemma fold_add_strike_routing_kept (infos : list (Z * string * Z))
    (self : chain) (k : Z) (t : option_type) :
  subscription_map self !! construct_option_symbol self k t = Some (k, t) ->
  subscription_map (fold_left add_strike infos self)
    !! construct_option_symbol self k t
  = Some (k, t).
Proof.
  revert self. induction infos as [|info infos IH]; intros self E; cbn; auto.
  rewrite <- (add_strike_symbols self info k t). apply IH.
  rewrite add_strike_symbols. now apply add_strike_routing_kept.
Qed.

Lemma fold_add_strike_routing_new (infos : list (Z * string * Z))
    (self : chain) (info : Z * string * Z) (t : option_type) :
  In info infos ->
  subscription_map (fold_left add_strike infos self)
    !! construct_option_symbol self info.1.1 t
  = Some (info.1.1, t).
Proof.
  revert self. induction infos as [|info' infos IH]; intros self I; cbn;
    [destruct I|].
  destruct I as [->|I].
  - rewrite <- (add_strike_symbols self info info.1.1 t).
    apply fold_add_strike_routing_kept. rewrite add_strike_symbols.
    destruct info as [[k tg] p]. apply add_strike_routing_new.
  - rewrite <- (add_strike_symbols self info' info.1.1 t). now apply IH.
Qed.

Lemma generate_strikes_same (self : chain) :
  same_settings self (generate_strikes self).
Proof.
  unfold generate_strikes. destruct (Z.eqb (atm_strike self) 0).
  - repeat split.
  - apply fold_add_strike_settings.
Qed.

(** Generation on an engine without rows establishes the invariant of
    the grid. *)
Lemma generate_strikes_ok (self : chain) :
  0 < strike_step self ->
  (strike_step self | atm_strike self) ->
  option_data self = [] ->
  window_ok (generate_strikes self) /\ tags_ok (generate_strikes self).
Proof.
  intros Hs Ha He.
  destruct (generate_strikes_same self) as (Gu&Ge&Gs&_&_&_&Ga&_).
  destruct (Z.eq_dec (atm_strike self) 0) as [Z0|N0].
  - assert (E : generate_strikes self = self).
    { unfold generate_strikes. now rewrite Z0. }
    rewrite E. split.
    + split; auto; rewrite He; intros ? ? []; intros [].
    + intros k r. rewrite He. intros [].
  - pose proof (generate_strikes_empty self He ltac:(lia) N0) as Eo.
    assert (Rows : forall k r, In (k, r) (option_data (generate_strikes self)) ->
              exists i, -20 <= i < 21
                        /\ k = atm_strike self + i * strike_step self
                        /\ r = grid_row self (k, grid_tag i, i)).
    { intros k r I. rewrite Eo in I. apply in_map_iff in I.
      destruct I as (i & E & I). apply in_py_range in I.
      injection E as <- <-. exists i. auto. }
    split.
    + split; rewrite ?Gs, ?Ga; auto.
      * right. exists (atm_strike self). split; [exact Ha|].
        rewrite Eo. unfold dict_keys. rewrite map_map. reflexivity.
      * intros k r I. destruct (Rows k r I) as (i & _ & _ & ->).
        rewrite !(construct_option_symbol_ext self (generate_strikes self))
          by assumption.
        repeat split.
      * intros k r t I. destruct (Rows k r I) as (i & Bi & -> & _).
        rewrite (construct_option_symbol_ext self (generate_strikes self))
          by assumption.
        unfold generate_strikes.
        rewrite (proj2 (Z.eqb_neq _ _) N0).
        apply (fold_add_strike_routing_new _ self
                 (atm_strike self + i * strike_step self, grid_tag i, i) t).
        rewrite strike_list_offsets. apply in_map_iff. exists i.
        split; [reflexivity | now apply in_py_range].
    + intros k r I. destruct (Rows k r I) as (i & Bi & -> & ->).
      unfold get_strike_position. rewrite Ga, Gs.
      rewrite (proj2 (Z.eqb_neq _ _) N0). cbn [position tag grid_row fst snd].
      replace (atm_strike self + i * strike_step self - atm_strike self)
        with (i * strike_step self) by ring.
      rewrite Z.div_mul by lia.
      split; [reflexivity | apply grid_tag_position_tag].
Qed.

(** Re-tagging keeps the grid and brings every tag up to date. *)
Lemma update_option_tags_ok (mid : chain) :
  window_ok mid ->
  window_ok (update_option_tags mid) /\ tags_ok (update_option_tags mid).
Proof.
  intros [St At Wi Ro Rt].
  assert (Rows : forall k r, In (k, r) (option_data (update_option_tags mid)) ->
            exists r0, In (k, r0) (option_data mid) /\ r = retag mid r0).
  { intros k r I. cbn in I. apply in_map_iff in I.
    destruct I as ([k0 r0] & E & I). injection E as <- <-. eauto. }
  split.
  - split; auto.
    + destruct Wi as [E|(base & Db & Ek)].
      * left. cbn. now rewrite E.
      * right. exists base. split; [exact Db|].
        cbn. unfold dict_keys in *. rewrite map_map. exact Ek.
    + intros k r I. destruct (Rows k r I) as (r0 & I0 & ->).
      exact (Ro k r0 I0).
    + intros k r t I. destruct (Rows k r I) as (r0 & I0 & ->).
      exact (Rt k r0 t I0).
  - intros k r I. destruct (Rows k r I) as (r0 & I0 & ->).
    destruct (Ro k r0 I0) as (Es & _). cbn. rewrite Es.
    split; reflexivity.
Qed.

Lemma window_keys_NoDup (s : chain) :
  window_ok s -> List.NoDup (dict_keys (option_data s)).
Proof.
  intros [St _ [E|(base & _ & Ek)] _ _].
  - rewrite E. constructor.
  - rewrite Ek. apply Injective_map_NoDup; [|apply NoDup_py_range].
    intros a b E. nia.
Qed.

Lemma in_dict_set {V} (k : Z) (v : V) (d : list (Z * V)) (k' : Z) (v' : V) :
  In (k', v') (dict_set k v d) -> (k' = k /\ v' = v) \/ In (k', v') d.
Proof.
  induction d as [|[k0 v0] d IH]; cbn.
  - intros [[= <- <-]|[]]. now left.
  - destruct (Z.eqb k k0).
    + intros [[= <- <-]|I]; [now left | right; now right].
    + intros [E|I]; [right; now left|].
      destruct (IH I) as [L|R]; [now left | right; now right].
Qed.

(** A depth update keeps the invariant of the grid. *)
Lemma update_option_depth_ok (k : Z) (t : option_type) (q : side_quote)
    (s : chain) :
  window_ok s -> tags_ok s ->
  window_ok (update_option_depth k t q s)
  /\ tags_ok (update_option_depth k t q s).
Proof.
  intros W T. unfold update_option_depth.
  destruct (dict_get k (option_data s)) as [r|] eqn:Eg; [|now split].
  apply dict_get_In in Eg.
  set (r' := match t with CE => with_ce_data q r | PE => with_pe_data q r end).
  assert (Ek : dict_keys (dict_set k r' (option_data s))
               = dict_keys (option_data s)).
  { apply dict_set_keys. apply (in_map fst) in Eg. exact Eg. }
  assert (Rows : forall k1 r1, In (k1, r1) (dict_set k r' (option_data s)) ->
            exists r0, In (k1, r0) (option_data s)
                       /\ strike r1 = strike r0
                       /\ ce_symbol r1 = ce_symbol r0
                       /\ pe_symbol r1 = pe_symbol r0
                       /\ position r1 = position r0
                       /\ tag r1 = tag r0).
  { intros k1 r1 I. destruct (in_dict_set _ _ _ _ _ I) as [[-> ->]|I0].
    - exists r. subst r'. destruct t; cbn; repeat split; exact Eg.
    - exists r1. repeat split. exact I0. }
  destruct W as [St At Wi Ro Rt]. split.
  - split; auto.
    + cbn. destruct Wi as [E|(base & Db & Eb)].
      * rewrite E in Eg. destruct Eg.
      * right. exists base. split; [exact Db|].
        change (dict_keys (dict_set k r' (option_data s))
                = map (fun i => base + i * strike_step s) (py_range (-20) 21)).
        now rewrite Ek.
    + intros k1 r1 I. destruct (Rows k1 r1 I) as (r0 & I0 & -> & -> & -> & _).
      exact (Ro k1 r0 I0).
    + intros k1 r1 t1 I. destruct (Rows k1 r1 I) as (r0 & I0 & _).
      exact (Rt k1 r0 t1 I0).
  - intros k1 r1 I.
    destruct (Rows k1 r1 I) as (r0 & I0 & _ & _ & _ & -> & ->).
    exact (T k1 r0 I0).
Qed.

Lemma handle_depth_update_cases `{PyText} (data : json) (s : chain) :
  state_of (handle_depth_update data s) = s
  \/ exists k t q,
       state_of (handle_depth_update data s) = update_option_depth k t q s.
Proof.
  unfold handle_depth_update.
  destruct (let? symbol := depth_symbol data in routing_lookup s symbol)
    as [[[k t]|]|e]; cbn; auto.
  destruct (depth_data_of data) as [q|e]; cbn; eauto.
Qed.

Lemma update_option_depth_initialized (k : Z) (t : option_type)
    (q : side_quote) (s : chain) :
  initialized (update_option_depth k t q s) = initialized s.
Proof.
  unfold update_option_depth. now destruct (dict_get k (option_data s)).
Qed.

Lemma new_chain_invariant (u : string) (e : expiry_value)
    (wsm : option (manager chain_handler)) :
  invariant (new_chain u e wsm).
Proof.
  split; [|split].
  - split; cbn.
    + destruct (String.eqb u "NIFTY"); lia.
    + apply Z.divide_0_r.
    + now left.
    + intros ? ? [].
    + intros ? ? ? [].
  - intros ? ? [].
  - reflexivity.
Qed.

Lemma initialize_invariant (client : api) (s : chain) :
  invariant s -> invariant (initialize client s).2.
Proof.
  intros (W & T & F). unfold initialize.
  destruct (initialized s) eqn:Ei; cbn [snd].
  { split; [exact W | split; [exact T | now rewrite Ei]]. }
  specialize (F eq_refl).
  set (s1 := with_api_client (Some client) s).
  destruct (calculate_atm_same_grid s1) as (Gu & Ge & Gs & Go & Gr & _).
  assert (D2 : (strike_step s | atm_strike (calculate_atm s1).2)).
  { destruct (calculate_atm_result s1) as [->|[_ ->]].
    - apply (calculate_atm_multiple s1).
    - apply (ok_atm s W). }
  set (s2 := (calculate_atm s1).2) in *.
  assert (W2 : window_ok s2) by (apply (window_ok_fields s s2); auto).
  destruct (generate_strikes_ok s2) as [Wg Tg].
  { rewrite Gs. apply (ok_step s W). }
  { now rewrite Gs. }
  { now rewrite Go. }
  destruct (setup_depth_subscriptions_frame (generate_strikes s2)) as [m ->].
  split; [|split].
  - apply (window_ok_fields (generate_strikes s2)); auto. apply (ok_atm _ Wg).
  - apply (tags_ok_fields (generate_strikes s2)); auto.
  - discriminate.
Qed.

Lemma handle_quote_update_invariant `{PyText} (data : json) (s : chain) :
  invariant s -> initialized s = true ->
  invariant (state_of (handle_quote_update data s)).
Proof.
  intros (W & T & _) Hi.
  destruct (handle_quote_update_effect data s)
    as [Ea G | mid Gm Dm _ He Ga Aa | mid Gm Dm _ _ Ga Aa].
  - split; [|split].
    + apply (window_ok_ext s); auto. rewrite Ea. apply (ok_atm s W).
    + now apply (tags_ok_ext s).
    + destruct G as (_&_&_&_&_&Gi). congruence.
  - assert (Wm : window_ok mid) by (apply (window_ok_ext s); auto).
    destruct Gm as (_&_&Gs&Go&_&Gi).
    destruct (generate_strikes_ok mid) as [Wg Tg].
    { rewrite Gs. apply (ok_step s W). }
    { now rewrite Gs. }
    { congruence. }
    pose proof (generate_strikes_atm mid) as Ag.
    destruct (generate_strikes_same mid) as (_&_&Gs'&_&_&_&_&_&_&_&Gi').
    split; [|split].
    + apply (window_ok_ext (generate_strikes mid)); auto.
      rewrite Aa, <- Ag. apply (ok_atm _ Wg).
    + apply (tags_ok_ext (generate_strikes mid)); auto. congruence.
    + destruct Ga as (_&_&_&_&_&Gi''). congruence.
  - assert (Wm : window_ok mid) by (apply (window_ok_ext s); auto).
    destruct (update_option_tags_ok mid Wm) as [Wu Tu].
    destruct Gm as (_&_&Gs&Go&_&Gi).
    split; [|split].
    + apply (window_ok_ext (update_option_tags mid)); auto.
      rewrite Aa. apply (ok_atm _ Wm).
    + apply (tags_ok_ext (update_option_tags mid)); auto.
    + destruct Ga as (_&_&_&_&_&Gi''). cbn in Gi''. congruence.
Qed.

Lemma handle_depth_update_invariant `{PyText} (data : json) (s : chain) :
  invariant s -> initialized s = true ->
  invariant (state_of (handle_depth_update data s)).
Proof.
  intros (W & T & F) Hi.
  destruct (handle_depth_update_cases data s) as [->|(k & t & q & ->)].
  - exact (conj W (conj T F)).
  - destruct (update_option_depth_ok k t q s W T) as [W' T'].
    split; [exact W' | split; [exact T'|]].
    rewrite update_option_depth_initialized. congruence.
Qed.

Lemma invariant_fields (s s' : chain) :
  underlying s' = underlying s -> expiry s' = expiry s ->
  strike_step s' = strike_step s -> option_data s' = option_data s ->
  subscription_map s' = subscription_map s ->
  atm_strike s' = atm_strike s -> initialized s' = initialized s ->
  invariant s -> invariant s'.
Proof.
  intros Gu Ge Gs Go Gr Ga Gi (W & T & F). split; [|split].
  - apply (window_ok_fields s); auto. rewrite Ga. apply (ok_atm s W).
  - now apply (tags_ok_fields s).
  - rewrite Gi, Go. exact F.
Qed.

(** Every reachable state satisfies the invariant. *)
Lemma reachable_invariant `{PyText} (s : chain) : reachable s -> invariant s.
Proof.
  induction 1 as [u e wsm | client s _ IH | data s _ IH Hi | data s _ IH Hi
                 | wsm s _ IH | s _ IH | s _ IH].
  - apply new_chain_invariant.
  - now apply initialize_invariant.
  - now apply handle_quote_update_invariant.
  - now apply handle_depth_update_invariant.
  - now apply (invariant_fields s).
  - now apply (invariant_fields s).
  - now apply (invariant_fields s).
Qed.

(** ** Depth ticks *)

Lemma dict_get_set_eq {V} (k : Z) (v : V) (d : list (Z * V)) :
  dict_get k (dict_set k v d) = Some v.
Proof.
  induction d as [|[k0 v0] d IH]; cbn.
  - now rewrite Z.eqb_refl.
  - destruct (Z.eqb k k0) eqn:E; cbn.
    + now rewrite Z.eqb_refl.
    + now rewrite E.
Qed.

Lemma dict_get_set_ne {V} (k k' : Z) (v : V) (d : list (Z * V)) :
  k' <> k -> dict_get k' (dict_set k v d) = dict_get k' d.
Proof.
  intros N. induction d as [|[k0 v0] d IH]; cbn.
  - now rewrite (proj2 (Z.eqb_neq k' k) N).
  - destruct (Z.eqb_spec k k0) as [->|N0]; cbn.
    + now rewrite (proj2 (Z.eqb_neq k' k0) N).
    + now rewrite IH.
Qed.

(** C5, as the code has it.  In a reachable state, a depth tick whose
    symbol is the call symbol of a row and whose fields can be read
    replaces the call side of that row by the quote built from the tick
    and changes nothing else: the row keeps its put side, tag, position
    and symbols, every other row, the set of strikes, the routing table
    and the underlying fields stay as they were.  If a field of such a
    tick cannot be read, the handler raises before it writes: the call
    side is not replaced and the state is unchanged.  A tick whose
    symbol is not in the routing table leaves the state unchanged and
    raises nothing. *)
Theorem handle_depth_update_ce_only `{PyText}
    (self : chain) (data : json) (k : Z) (r : row) :
  reachable self ->
  In (k, r) (option_data self) ->
  depth_symbol data = Ok (JStr (ce_symbol r)) ->
  match depth_data_of data with
  | Ok q =>
      let after :=
        with_option_data
          (dict_set k (with_ce_data q r) (option_data self)) self in
      handle_depth_update data self = Done after
      /\ dict_get k (option_data after) = Some (with_ce_data q r)
      /\ pe_data (with_ce_data q r) = pe_data r
      /\ (forall k', k' <> k ->
            dict_get k' (option_data after) = dict_get k' (option_data self))
      /\ dict_keys (option_data after) = dict_keys (option_data self)
      /\ subscription_map after = subscription_map self
      /\ (underlying_ltp after, underlying_bid after, underlying_ask after,
          atm_strike after)
         = (underlying_ltp self, underlying_bid self, underlying_ask self,
            atm_strike self)
  | Raise e => handle_depth_update data self = Raised e self
  end
  /\ (forall (tick : json) (symbol : string),
        depth_symbol tick = Ok (JStr symbol) ->
        subscription_map self !! symbol = None ->
        handle_depth_update tick self = Done self).
Proof.
  intros R I Hs.
  destruct (reachable_invariant self R) as (W & _ & _).
  split.
  - destruct (ok_rows self W k r I) as (_ & Ec & _).
    pose proof (ok_routing self W k r CE I) as Rt. rewrite <- Ec in Rt.
    pose proof (dict_get_NoDup k r _ (window_keys_NoDup self W) I) as Eg.
    unfold handle_depth_update. rewrite Hs. cbn. rewrite Rt.
    destruct (depth_data_of data) as [q|e]; [|reflexivity].
    cbv zeta. unfold update_option_depth. rewrite Eg.
    split; [reflexivity|]. cbn.
    split; [apply dict_get_set_eq|]. split; [reflexivity|].
    split; [intros k' N; now apply dict_get_set_ne|].
    split; [|split; reflexivity].
    apply dict_set_keys. apply (in_map fst) in I. exact I.
  - intros tick symbol Ht Hn. unfold handle_depth_update.
    rewrite Ht. cbn. now rewrite Hn.
Qed.

Lemma reachable_nifty : @reachable plain_text nifty.
Proof. apply reach_initialize, reach_new. Qed.

Lemma handle_depth_update_ce_only_witness :
  @handle_depth_update plain_text
    (JObj [("symbol", JStr "NIFTY28AUG2524600CE"); ("ltp", JNum (1205 # 10));
           ("bids", JArr [JArr [JNum 120; JNum 75]]);
           ("asks", JArr [JArr [JNum 121; JNum 50]])])
    nifty
  = Done (with_option_data
            (dict_set 24600
               (Row 24600 "OTM1" 1 "NIFTY28AUG2524600CE" "NIFTY28AUG2524600PE"
                    (SideQuote (1205 # 10) 120 121 75 50 (121 - 120) 0 0)
                    empty_quote)
               (option_data nifty))
            nifty).
Proof.
  refine (proj1 (proj1 (@handle_depth_update_ce_only plain_text nifty
            (JObj [("symbol", JStr "NIFTY28AUG2524600CE");
                   ("ltp", JNum (1205 # 10));
                   ("bids", JArr [JArr [JNum 120; JNum 75]]);
                   ("asks", JArr [JArr [JNum 121; JNum 50]])])
            24600
            (Row 24600 "OTM1" 1 "NIFTY28AUG2524600CE" "NIFTY28AUG2524600PE"
                 empty_quote empty_quote)
            reachable_nifty _ _))).
  - vm_compute. do 21 right. left. reflexivity.
  - reflexivity.
Defined.

(** The statement of the spec fails for a tick with the call symbol of a
    row and a field that cannot be read: with a number where the list of
    bids is expected, [len(bids)] raises, and with text that is not a
    number for the price, [float(ltp)] raises; in both cases the call
    side of the row is not replaced. *)
Lemma malformed_depth_tick_counterexample :
  let r := Row 24600 "OTM1" 1 "NIFTY28AUG2524600CE" "NIFTY28AUG2524600PE"
               empty_quote empty_quote in
  let bids_5 := JObj [("symbol", JStr "NIFTY28AUG2524600CE");
                      ("ltp", JNum 120); ("bids", JNum 5)] in
  let ltp_na := JObj [("symbol", JStr "NIFTY28AUG2524600CE");
                      ("ltp", JStr "n/a")] in
  dict_get 24600 (option_data nifty) = Some r
  /\ depth_symbol bids_5 = Ok (JStr (ce_symbol r))
  /\ depth_symbol ltp_na = Ok (JStr (ce_symbol r))
  /\ @depth_data_of plain_text bids_5 = Raise TypeError
  /\ @depth_data_of plain_text ltp_na = Raise ValueError
  /\ raised (@handle_depth_update plain_text bids_5 nifty) = true
  /\ raised (@handle_depth_update plain_text ltp_na nifty) = true
  /\ dict_get 24600
       (option_data (state_of (@handle_depth_update plain_text bids_5 nifty)))
     = Some r
  /\ dict_get 24600
       (option_data (state_of (@handle_depth_update plain_text ltp_na nifty)))
     = Some r
  /\ ce_data r = empty_quote.
Proof.
  cbv zeta.
  repeat (split; [vm_compute; reflexivity|]). reflexivity.
Qed.

(** ** Rows tagged ATM *)

Lemma filter_none {A} (f : A -> bool) (l : list A) :
  (forall x, In x l -> f x = false) -> List.filter f l = [].
Proof.
  induction l as [|x l IH]; cbn; [reflexivity|]. intros F.
  rewrite (F x) by now left. apply IH. intros y I. apply F. now right.
Qed.

Lemma filter_all {A} (f : A -> bool) (l : list A) :
  (forall x, In x l -> f x = true) -> List.filter f l = l.
Proof.
  induction l as [|x l IH]; cbn; [reflexivity|]. intros F.
  rewrite (F x) by now left. f_equal. apply IH. intros y I. apply F. now right.
Qed.

Lemma filter_unique {A} (f : A -> bool) (key : A -> Z) (a : Z) (l : list A) :
  List.NoDup (map key l) ->
  (forall x, In x l -> f x = true <-> key x = a) ->
  In a (map key l) ->
  List.length (List.filter f l) = 1%nat.
Proof.
  induction l as [|x l IH]; cbn; [intros _ _ []|].
  intros ND F I. inversion ND as [|? ? Nx ND']; subst.
  destruct (Z.eq_dec (key x) a) as [E|N].
  - rewrite (proj2 (F x (or_introl eq_refl)) E). cbn. f_equal.
    rewrite filter_none; [reflexivity|].
    intros y Iy. destruct (f y) eqn:Fy; [|reflexivity].
    exfalso. apply Nx. rewrite E.
    rewrite <- (proj1 (F y (or_intror Iy)) Fy). now apply in_map.
  - destruct (f x) eqn:Fx.
    + exfalso. apply N. now apply (F x (or_introl eq_refl)).
    + apply IH;
        [ exact ND'
        | intros y Iy; apply F; now right
        | destruct I as [E|I]; [contradiction | exact I] ].
Qed.

(** In a grid that satisfies the invariant, with a non-zero ATM strike,
    the rows tagged ATM are those whose strike is the ATM strike. *)
Lemma tag_ATM_iff (s : chain) (k : Z) (r : row) :
  window_ok s -> tags_ok s -> atm_strike s <> 0 ->
  In (k, r) (option_data s) ->
  tag r = "ATM" <-> k = atm_strike s.
Proof.
  intros W T Na I. destruct (T k r I) as [Ep Et].
  rewrite Et, get_position_tag_ATM, Ep. unfold get_strike_position.
  rewrite (proj2 (Z.eqb_neq _ _) Na).
  pose proof (ok_step s W) as St.
  destruct (ok_atm s W) as [c Ec].
  destruct (ok_window s W) as [E|(base & [b Eb] & Ek)];
    [rewrite E in I; destruct I|].
  assert (Ik : In k (dict_keys (option_data s))) by exact (in_map fst _ _ I).
  rewrite Ek in Ik. apply in_map_iff in Ik. destruct Ik as (i & <- & _).
  rewrite Ec, Eb.
  replace (b * strike_step s + i * strike_step s - c * strike_step s)
    with ((b + i - c) * strike_step s) by ring.
  rewrite Z.div_mul by lia. split; intros E; nia.
Qed.

(** C2, as the code has it.  In every reachable state with a
    non-zero ATM strike, the rows tagged ATM are exactly the rows whose
    strike equals the ATM strike: exactly one row is tagged ATM when the
    ATM strike is one of the generated strikes, and none is when a quote
    has moved the ATM strike outside the generated window.  When the ATM
    strike has been recomputed to 0, every row is tagged ATM. *)
Theorem atm_tag_invariant `{PyText} (s : chain) :
  reachable s ->
  (atm_strike s <> 0 ->
   (forall k r, In (k, r) (option_data s) ->
                tag r = "ATM" <-> k = atm_strike s)
   /\ (In (atm_strike s) (dict_keys (option_data s)) ->
       List.length (atm_rows s) = 1%nat)
   /\ (~ In (atm_strike s) (dict_keys (option_data s)) ->
       List.length (atm_rows s) = 0%nat))
  /\ (atm_strike s = 0 -> atm_rows s = option_data s).
Proof.
  intros R. destruct (reachable_invariant s R) as (W & T & _). split.
  - intros Na.
    assert (Iff : forall kr, In kr (option_data s) ->
              String.eqb (tag kr.2) "ATM" = true <-> kr.1 = atm_strike s).
    { intros [k r] I. rewrite String.eqb_eq. now apply tag_ATM_iff. }
    split; [intros k r I; now apply tag_ATM_iff|]. split.
    + intros I. unfold atm_rows.
      apply (filter_unique _ fst (atm_strike s)); auto.
      apply (window_keys_NoDup s W).
    + intros N. unfold atm_rows. rewrite filter_none; [reflexivity|].
      intros kr I. destruct (String.eqb (tag kr.2) "ATM") eqn:E; [|reflexivity].
      exfalso. apply N. rewrite <- (proj1 (Iff kr I) E).
      now apply (in_map fst).
  - intros Z0. unfold atm_rows. apply filter_all. intros [k r] I.
    destruct (T k r I) as [Ep Et]. cbn. rewrite Et, Ep.
    unfold get_strike_position. now rewrite Z0.
Qed.

Lemma atm_tag_invariant_witness : List.length (atm_rows nifty) = 1%nat.
Proof.
  refine (proj1 (proj2 (proj1 (@atm_tag_invariant plain_text nifty
                                  reachable_nifty) _)) _).
  - vm_compute. discriminate.
  - vm_compute. do 20 right. left. reflexivity.
Defined.

(** The statement of the spec fails once a quote moves the ATM strike
    outside the window: the state is reachable, the rows are there, the
    ATM strike 30000 has been computed, the highest generated strike is
    25550 and no row is tagged ATM. *)
Lemma atm_outside_window_counterexample :
  @reachable plain_text nifty_at_30000
  /\ option_data nifty_at_30000 <> []
  /\ atm_strike nifty_at_30000 = 30000
  /\ List.length (atm_rows nifty_at_30000) = 0%nat
  /\ List.length (atm_rows nifty_at_30000) <> 1%nat.
Proof.
  split.
  - apply reach_quote; [apply reachable_nifty | reflexivity].
  - vm_compute. repeat split; discriminate.
Qed.

(** * Further properties *)

(** ** The connection *)

Section ConnectionFacts.
Context {H W : Type} (run : H -> json -> W -> outcome W).

(** X1.  A message whose type is auth never reaches a handler, whatever
    else it carries; unless its status is success it changes nothing at
    all, so the connection stays as it was. *)
Theorem auth_message_not_forwarded (m : manager H)
    (kvs : list (string * json)) (w : W) :
  assoc "type" kvs = Some (JStr "auth") ->
  (WS.on_message run (Some (JObj kvs)) m w).2 = w
  /\ (py_eq_str (field kvs "status") "success" = false ->
      WS.on_message run (Some (JObj kvs)) m w = (m, w)).
Proof.
  intros Ht. unfold WS.on_message, py_get, py_get_d, field. rewrite Ht. cbn.
  destruct (assoc "status" kvs) as [st|]; cbn.
  - destruct (py_eq_str st "success"); cbn.
    + split; [|discriminate]. case_match; reflexivity.
    + auto.
  - auto.
Qed.

(** X2.  A message that is not a JSON object, or an object that is
    neither an auth message nor market data and has no ltp, is dropped:
    the connection and the rest of the program are unchanged and nothing
    is raised. *)
Theorem irrelevant_message_dropped (m : manager H) (w : W) :
  (forall data, (forall kvs, data <> JObj kvs) ->
     WS.on_message run (Some data) m w = (m, w))
  /\ (forall kvs,
        py_eq_str (field kvs "type") "auth" = false ->
        py_eq_str (field kvs "type") "market_data" = false ->
        field kvs "ltp" = JNull ->
        WS.on_message run (Some (JObj kvs)) m w = (m, w)).
Proof.
  split.
  - intros data N. destruct data as [| | | | |kvs]; try reflexivity.
    now destruct (N kvs).
  - intros kvs Ha Hm Hl. unfold WS.on_message, py_get, py_get_d, field in *.
    destruct (assoc "type" kvs) as [ty|]; cbn in *;
      rewrite ?Ha, ?Hm; cbn;
      destruct (assoc "ltp" kvs) as [l|]; cbn in *; subst; reflexivity.
Qed.

(** X3.  A market-data message that wraps its payload in a data field
    is handled as the payload alone: classification and delivery see the
    inner object, not the wrapper. *)
Theorem nested_payload_unwrapped (m : manager H)
    (kvs inner : list (string * json)) (w : W) :
  assoc "data" kvs = Some (JObj inner) ->
  assoc "data" inner = None ->
  WS.process_market_data run m (JObj kvs) w
  = WS.process_market_data run m (JObj inner) w.
Proof.
  intros Hk Hi. unfold WS.process_market_data, py_get_d. now rewrite Hk, Hi.
Qed.

End ConnectionFacts.

Lemma auth_message_not_forwarded_witness :
  WS.on_message (recording (fun _ => false))
    (Some (JObj [("type", JStr "auth"); ("status", JStr "error");
                 ("ltp", JNum 1); ("depth", JObj [])]))
    three_handlers []
  = (three_handlers, []).
Proof.
  refine (proj2 (auth_message_not_forwarded (recording (fun _ => false))
                   three_handlers
                   [("type", JStr "auth"); ("status", JStr "error");
                    ("ltp", JNum 1); ("depth", JObj [])] [] _) _);
    reflexivity.
Defined.

Lemma nested_payload_unwrapped_witness :
  WS.process_market_data (recording (fun _ => false)) three_handlers
    (JObj [("type", JStr "market_data");
           ("data", JObj [("symbol", JStr "NIFTY"); ("bids", JArr [])])]) []
  = Done [("on_depth", JObj [("symbol", JStr "NIFTY"); ("bids", JArr [])])].
Proof.
  refine (eq_trans
            (nested_payload_unwrapped (recording (fun _ => false))
               three_handlers
               [("type", JStr "market_data");
                ("data", JObj [("symbol", JStr "NIFTY"); ("bids", JArr [])])]
               [("symbol", JStr "NIFTY"); ("bids", JArr [])] [] _ _) _);
    reflexivity.
Defined.

(** X4.  A depth-mode or quote-mode message is handed to every handler
    registered for its mode, once each and in registration order, also
    when some of them raise: with handlers that log their calls, the log
    grows by one entry per handler, in that order. *)
Theorem message_delivered_in_order (fails : string -> bool)
    (m : manager string) (kvs : list (string * json))
    (log : list (string * json)) :
  py_eq_str (field kvs "type") "auth" = false ->
  py_eq_str (field kvs "type") "market_data" = true
  \/ field kvs "ltp" <> JNull ->
  assoc "data" kvs = None ->
  (WS.classify (JObj kvs) = Ok "depth" ->
   WS.on_message (recording fails) (Some (JObj kvs)) m log
   = (m, (log ++ map (fun h => (h, JObj kvs)) (depth_handlers m))%list))
  /\ (WS.classify (JObj kvs) = Ok "quote" ->
      WS.on_message (recording fails) (Some (JObj kvs)) m log
      = (m, (log ++ map (fun h => (h, JObj kvs)) (quote_handlers m))%list)).
Proof.
  intros Ha Hm Hd.
  assert (E : WS.on_message (recording fails) (Some (JObj kvs)) m log
              = (m, state_of (WS.process_market_data (recording fails) m
                                (JObj kvs) log))).
  { unfold WS.on_message, py_get, py_get_d, field in *. rewrite Ha.
    destruct Hm as [->|N]; [reflexivity|].
    destruct (py_eq_str _ "market_data"); [reflexivity|]. cbn.
    destruct (assoc "ltp" kvs) as [[]|]; try reflexivity; now destruct N. }
  rewrite E. unfold WS.process_market_data, py_get_d. rewrite Hd.
  split; intros ->; cbn; now rewrite deliver_recording.
Qed.

Lemma message_delivered_in_order_witness :
  WS.on_message (recording (fun name => String.eqb name "first"))
    (Some (JObj [("symbol", JStr "NIFTY"); ("ltp", JNum 1);
                 ("bids", JArr [])]))
    (WS.register_handler "depth" "second"
       (WS.register_handler "depth" "first" WS.init))
    []
  = (WS.register_handler "depth" "second"
       (WS.register_handler "depth" "first" WS.init),
     [("first", JObj [("symbol", JStr "NIFTY"); ("ltp", JNum 1);
                      ("bids", JArr [])]);
      ("second", JObj [("symbol", JStr "NIFTY"); ("ltp", JNum 1);
                       ("bids", JArr [])])]).
Proof.
  refine (proj1 (message_delivered_in_order
                   (fun name => String.eqb name "first")
                   (WS.register_handler "depth" "second"
                      (WS.register_handler "depth" "first" WS.init))
                   [("symbol", JStr "NIFTY"); ("ltp", JNum 1);
                    ("bids", JArr [])] [] _ _ _) _); try reflexivity.
  right. discriminate.
Defined.

(** ** Subscriptions *)

Section SubscriptionBatches.
Context {H : Type}.

Lemma subscribe_batch_accepted (instruments : list subscription)
    (mode : string) (m : manager H) (frames : list frame) :
  authenticated m = true ->
  ws m = Some frames ->
  WS.subscribe_batch instruments mode m
  = Manager (Some (frames
                   ++ map (fun inst => frame_of (batch_entry mode inst))
                          instruments)%list)
            (active m) true
            (list_to_set (map (batch_entry mode) instruments)
             ∪ subscriptions m)
            (ws_url m) (api_key m)
            (quote_handlers m) (depth_handlers m) (ltp_handlers m).
Proof.
  unfold WS.subscribe_batch. revert m frames.
  induction instruments as [|inst rest IH]; intros m frames Ha Hw.
  - cbn. rewrite app_nil_r, union_empty_l_L. destruct m; cbn in *. now subst.
  - cbn [fold_left].
    change [("symbol", WS.sub_get "symbol" inst);
            ("exchange", WS.sub_get "exchange" inst); ("mode", Some mode)]
      with (batch_entry mode inst).
    rewrite (subscribe_accepted (batch_entry mode inst) m frames Ha Hw).
    cbn [snd].
    rewrite (IH _ (frames ++ [frame_of (batch_entry mode inst)])%list);
      [|reflexivity|reflexivity].
    cbn. rewrite <- app_assoc. cbn. f_equal.
    rewrite (assoc_L (∪)).
    now rewrite (comm_L (∪) (list_to_set (map (batch_entry mode) rest))).
Qed.

Lemma subscribe_batch_rejected (instruments : list subscription)
    (mode : string) (m : manager H) :
  authenticated m = false -> WS.subscribe_batch instruments mode m = m.
Proof.
  intros Ha. unfold WS.subscribe_batch.
  induction instruments as [|inst rest IH]; cbn; [reflexivity|].
  now rewrite subscribe_rejected.
Qed.

(** X5.  On an authenticated connection a batch of N instruments sends
    exactly N subscribe frames, one per instrument and in the order of
    the batch, each with the mode of the batch and depth 5, and records
    every one of them; on a connection that is not authenticated the
    whole batch is refused: nothing is sent and nothing is recorded. *)
Theorem subscribe_batch_frames (instruments : list subscription)
    (mode : string) (m : manager H) (frames : list frame) :
  ws m = Some frames ->
  (authenticated m = true ->
   let after := WS.subscribe_batch instruments mode m in
   WS.sent after
   = (frames
      ++ map (fun inst =>
                FSubscribe (WS.sub_get "symbol" inst)
                           (WS.sub_get "exchange" inst)
                           (WS.mode_num (Some mode)) 5)
             instruments)%list
   /\ List.length (WS.sent after)
      = (List.length frames + List.length instruments)%nat
   /\ subscriptions after
      = list_to_set (map (batch_entry mode) instruments) ∪ subscriptions m)
  /\ (authenticated m = false ->
      WS.subscribe_batch instruments mode m = m).
Proof.
  intros Hw. split.
  - intros Ha after. subst after.
    rewrite (subscribe_batch_accepted instruments mode m frames Ha Hw).
    cbn. split; [reflexivity|]. split; [|reflexivity].
    now rewrite length_app, length_map.
  - apply subscribe_batch_rejected.
Qed.

(** X6.  The subscriptions are a set: asking twice for the same
    subscription sends the frame twice and records it once. *)
Theorem subscribe_twice_recorded_once (sub : subscription) (m : manager H)
    (frames : list frame) :
  authenticated m = true ->
  ws m = Some frames ->
  let once := (WS.subscribe sub m).2 in
  let twice := (WS.subscribe sub once).2 in
  (WS.subscribe sub once).1 = true
  /\ WS.sent twice = (frames ++ [frame_of sub; frame_of sub])%list
  /\ subscriptions twice = subscriptions once
  /\ subscriptions once = {[ sub ]} ∪ subscriptions m.
Proof.
  intros Ha Hw once twice. subst twice once.
  rewrite (subscribe_accepted sub m frames Ha Hw). cbn [snd].
  rewrite (subscribe_accepted sub _ (frames ++ [frame_of sub])%list);
    [|reflexivity|reflexivity].
  cbn. rewrite <- app_assoc. cbn.
  repeat split. now rewrite (assoc_L (∪)), (idemp_L (∪)).
Qed.

(** X7.  A reconnect keeps the recorded subscriptions and the handlers
    but drops the authentication: after [connect] and [on_open] the only
    frame on the new socket is the authenticate frame with the key, a
    subscribe call is refused, and the auth-success message that follows
    replays every recorded subscription on the new socket. *)
Theorem reconnect_replays_subscriptions {W : Type}
    (run : H -> json -> W -> outcome W) (url key : string)
    (m : manager H) (w : W) :
  let opened := WS.on_open (WS.connect url key m).2 in
  let after :=
    (WS.on_message run
       (Some (JObj [("type", JStr "auth"); ("status", JStr "success")]))
       opened w).1 in
  WS.sent opened = [FAuthenticate (Some key)]
  /\ (forall sub, WS.subscribe sub opened = (false, opened))
  /\ authenticated after = true
  /\ subscriptions after = subscriptions m
  /\ WS.sent after
     = (FAuthenticate (Some key)
        :: map frame_of (elements (subscriptions m)))
  /\ (quote_handlers after, depth_handlers after, ltp_handlers after)
     = (quote_handlers m, depth_handlers m, ltp_handlers m).
Proof.
  intros opened after.
  split; [reflexivity|]. split; [intros sub; now apply subscribe_rejected|].
  subst after. unfold WS.on_message. cbn.
  destruct (decide (subscriptions m = ∅)) as [E0|N0].
  - cbn. rewrite E0, elements_empty. repeat split.
  - unfold WS.resubscribe_all.
    rewrite (resubscribe_fold _ _ [FAuthenticate (Some key)]); cbn; auto.
    intros sub I. apply list_elem_of_In in I. now apply elem_of_elements in I.
Qed.

End SubscriptionBatches.

Lemma subscribe_batch_frames_witness :
  WS.subscribe_batch
    [[("symbol", Some "NIFTY28AUG2524600CE"); ("exchange", Some "NFO")]]
    "depth" (WS.connect "ws://localhost:8765" "key" (WS.init (H := unit))).2
  = (WS.connect "ws://localhost:8765" "key" WS.init).2.
Proof.
  refine (proj2 (subscribe_batch_frames
                   [[("symbol", Some "NIFTY28AUG2524600CE");
                     ("exchange", Some "NFO")]]
                   "depth"
                   (WS.connect "ws://localhost:8765" "key" WS.init).2 [] _) _);
    reflexivity.
Defined.

Lemma subscribe_twice_recorded_once_witness :
  subscriptions (WS.subscribe nifty_quote subscribed).2
  = subscriptions subscribed.
Proof.
  refine (proj1 (proj2 (proj2 (subscribe_twice_recorded_once nifty_quote
            (WS.on_message silent (Some auth_success)
               (WS.on_open (WS.connect "ws://localhost:8765" "key" WS.init).2)
               tt).1
            [FAuthenticate (Some "key")] _ _)))); reflexivity.
Defined.

(** ** Depth ticks, either side *)

Lemma dict_set_set {V} (k : Z) (v v' : V) (d : list (Z * V)) :
  dict_set k v' (dict_set k v d) = dict_set k v' d.
Proof.
  induction d as [|[k0 v0] d IH]; cbn.
  - now rewrite Z.eqb_refl.
  - destruct (Z.eqb k k0) eqn:E; cbn.
    + now rewrite Z.eqb_refl.
    + now rewrite E, IH.
Qed.

(** A depth tick for a symbol of a row, on a grid that satisfies the
    invariant: the side of that row is replaced. *)
Lemma depth_update_run `{PyText} (self : chain) (data : json) (k : Z)
    (r : row) (t : option_type) (q : side_quote) :
  window_ok self ->
  In (k, r) (option_data self) ->
  depth_symbol data = Ok (JStr (symbol_of t r)) ->
  depth_data_of data = Ok q ->
  handle_depth_update data self
  = Done (with_option_data
            (dict_set k (with_side t q r) (option_data self)) self).
Proof.
  intros W I Hs Hq.
  destruct (ok_rows self W k r I) as (_ & Ec & Ep).
  pose proof (ok_routing self W k r t I) as Rt.
  assert (Es : symbol_of t r = construct_option_symbol self k t)
    by (destruct t; assumption).
  rewrite <- Es in Rt.
  pose proof (dict_get_NoDup k r _ (window_keys_NoDup self W) I) as Eg.
  unfold handle_depth_update. rewrite Hs. cbn. rewrite Rt, Hq.
  unfold update_option_depth. rewrite Eg. now destruct t.
Qed.

(** X8.  In a reachable state, a depth tick whose symbol is the put
    symbol of a row replaces the put side of that row by the quote built
    from the tick and changes nothing else: the call side, the tag, the
    position and the symbols of the row, every other row, the routing
    table and the underlying fields stay as they were. *)
Theorem handle_depth_update_pe_only `{PyText}
    (self : chain) (data : json) (k : Z) (r : row) (q : side_quote) :
  reachable self ->
  In (k, r) (option_data self) ->
  depth_symbol data = Ok (JStr (pe_symbol r)) ->
  depth_data_of data = Ok q ->
  let after :=
    with_option_data (dict_set k (with_pe_data q r) (option_data self)) self in
  handle_depth_update data self = Done after
  /\ dict_get k (option_data after) = Some (with_pe_data q r)
  /\ ce_data (with_pe_data q r) = ce_data r
  /\ (forall k', k' <> k ->
        dict_get k' (option_data after) = dict_get k' (option_data self))
  /\ dict_keys (option_data after) = dict_keys (option_data self).
Proof.
  intros R I Hs Hq after.
  destruct (reachable_invariant self R) as (W & _ & _).
  split; [exact (depth_update_run self data k r PE q W I Hs Hq)|].
  subst after. cbn.
  split; [apply dict_get_set_eq|]. split; [reflexivity|].
  split; [intros k' N; now apply dict_get_set_ne|].
  apply dict_set_keys. apply (in_map fst) in I. exact I.
Qed.

Lemma handle_depth_update_pe_only_witness :
  @handle_depth_update plain_text
    (JObj [("symbol", JStr "NIFTY28AUG2524600PE"); ("ltp", JNum 95);
           ("oi", JNum 1200)])
    nifty
  = Done (with_option_data
            (dict_set 24600
               (Row 24600 "OTM1" 1 "NIFTY28AUG2524600CE" "NIFTY28AUG2524600PE"
                    empty_quote (SideQuote 95 0 0 0 0 0 0 1200))
               (option_data nifty))
            nifty).
Proof.
  refine (proj1 (@handle_depth_update_pe_only plain_text nifty
            (JObj [("symbol", JStr "NIFTY28AUG2524600PE"); ("ltp", JNum 95);
                   ("oi", JNum 1200)])
            24600
            (Row 24600 "OTM1" 1 "NIFTY28AUG2524600CE" "NIFTY28AUG2524600PE"
                 empty_quote empty_quote)
            (SideQuote 95 0 0 0 0 0 0 1200)
            reachable_nifty _ _ _)).
  - vm_compute. do 21 right. left. reflexivity.
  - reflexivity.
  - reflexivity.
Defined.

(** X9.  A depth update replaces the side as a whole: when two ticks
    for the same symbol arrive one after the other, the state is the one
    the second tick alone would have produced; nothing of the first quote
    survives. *)
Theorem last_depth_update_wins `{PyText}
    (self : chain) (first second : json) (k : Z) (r : row) (t : option_type)
    (q1 q2 : side_quote) :
  reachable self ->
  In (k, r) (option_data self) ->
  depth_symbol first = Ok (JStr (symbol_of t r)) ->
  depth_symbol second = Ok (JStr (symbol_of t r)) ->
  depth_data_of first = Ok q1 ->
  depth_data_of second = Ok q2 ->
  handle_depth_update second (state_of (handle_depth_update first self))
  = handle_depth_update second self
  /\ option_map (side_of t)
       (dict_get k (option_data
                      (state_of (handle_depth_update second
                                   (state_of (handle_depth_update first self))))))
     = Some q2.
Proof.
  intros R I S1 S2 Q1 Q2.
  destruct (reachable_invariant self R) as (W & T & _).
  rewrite (depth_update_run self first k r t q1 W I S1 Q1). cbn [state_of].
  rewrite (depth_update_run self second k r t q2 W I S2 Q2).
  set (s1 := with_option_data _ self).
  assert (W1 : window_ok s1).
  { pose proof (update_option_depth_ok k t q1 self W T) as [W1 _].
    unfold update_option_depth in W1.
    rewrite (dict_get_NoDup k r _ (window_keys_NoDup self W) I) in W1.
    destruct t; exact W1. }
  assert (I1 : In (k, with_side t q1 r) (option_data s1)).
  { apply dict_get_In. subst s1. cbn. apply dict_get_set_eq. }
  assert (S2' : depth_symbol second = Ok (JStr (symbol_of t (with_side t q1 r))))
    by (destruct t; exact S2).
  rewrite (depth_update_run s1 second k _ t q2 W1 I1 S2' Q2).
  subst s1. cbn. rewrite dict_set_set.
  assert (E : with_side t q2 (with_side t q1 r) = with_side t q2 r)
    by (destruct t; reflexivity).
  rewrite E. split; [reflexivity|].
  rewrite dict_get_set_eq. cbn. now destruct t.
Qed.

Lemma last_depth_update_wins_witness :
  @handle_depth_update plain_text
    (JObj [("symbol", JStr "NIFTY28AUG2524600CE"); ("ltp", JNum 121)])
    (state_of
       (@handle_depth_update plain_text
          (JObj [("symbol", JStr "NIFTY28AUG2524600CE"); ("ltp", JNum 120);
                 ("oi", JNum 500)])
          nifty))
  = @handle_depth_update plain_text
      (JObj [("symbol", JStr "NIFTY28AUG2524600CE"); ("ltp", JNum 121)])
      nifty.
Proof.
  refine (proj1 (@last_depth_update_wins plain_text nifty
            (JObj [("symbol", JStr "NIFTY28AUG2524600CE"); ("ltp", JNum 120);
                   ("oi", JNum 500)])
            (JObj [("symbol", JStr "NIFTY28AUG2524600CE"); ("ltp", JNum 121)])
            24600
            (Row 24600 "OTM1" 1 "NIFTY28AUG2524600CE" "NIFTY28AUG2524600PE"
                 empty_quote empty_quote)
            CE (SideQuote 120 0 0 0 0 0 0 500) (SideQuote 121 0 0 0 0 0 0 0)
            reachable_nifty _ _ _ _ _)); try reflexivity.
  vm_compute. do 21 right. left. reflexivity.
Defined.

(** ** Decoding a depth tick *)

(** X10.  A field that is missing or falsy counts as zero: a tick with
    no depth, bids, asks, ltp, last_price, volume or oi of substance
    decodes to the all-zero quote, and nothing is raised. *)
Theorem depth_data_zero_defaults `{PyText} (kvs : list (string * json)) :
  falsy_field kvs "depth" -> falsy_field kvs "bids" ->
  falsy_field kvs "asks" -> falsy_field kvs "ltp" ->
  falsy_field kvs "last_price" -> falsy_field kvs "volume" ->
  falsy_field kvs "oi" ->
  depth_data_of (JObj kvs) = Ok empty_quote.
Proof.
  unfold falsy_field, depth_data_of, py_get, py_get_d, best_level, py_or,
    float_or_0, int_or_0.
  intros Fd Fb Fa Fl Fp Fv Fo. cbn.
  destruct (assoc "depth" kvs) as [d|]; cbn; rewrite ?Fd; cbn;
    destruct (assoc "bids" kvs) as [b|]; cbn; rewrite ?Fb; cbn;
    destruct (assoc "asks" kvs) as [a|]; cbn; rewrite ?Fa; cbn;
    destruct (assoc "ltp" kvs) as [l|]; cbn; rewrite ?Fl; cbn;
    destruct (assoc "last_price" kvs) as [p|]; cbn; rewrite ?Fp; cbn;
    destruct (assoc "volume" kvs) as [v|]; cbn; rewrite ?Fv; cbn;
    destruct (assoc "oi" kvs) as [o|]; cbn; rewrite ?Fo; cbn;
    reflexivity.
Qed.

Lemma depth_data_zero_defaults_witness :
  @depth_data_of plain_text
    (JObj [("symbol", JStr "NIFTY28AUG2524600CE"); ("ltp", JNull);
           ("volume", JNum 0); ("bids", JArr [])])
  = Ok empty_quote.
Proof.
  refine (@depth_data_zero_defaults plain_text
            [("symbol", JStr "NIFTY28AUG2524600CE"); ("ltp", JNull);
             ("volume", JNum 0); ("bids", JArr [])] _ _ _ _ _ _ _);
    reflexivity.
Defined.

(** X11.  The book may list its levels as pairs or as objects with a
    price and a quantity: both spellings decode to the same quote, and
    only the first level of each side is read. *)
Theorem depth_levels_either_shape `{PyText}
    (kvs : list (string * json)) (bid bid_qty ask ask_qty : json)
    (more_bid more_ask deeper_bids deeper_asks : list json) :
  depth_data_of
    (JObj (("bids", JArr (JArr (bid :: bid_qty :: more_bid) :: deeper_bids))
           :: ("asks", JArr (JArr (ask :: ask_qty :: more_ask) :: deeper_asks))
           :: kvs))
  = depth_data_of
      (JObj (("bids", JArr [JObj [("price", bid); ("quantity", bid_qty)]])
             :: ("asks", JArr [JObj [("price", ask); ("quantity", ask_qty)]])
             :: kvs)).
Proof.
  unfold depth_data_of, py_get_d. cbn.
  destruct (truthy match assoc "depth" kvs with
                   | Some v => v
                   | None => JObj []
                   end); reflexivity.
Qed.

(** ** Initialisation, again *)

Lemma initialize_initialized (client : api) (self : chain) :
  initialized (initialize client self).2 = true.
Proof.
  unfold initialize. destruct (initialized self) eqn:E; [exact E|].
  reflexivity.
Qed.

(** X12.  [initialize] is idempotent: a second call, with any client,
    returns True and leaves the state of the first call untouched, so
    there are no new rows, routing entries, handlers or subscriptions. *)
Theorem initialize_idempotent (first second : api) (self : chain) :
  initialize second (initialize first self).2
  = (true, (initialize first self).2).
Proof.
  unfold initialize at 1. now rewrite initialize_initialized.
Qed.

(** ** Quote ticks, again *)

Lemma truthy_positive (price : Q) : (0 < price)%Q -> truthy (JNum price) = true.
Proof.
  intros Hp. cbn. destruct (Qeq_bool price 0) eqn:E; [|reflexivity].
  apply Qeq_bool_eq in E. rewrite E in Hp. now apply Qlt_irrefl in Hp.
Qed.

Lemma calculate_atm_cached (self : chain) (price : Q) :
  underlying_ltp self = JNum price -> (0 < price)%Q ->
  calculate_atm self
  = (py_round (price / inject_Z (strike_step self)) * strike_step self,
     with_atm_strike
       (py_round (price / inject_Z (strike_step self)) * strike_step self)
       self).
Proof.
  intros El Hp. unfold calculate_atm, has_cached_ltp, atm_for. rewrite El.
  rewrite (truthy_positive price Hp). cbn.
  destruct (Qlt_le_dec 0 price) as [L|L]; [reflexivity|].
  exfalso. apply (Qlt_not_le _ _ Hp L).
Qed.

(** The last two assignments of [handle_quote_update] touch the bid and
    the ask of the underlying only. *)
Lemma quote_tail_fields (bid_v ask_v : res Q) (s : chain) :
  let after :=
    state_of
      match bid_v with
      | Ok b =>
          match ask_v with
          | Ok a => Done (with_underlying_ask (JNum a)
                            (with_underlying_bid (JNum b) s))
          | Raise e => Raised e (with_underlying_bid (JNum b) s)
          end
      | Raise e => Raised e s
      end in
  same_grid s after
  /\ atm_strike after = atm_strike s
  /\ underlying_ltp after = underlying_ltp s
  /\ websocket_manager after = websocket_manager s.
Proof. destruct bid_v, ask_v; cbn; repeat split. Qed.

(** A quote tick for the underlying with a positive price: the price is
    stored, the ATM strike is computed from it, the grid is generated or
    re-tagged if the strike moved, and the bid and the ask are
    stored. *)
Lemma positive_quote_run `{PyText} (kvs : list (string * json)) (self : chain)
    (price : Q) :
  assoc "symbol" kvs = Some (JStr (underlying self)) ->
  assoc "ltp" kvs = Some (JNum price) ->
  (0 < price)%Q ->
  exists bid_v ask_v,
    handle_quote_update (JObj kvs) self
    = let s :=
        after_atm_change (atm_strike self)
          (with_atm_strike
             (py_round (price / inject_Z (strike_step self)) * strike_step self)
             (with_underlying_ltp (JNum price) self)) in
      match bid_v with
      | Ok b =>
          match ask_v with
          | Ok a => Done (with_underlying_ask (JNum a)
                            (with_underlying_bid (JNum b) s))
          | Raise e => Raised e (with_underlying_bid (JNum b) s)
          end
      | Raise e => Raised e s
      end.
Proof.
  intros Hs Hl Hp. unfold handle_quote_update, py_get_d. rewrite Hs, Hl.
  cbn [py_eq_str]. rewrite String.eqb_refl. cbn [negb].
  rewrite (truthy_positive price Hp). cbn [negb py_float].
  rewrite (calculate_atm_cached (with_underlying_ltp (JNum price) self) price
             eq_refl Hp).
  do 2 eexists. reflexivity.
Qed.

Lemma after_atm_change_fields (old_atm : Z) (mid : chain) :
  atm_strike (after_atm_change old_atm mid) = atm_strike mid
  /\ underlying_ltp (after_atm_change old_atm mid) = underlying_ltp mid
  /\ strike_step (after_atm_change old_atm mid) = strike_step mid.
Proof.
  unfold after_atm_change. destruct (negb (Z.eqb old_atm (atm_strike mid)));
    [|repeat split].
  destruct (option_data mid) as [|kr rest]; [|repeat split].
  destruct (generate_strikes_same mid) as (_&_&Gs&Gl&_&_&Ga&_).
  assert (E : exists m,
             match websocket_manager (generate_strikes mid) with
             | Some m0 => if authenticated m0
                          then batch_subscribe_options (generate_strikes mid)
                          else generate_strikes mid
             | None => generate_strikes mid
             end = with_websocket_manager m (generate_strikes mid)).
  { destruct (websocket_manager (generate_strikes mid)) as [m0|] eqn:Ew.
    - destruct (authenticated m0).
      + apply batch_subscribe_options_frame.
      + exists (Some m0). destruct (generate_strikes mid); cbn in *; now subst.
    - exists None. destruct (generate_strikes mid); cbn in *; now subst. }
  cbv zeta. destruct E as [m ->]. cbn. auto.
Qed.

(** X13.  A quote tick for the underlying with a positive price P stores
    P as the price of the underlying and sets the ATM strike to
    round(P/S)*S from that price alone, also when the bid or the ask of
    the tick cannot be read. *)
Theorem positive_quote_sets_atm `{PyText} (kvs : list (string * json))
    (self : chain) (price : Q) :
  assoc "symbol" kvs = Some (JStr (underlying self)) ->
  assoc "ltp" kvs = Some (JNum price) ->
  (0 < price)%Q ->
  let after := state_of (handle_quote_update (JObj kvs) self) in
  underlying_ltp after = JNum price
  /\ atm_strike after
     = py_round (price / inject_Z (strike_step self)) * strike_step self
  /\ strike_step after = strike_step self.
Proof.
  intros Hs Hl Hp after. subst after.
  destruct (positive_quote_run kvs self price Hs Hl Hp) as (bid_v & ask_v & ->).
  cbv zeta.
  match goal with
  | |- context [after_atm_change ?o ?m] =>
      destruct (after_atm_change_fields o m) as (Ea & El & Est);
      destruct (quote_tail_fields bid_v ask_v (after_atm_change o m))
        as ((_&_&Gs&_) & Ta & Tl & _)
  end.
  cbv zeta in Gs, Ta, Tl.
  rewrite Tl, Ta, Gs, El, Ea, Est. repeat split.
Qed.

Lemma positive_quote_sets_atm_witness :
  atm_strike
    (state_of (@handle_quote_update plain_text
                 (JObj [("symbol", JStr "NIFTY"); ("ltp", JNum 24612);
                        ("bid", JStr "n/a")])
                 nifty))
  = py_round (24612 / inject_Z 50) * 50.
Proof.
  refine (proj1 (proj2 (@positive_quote_sets_atm plain_text
            [("symbol", JStr "NIFTY"); ("ltp", JNum 24612);
             ("bid", JStr "n/a")] nifty 24612 _ _ _))); reflexivity.
Defined.

(** X14.  On an engine without rows and without an ATM strike, as
    [initialize] leaves it when no quote could be fetched, the first
    quote tick with a positive price whose ATM strike is not 0 generates
    the grid: 41 rows under the strikes ATM + i*S for i from -20 to 20,
    tagged and positioned by their offset, all with zero quotes. *)
Theorem quote_generates_grid `{PyText} (kvs : list (string * json))
    (self : chain) (price : Q) :
  assoc "symbol" kvs = Some (JStr (underlying self)) ->
  assoc "ltp" kvs = Some (JNum price) ->
  (0 < price)%Q ->
  option_data self = [] ->
  atm_strike self = 0 ->
  strike_step self <> 0 ->
  let step := strike_step self in
  let atm := py_round (price / inject_Z step) * step in
  let after := state_of (handle_quote_update (JObj kvs) self) in
  atm <> 0 ->
  map (fun kr => (kr.1, strike kr.2, tag kr.2, position kr.2,
                  ce_data kr.2, pe_data kr.2))
      (option_data after)
  = map (fun i => (atm + i * step, atm + i * step, grid_tag i, i,
                   empty_quote, empty_quote))
        (py_range (-20) 21)
  /\ List.length (option_data after) = 41%nat.
Proof.
  intros Hs Hl Hp He Ha Hst step atm after Hatm. subst after.
  destruct (positive_quote_run kvs self price Hs Hl Hp) as (bid_v & ask_v & ->).
  cbv zeta. fold step. fold atm.
  set (mid := with_atm_strike atm (with_underlying_ltp (JNum price) self)).
  destruct (quote_tail_fields bid_v ask_v (after_atm_change (atm_strike self) mid))
    as ((_&_&_&Go&_) & _).
  cbv zeta in Go. rewrite Go.
  assert (Eo : option_data (after_atm_change (atm_strike self) mid)
               = option_data (generate_strikes mid)).
  { unfold after_atm_change. rewrite Ha.
    change (atm_strike mid) with atm.
    rewrite (proj2 (Z.eqb_neq 0 atm)) by congruence. cbn [negb].
    change (option_data mid) with (option_data self). rewrite He.
    cbv zeta.
    destruct (websocket_manager (generate_strikes mid)) as [m0|]; [|reflexivity].
    destruct (authenticated m0); [|reflexivity].
    now destruct (batch_subscribe_options_frame (generate_strikes mid))
      as [m ->]. }
  rewrite Eo, (generate_strikes_empty mid He Hst Hatm).
  split.
  - rewrite map_map. reflexivity.
  - now rewrite length_map, length_py_range.
Qed.

Lemma quote_generates_grid_witness :
  List.length
    (option_data
       (state_of (@handle_quote_update plain_text
                    (JObj [("symbol", JStr "NIFTY"); ("ltp", JNum 24537)])
                    nifty_without_quote)))
  = 41%nat.
Proof.
  refine (proj2 (@quote_generates_grid plain_text
            [("symbol", JStr "NIFTY"); ("ltp", JNum 24537)]
            nifty_without_quote 24537 _ _ _ _ _ _ _)); try reflexivity;
    vm_compute; discriminate.
Defined.

(** X15.  A quote tick whose symbol is missing or is not the underlying
    is ignored: the state is unchanged and nothing is raised.  A tick
    that is not a JSON object raises and leaves the state unchanged. *)
Theorem quote_for_other_symbol_ignored `{PyText} (self : chain) :
  (forall kvs,
     py_eq_str match assoc "symbol" kvs with
               | Some v => v
               | None => JStr ""
               end (underlying self) = false ->
     handle_quote_update (JObj kvs) self = Done self)
  /\ (forall data, (forall kvs, data <> JObj kvs) ->
        handle_quote_update data self = Raised AttributeError self).
Proof.
  split.
  - intros kvs E. unfold handle_quote_update, py_get_d. now rewrite E.
  - intros data N. destruct data as [| | | | |kvs]; try reflexivity.
    now destruct (N kvs).
Qed.

Lemma Forall2_same_quotes_refl (l : list (Z * row)) : Forall2 same_quotes l l.
Proof. induction l; constructor; auto. repeat split. Qed.

(** X16.  A quote tick never touches the market data of the options: on
    a grid that has rows, every row keeps its key, strike, symbols and
    both side quotes, no row is added or removed, and the routing table
    is unchanged, whatever the tick carries. *)
Theorem quote_keeps_side_quotes `{PyText} (data : json) (self : chain) :
  option_data self <> [] ->
  let after := state_of (handle_quote_update data self) in
  Forall2 same_quotes (option_data self) (option_data after)
  /\ subscription_map after = subscription_map self.
Proof.
  intros Hne after. subst after.
  destruct (handle_quote_update_effect data self)
    as [_ G | mid _ _ _ He _ _ | mid Gm _ _ _ Ga _].
  - destruct G as (_&_&_&Go&Gr&_). rewrite Go, Gr.
    split; [apply Forall2_same_quotes_refl | reflexivity].
  - contradiction.
  - destruct Gm as (_&_&_&Go&Gr&_), Ga as (_&_&_&Go'&Gr'&_).
    cbn in Gr'. split; [|congruence].
    rewrite Go', <- Go.
    eapply Forall2_impl; [apply update_option_tags_relabelled|].
    intros old new (?&?&?&?&?&?&_). repeat split; assumption.
Qed.

Lemma quote_keeps_side_quotes_witness :
  subscription_map
    (state_of (@handle_quote_update plain_text
                 (JObj [("symbol", JStr "NIFTY"); ("ltp", JNum 30000)])
                 nifty_negative_oi))
  = subscription_map nifty_negative_oi.
Proof.
  refine (proj2 (@quote_keeps_side_quotes plain_text
            (JObj [("symbol", JStr "NIFTY"); ("ltp", JNum 30000)])
            nifty_negative_oi _)).
  vm_compute. discriminate.
Defined.

(** ** More invariants of the reachable states *)

Lemma spread_ok_empty : spread_ok empty_quote.
Proof. reflexivity. Qed.

(** The quote built from a tick has the spread of its bid and ask. *)
Lemma depth_data_of_spread `{PyText} (data : json) (q : side_quote) :
  depth_data_of data = Ok q -> spread_ok q.
Proof.
  unfold depth_data_of, res_bind.
  repeat match goal with
         | |- context [match ?x with Ok _ => _ | Raise _ => _ end] =>
             destruct x; try discriminate
         end.
  intros [= <-]. reflexivity.
Qed.

Lemma handle_depth_update_quote `{PyText} (data : json) (s : chain) :
  state_of (handle_depth_update data s) = s
  \/ exists k t q,
       depth_data_of data = Ok q
       /\ state_of (handle_depth_update data s) = update_option_depth k t q s.
Proof.
  unfold handle_depth_update.
  destruct (let? symbol := depth_symbol data in routing_lookup s symbol)
    as [[[k t]|]|e]; cbn; auto.
  destruct (depth_data_of data) as [q|e] eqn:E; cbn; eauto 6.
Qed.

(** Where the rows of the grid come from after strikes were added. *)
Lemma fold_add_strike_rows (infos : list (Z * string * Z)) (self : chain)
    (k : Z) (r : row) :
  In (k, r) (option_data (fold_left add_strike infos self)) ->
  In (k, r) (option_data self)
  \/ exists info, In info infos /\ k = info.1.1 /\ r = grid_row self info.
Proof.
  revert self. induction infos as [|info infos IH]; intros self I; cbn in I.
  - now left.
  - destruct (IH _ I) as [I0|(info' & I' & -> & ->)].
    + destruct info as [[k0 tg] p]. cbn in I0.
      destruct (in_dict_set _ _ _ _ _ I0) as [[-> ->]|I1].
      * right. exists (k0, tg, p). split; [now left | split; reflexivity].
      * now left.
    + right. exists info'. split; [now right|]. split; [reflexivity|].
      destruct info as [[k0 tg] p]. reflexivity.
Qed.

Lemma generate_strikes_rows (self : chain) (k : Z) (r : row) :
  In (k, r) (option_data (generate_strikes self)) ->
  In (k, r) (option_data self)
  \/ (ce_data r = empty_quote /\ pe_data r = empty_quote
      /\ strike r = k
      /\ ce_symbol r = construct_option_symbol self k CE
      /\ pe_symbol r = construct_option_symbol self k PE).
Proof.
  unfold generate_strikes. destruct (Z.eqb (atm_strike self) 0).
  { intros I. left. exact I. }
  intros I.
  destruct (fold_add_strike_rows
              (strike_list (atm_strike self) (strike_step self)) self k r I)
    as [I0|(info & _ & Ek & Er)].
  { left. exact I0. }
  right. rewrite Er, Ek. unfold grid_row.
  cbn [ce_data pe_data strike ce_symbol pe_symbol].
  split; [reflexivity|]. split; [reflexivity|]. split; [reflexivity|].
  split; reflexivity.
Qed.

(** The state [initialize] leaves when it runs: the client is stored,
    the ATM strike computed, the strikes generated, the connection set
    up. *)
Lemma initialize_effect (client : api) (self : chain) :
  initialized self = false ->
  exists m,
    (initialize client self).2
    = with_initialized true
        (with_websocket_manager m
           (generate_strikes
              (calculate_atm (with_api_client (Some client) self)).2)).
Proof.
  intros Ei. unfold initialize. rewrite Ei. cbn [snd].
  destruct (setup_depth_subscriptions_frame
              (generate_strikes
                 (calculate_atm (with_api_client (Some client) self)).2))
    as [m ->].
  now exists m.
Qed.

(** The rows after an operation are rows from before, with the same side
    quotes, or new rows with zero quotes. *)
Lemma initialize_rows (client : api) (self : chain) (k : Z) (r : row) :
  In (k, r) (option_data (initialize client self).2) ->
  In (k, r) (option_data self)
  \/ (ce_data r = empty_quote /\ pe_data r = empty_quote).
Proof.
  destruct (initialized self) eqn:Ei.
  - unfold initialize. rewrite Ei. now left.
  - destruct (initialize_effect client self Ei) as [m ->]. cbn.
    intros I. destruct (generate_strikes_rows _ _ _ I) as [I0|(?&?&_)].
    + left.
      destruct (calculate_atm_same_grid (with_api_client (Some client) self))
        as (_&_&_&Go&_).
      rewrite Go in I0. exact I0.
    + now right.
Qed.

Lemma quote_rows `{PyText} (data : json) (self : chain) (k : Z) (r : row) :
  In (k, r) (option_data (state_of (handle_quote_update data self))) ->
  (exists r0, In (k, r0) (option_data self)
              /\ ce_data r = ce_data r0 /\ pe_data r = pe_data r0)
  \/ (ce_data r = empty_quote /\ pe_data r = empty_quote).
Proof.
  destruct (handle_quote_update_effect data self)
    as [_ G | mid Gm _ _ He Ga _ | mid Gm _ _ _ Ga _].
  - destruct G as (_&_&_&->&_). intros I. left. now exists r.
  - destruct Ga as (_&_&_&->&_). intros I.
    destruct (generate_strikes_rows _ _ _ I) as [I0|(?&?&_)]; [|now right].
    destruct Gm as (_&_&_&Go&_). rewrite Go, He in I0. destruct I0.
  - destruct Ga as (_&_&_&->&_), Gm as (_&_&_&Go&_). cbn. rewrite Go.
    intros I. apply in_map_iff in I. destruct I as ([k0 r0] & [= <- <-] & I).
    left. exists r0. repeat split. exact I.
Qed.

Lemma spread_ok_rows_invariant `{PyText} (s : chain) :
  reachable s ->
  forall k r, In (k, r) (option_data s) ->
    spread_ok (ce_data r) /\ spread_ok (pe_data r).
Proof.
  induction 1 as [u e wsm | client s _ IH | data s _ IH Hi | data s _ IH Hi
                 | wsm s _ IH | s _ IH | s _ IH]; intros k r I.
  - destruct I.
  - destruct (initialize_rows _ _ _ _ I) as [I0|[-> ->]]; [now apply (IH k)|].
    split; apply spread_ok_empty.
  - destruct (quote_rows _ _ _ _ I) as [(r0 & I0 & -> & ->)|[-> ->]];
      [now apply (IH k)|].
    split; apply spread_ok_empty.
  - destruct (handle_depth_update_quote data s) as [E|(k0 & t & q & Eq & E)];
      rewrite E in I; [now apply (IH k)|].
    unfold update_option_depth in I.
    destruct (dict_get k0 (option_data s)) as [r0|] eqn:Eg; [|now apply (IH k)].
    cbn in I. destruct (in_dict_set _ _ _ _ _ I) as [[-> ->]|I0];
      [|now apply (IH k)].
    apply dict_get_In in Eg. destruct (IH k0 r0 Eg) as [Sc Sp].
    pose proof (depth_data_of_spread data q Eq) as Sq.
    destruct t; cbn; auto.
  - now apply (IH k).
  - now apply (IH k).
  - now apply (IH k).
Qed.

(** X17.  In every reachable state, on both sides of every row, the
    spread is ask - bid when the bid and the ask are both positive and 0
    otherwise. *)
Theorem spread_invariant `{PyText} (s : chain) (k : Z) (r : row) :
  reachable s ->
  In (k, r) (option_data s) ->
  spread_ok (ce_data r) /\ spread_ok (pe_data r).
Proof. intros R I. exact (spread_ok_rows_invariant s R k r I). Qed.

Lemma spread_invariant_witness :
  spread_ok (SideQuote (1205 # 10) 120 121 75 50 (121 - 120) 0 0)
  /\ spread_ok empty_quote.
Proof.
  refine (@spread_invariant plain_text
            (state_of
               (@handle_depth_update plain_text
                  (JObj [("symbol", JStr "NIFTY28AUG2524600CE");
                         ("ltp", JNum (1205 # 10));
                         ("bids", JArr [JArr [JNum 120; JNum 75]]);
                         ("asks", JArr [JArr [JNum 121; JNum 50]])])
                  nifty))
            24600
            (Row 24600 "OTM1" 1 "NIFTY28AUG2524600CE" "NIFTY28AUG2524600PE"
                 (SideQuote (1205 # 10) 120 121 75 50 (121 - 120) 0 0)
                 empty_quote)
            _ _).
  - apply reach_depth; [apply reachable_nifty | reflexivity].
  - vm_compute. do 21 right. left. reflexivity.
Defined.

Lemma irrelevant_message_dropped_witness :
  WS.on_message (recording (fun _ => false))
    (Some (JObj [("type", JStr "heartbeat"); ("depth", JObj [])]))
    three_handlers []
  = (three_handlers, []).
Proof.
  refine (proj2 (irrelevant_message_dropped (recording (fun _ => false))
                   three_handlers [])
                [("type", JStr "heartbeat"); ("depth", JObj [])] _ _ _);
    reflexivity.
Defined.

Lemma quote_for_other_symbol_ignored_witness :
  @handle_quote_update plain_text
    (JObj [("symbol", JStr "BANKNIFTY"); ("ltp", JNum 51000)]) nifty
  = Done nifty.
Proof.
  refine (proj1 (@quote_for_other_symbol_ignored plain_text nifty)
                [("symbol", JStr "BANKNIFTY"); ("ltp", JNum 51000)] _).
  reflexivity.
Defined.

(** ** Initialisation and the connection *)

Lemma calculate_atm_connection (self : chain) :
  websocket_manager (calculate_atm self).2 = websocket_manager self.
Proof.
  unfold calculate_atm, fetch_atm. repeat case_match; simplify_eq; reflexivity.
Qed.

(** The connection [initialize] hands to [setup_depth_subscriptions] is
    the one the engine was created with. *)
Lemma initialize_with_connection (client : api) (self : chain)
    (m : manager chain_handler) :
  initialized self = false ->
  websocket_manager self = Some m ->
  exists g,
    (initialize client self).2
    = with_initialized true (setup_depth_subscriptions g)
    /\ websocket_manager g = Some m
    /\ option_data (initialize client self).2 = option_data g
    /\ underlying g = underlying self.
Proof.
  intros Ei Ew. unfold initialize. rewrite Ei. cbn [snd].
  set (s2 := (calculate_atm (with_api_client (Some client) self)).2).
  exists (generate_strikes s2).
  destruct (generate_strikes_same s2) as (Gu&_&_&_&_&_&_&Gw&_).
  split; [reflexivity|]. split; [|split].
  - rewrite Gw. subst s2. now rewrite calculate_atm_connection.
  - destruct (setup_depth_subscriptions_frame (generate_strikes s2)) as [m' ->].
    reflexivity.
  - rewrite Gu. subst s2.
    now destruct (calculate_atm_same_grid
                    (with_api_client (Some client) self)) as (->&_).
Qed.

(** X18.  When the connection is not authenticated at the time of
    [initialize], the two handlers are registered but every subscription
    is refused: no frame is sent and nothing is recorded, so a later
    auth-success message has nothing to replay for this engine. *)
Theorem initialize_before_authentication (client : api) (self : chain)
    (m : manager chain_handler) :
  initialized self = false ->
  websocket_manager self = Some m ->
  authenticated m = false ->
  websocket_manager (initialize client self).2
  = Some (WS.register_handler "quote" HandleQuoteUpdate
            (WS.register_handler "depth" HandleDepthUpdate m))
  /\ forall m', websocket_manager (initialize client self).2 = Some m' ->
       WS.sent m' = WS.sent m
       /\ subscriptions m' = subscriptions m
       /\ depth_handlers m' = (depth_handlers m ++ [HandleDepthUpdate])%list
       /\ quote_handlers m' = (quote_handlers m ++ [HandleQuoteUpdate])%list.
Proof.
  intros Ei Ew Ha.
  assert (E : websocket_manager (initialize client self).2
              = Some (WS.register_handler "quote" HandleQuoteUpdate
                        (WS.register_handler "depth" HandleDepthUpdate m))).
  { destruct (initialize_with_connection client self m Ei Ew)
      as (g & -> & Eg & _).
    cbn [websocket_manager with_initialized].
    unfold setup_depth_subscriptions. rewrite Eg.
    unfold subscribe_underlying_quote. cbn [websocket_manager with_websocket_manager].
    rewrite subscribe_rejected by exact Ha. cbn [snd].
    unfold batch_subscribe_options. cbn [websocket_manager with_websocket_manager].
    now rewrite subscribe_batch_rejected by exact Ha. }
  split; [exact E|]. intros m' E'. rewrite E in E'. injection E' as <-.
  repeat split.
Qed.

Lemma initialize_before_authentication_witness :
  websocket_manager
    (initialize (quoting 24537)
       (new_chain "NIFTY" (ExpiryStr "28-AUG-25")
          (Some (WS.on_open
                   (WS.connect "ws://localhost:8765" "key" WS.init).2)))).2
  = Some (WS.register_handler "quote" HandleQuoteUpdate
            (WS.register_handler "depth" HandleDepthUpdate
               (WS.on_open
                  (WS.connect "ws://localhost:8765" "key" WS.init).2))).
Proof.
  refine (proj1 (initialize_before_authentication (quoting 24537)
            (new_chain "NIFTY" (ExpiryStr "28-AUG-25")
               (Some (WS.on_open
                        (WS.connect "ws://localhost:8765" "key" WS.init).2)))
            (WS.on_open (WS.connect "ws://localhost:8765" "key" WS.init).2)
            _ _ _)); reflexivity.
Defined.

Lemma map_flat_map_pairs {A B C} (f : B -> C) (g h : A -> B) (l : list A) :
  map f (flat_map (fun a => [g a; h a]) l)
  = flat_map (fun a => [f (g a); f (h a)]) l.
Proof. induction l as [|a l IH]; cbn; [reflexivity | now rewrite IH]. Qed.

Lemma length_flat_map_pairs {A B} (g h : A -> B) (l : list A) :
  List.length (flat_map (fun a => [g a; h a]) l) = (2 * List.length l)%nat.
Proof. induction l as [|a l IH]; cbn; [reflexivity | rewrite IH; lia]. Qed.

(** X19.  When the connection is authenticated at the time of
    [initialize], the engine subscribes to the quote of the underlying
    on the index exchange and then, row by row in grid order, to the
    depth of the call and of the put on the derivatives exchange: one
    frame plus two per row, after the frames already sent. *)
Theorem initialize_subscribes (client : api) (self : chain)
    (m : manager chain_handler) (frames : list frame) :
  initialized self = false ->
  websocket_manager self = Some m ->
  authenticated m = true ->
  ws m = Some frames ->
  let after := (initialize client self).2 in
  let sensex := String.eqb (underlying self) "SENSEX" in
  exists m',
    websocket_manager after = Some m'
    /\ WS.sent m'
       = (frames
          ++ FSubscribe (Some (underlying self))
               (Some (if sensex then "BSE_INDEX" else "NSE_INDEX")) 2 5
          :: flat_map
               (fun r =>
                  [FSubscribe (Some (ce_symbol r))
                     (Some (if sensex then "BFO" else "NFO")) 3 5;
                   FSubscribe (Some (pe_symbol r))
                     (Some (if sensex then "BFO" else "NFO")) 3 5])
               (dict_values (option_data after)))%list
    /\ List.length (WS.sent m')
       = (List.length frames + 1 + 2 * List.length (option_data after))%nat
    /\ depth_handlers m' = (depth_handlers m ++ [HandleDepthUpdate])%list
    /\ quote_handlers m' = (quote_handlers m ++ [HandleQuoteUpdate])%list.
Proof.
  intros Ei Ew Ha Hw after sensex. subst after sensex.
  destruct (initialize_with_connection client self m Ei Ew)
    as (g & E & Eg & Eo & Eu).
  rewrite Eo, E. clear E Eo.
  cbn [websocket_manager with_initialized].
  unfold setup_depth_subscriptions. rewrite Eg.
  unfold subscribe_underlying_quote.
  cbn [websocket_manager with_websocket_manager].
  set (m2 := WS.register_handler "quote" HandleQuoteUpdate
               (WS.register_handler "depth" HandleDepthUpdate m)).
  assert (Ha2 : authenticated m2 = true) by exact Ha.
  assert (Hw2 : ws m2 = Some frames) by exact Hw.
  rewrite (subscribe_accepted _ m2 frames Ha2 Hw2). cbn [snd].
  unfold batch_subscribe_options.
  cbn [websocket_manager with_websocket_manager underlying option_data].
  erewrite subscribe_batch_accepted; [|reflexivity|reflexivity].
  eexists. split; [reflexivity|].
  cbn [WS.sent ws depth_handlers quote_handlers].
  rewrite Eu. rewrite <- app_assoc. cbn [List.app].
  rewrite map_flat_map_pairs.
  split; [reflexivity|]. split; [|split; reflexivity].
  rewrite length_app. cbn [List.length].
  rewrite length_flat_map_pairs. unfold dict_values. rewrite length_map. lia.
Qed.

Lemma initialize_subscribes_witness :
  let m : manager chain_handler :=
    Manager (Some [FAuthenticate (Some "key")]) true true ∅
            (Some "ws://localhost:8765") (Some "key") [] [] [] in
  let self := new_chain "NIFTY" (ExpiryStr "28-AUG-25") (Some m) in
  exists m',
    websocket_manager (initialize (quoting 24537) self).2 = Some m'
    /\ List.length (WS.sent m')
       = (1 + 1
          + 2 * List.length
                  (option_data (initialize (quoting 24537) self).2))%nat.
Proof.
  intros m self.
  destruct (initialize_subscribes (quoting 24537) self m
              [FAuthenticate (Some "key")]
              eq_refl eq_refl eq_refl eq_refl)
    as (m' & E & _ & L & _).
  exists m'. split; [exact E | exact L].
Defined.

(** ** The routing table *)

Lemma routing_sound_fields (s s' : chain) :
  underlying s' = underlying s -> expiry s' = expiry s ->
  option_data s' = option_data s ->
  subscription_map s' = subscription_map s ->
  routing_sound s -> routing_sound s'.
Proof.
  intros Gu Ge Go Gr R sym k t E. rewrite Gr in E.
  destruct (R sym k t E) as [I ->]. rewrite Go.
  split; [exact I|]. symmetry. now apply construct_option_symbol_ext.
Qed.

Lemma routing_sound_ext (s s' : chain) :
  same_grid s s' -> routing_sound s -> routing_sound s'.
Proof. intros (Gu&Ge&_&Go&Gr&_). now apply routing_sound_fields. Qed.

(** Where an entry of the routing table comes from after strikes were
    added. *)
Lemma fold_add_strike_routing_from (infos : list (Z * string * Z))
    (self : chain) (sym : string) (k : Z) (t : option_type) :
  subscription_map (fold_left add_strike infos self) !! sym = Some (k, t) ->
  subscription_map self !! sym = Some (k, t)
  \/ (exists info, In info infos /\ k = info.1.1)
     /\ sym = construct_option_symbol self k t.
Proof.
  revert self. induction infos as [|info infos IH]; intros self E.
  - left. exact E.
  - cbn [fold_left] in E. destruct (IH _ E) as [E0|[(info' & I' & Ek) Es]].
    + destruct info as [[k0 tg] p]. cbn in E0.
      apply lookup_insert_Some in E0.
      destruct E0 as [[<- [= <- <-]]|[_ E0]].
      { right. split; [|reflexivity].
        exists (k0, tg, p). split; [left; reflexivity | reflexivity]. }
      apply lookup_insert_Some in E0.
      destruct E0 as [[<- [= <- <-]]|[_ E0]].
      { right. split; [|reflexivity].
        exists (k0, tg, p). split; [left; reflexivity | reflexivity]. }
      left. exact E0.
    + right. split.
      * exists info'. split; [right; exact I' | exact Ek].
      * rewrite Es. apply add_strike_symbols.
Qed.

Lemma generate_strikes_routing_sound (self : chain) :
  0 < strike_step self ->
  option_data self = [] ->
  routing_sound self -> routing_sound (generate_strikes self).
Proof.
  intros Hs He R.
  destruct (Z.eq_dec (atm_strike self) 0) as [Z0|N0].
  { assert (E : generate_strikes self = self).
    { unfold generate_strikes. now rewrite Z0. }
    rewrite E. exact R. }
  destruct (generate_strikes_same self) as (Gu&Ge&_).
  pose proof (generate_strikes_empty self He ltac:(lia) N0) as Eo.
  intros sym k t E. unfold generate_strikes in E.
  rewrite (proj2 (Z.eqb_neq _ _) N0) in E.
  destruct (fold_add_strike_routing_from _ _ _ _ _ E)
    as [E0|[(info & I & Ek) Es]].
  - destruct (R sym k t E0) as [I _]. rewrite He in I. destruct I.
  - split.
    + rewrite Eo. unfold dict_keys. rewrite map_map. cbn [fst].
      rewrite strike_list_offsets in I. apply in_map_iff in I.
      destruct I as (i & <- & I). apply in_map_iff. exists i.
      split; [symmetry; exact Ek | exact I].
    + rewrite Es. symmetry. apply construct_option_symbol_ext; assumption.
Qed.

Lemma update_option_tags_routing_sound (mid : chain) :
  routing_sound mid -> routing_sound (update_option_tags mid).
Proof.
  intros R sym k t E. destruct (R sym k t E) as [I ->].
  split; [|reflexivity].
  cbn. unfold dict_keys in *. rewrite map_map. exact I.
Qed.

Lemma update_option_depth_routing_sound (k : Z) (t : option_type)
    (q : side_quote) (s : chain) :
  routing_sound s -> routing_sound (update_option_depth k t q s).
Proof.
  intros R. unfold update_option_depth.
  destruct (dict_get k (option_data s)) as [r|] eqn:Eg; [|exact R].
  intros sym k1 t1 E. destruct (R sym k1 t1 E) as [I ->].
  split; [|reflexivity].
  cbn [option_data with_option_data].
  rewrite dict_set_keys; [exact I|].
  apply dict_get_In in Eg. apply (in_map fst) in Eg. exact Eg.
Qed.

Lemma reachable_routing_sound `{PyText} (s : chain) :
  reachable s -> routing_sound s.
Proof.
  induction 1 as [u e wsm | client s R IH | data s R IH Hi | data s R IH Hi
                 | wsm s _ IH | s _ IH | s _ IH].
  - intros sym k t E. cbn in E. rewrite lookup_empty in E. discriminate.
  - destruct (reachable_invariant s R) as (W & _ & F).
    destruct (initialized s) eqn:Ei.
    { unfold initialize. rewrite Ei. exact IH. }
    destruct (initialize_effect client s Ei) as [m ->].
    set (s1 := with_api_client (Some client) s).
    destruct (calculate_atm_same_grid s1) as (Gu & Ge & Gs & Go & Gr & _).
    apply (routing_sound_fields
             (generate_strikes (calculate_atm s1).2)); try reflexivity.
    apply generate_strikes_routing_sound.
    + rewrite Gs. apply (ok_step s W).
    + rewrite Go. apply F. reflexivity.
    + apply (routing_sound_fields s); assumption.
  - destruct (reachable_invariant s R) as (W & _ & _).
    destruct (handle_quote_update_effect data s)
      as [_ G | mid Gm _ _ He Ga _ | mid Gm _ _ _ Ga _].
    + now apply (routing_sound_ext s).
    + apply (routing_sound_ext (generate_strikes mid)); [exact Ga|].
      pose proof (routing_sound_ext s mid Gm IH) as Rm.
      destruct Gm as (_&_&Gs&Go&_).
      apply generate_strikes_routing_sound; [| |exact Rm].
      * rewrite Gs. apply (ok_step s W).
      * now rewrite Go.
    + apply (routing_sound_ext (update_option_tags mid)); [exact Ga|].
      apply update_option_tags_routing_sound.
      now apply (routing_sound_ext s).
  - destruct (handle_depth_update_cases data s) as [->|(k & t & q & ->)].
    + exact IH.
    + now apply update_option_depth_routing_sound.
  - now apply (routing_sound_fields s).
  - now apply (routing_sound_fields s).
  - now apply (routing_sound_fields s).
Qed.

Lemma row_symbol (s : chain) (k : Z) (r : row) (t : option_type) :
  window_ok s -> In (k, r) (option_data s) ->
  symbol_of t r = construct_option_symbol s k t.
Proof.
  intros W I. destruct (ok_rows s W k r I) as (_ & Ec & Ep).
  destruct t; assumption.
Qed.

(** X20.  In every reachable state the routing table has no stale
    entry: a symbol it knows is routed to a strike that has a row in the
    grid, and is the symbol that row carries on the side it is routed
    to. *)
Theorem routing_entries_have_rows `{PyText} (s : chain) (sym : string)
    (k : Z) (t : option_type) :
  reachable s ->
  subscription_map s !! sym = Some (k, t) ->
  exists r,
    dict_get k (option_data s) = Some r
    /\ strike r = k
    /\ symbol_of t r = sym.
Proof.
  intros R E.
  destruct (reachable_invariant s R) as (W & _ & _).
  destruct (reachable_routing_sound s R sym k t E) as [I ->].
  unfold dict_keys in I. apply in_map_iff in I.
  destruct I as ([k0 r] & Ek & I). cbn in Ek. subst k0.
  exists r. split; [|split].
  - apply dict_get_NoDup; [now apply window_keys_NoDup | exact I].
  - apply (ok_rows s W k r I).
  - now apply row_symbol.
Qed.

Lemma routing_entries_have_rows_witness :
  exists r,
    dict_get 24600 (option_data nifty) = Some r
    /\ strike r = 24600
    /\ symbol_of PE r = "NIFTY28AUG2524600PE".
Proof.
  refine (@routing_entries_have_rows plain_text nifty "NIFTY28AUG2524600PE"
            24600 PE _ _).
  - apply reachable_nifty.
  - vm_compute. reflexivity.
Defined.

(** X21.  In every reachable state the 2N symbols of the grid are
    pairwise distinct: two sides of rows with the same symbol are the
    same side of the same row. *)
Theorem grid_symbols_distinct `{PyText} (s : chain) (k1 k2 : Z)
    (r1 r2 : row) (t1 t2 : option_type) :
  reachable s ->
  In (k1, r1) (option_data s) ->
  In (k2, r2) (option_data s) ->
  symbol_of t1 r1 = symbol_of t2 r2 ->
  k1 = k2 /\ t1 = t2 /\ r1 = r2.
Proof.
  intros R I1 I2 E.
  destruct (reachable_invariant s R) as (W & _ & _).
  rewrite (row_symbol s k1 r1 t1 W I1), (row_symbol s k2 r2 t2 W I2) in E.
  apply construct_option_symbol_inj in E. destruct E as [<- <-].
  split; [reflexivity|]. split; [reflexivity|].
  pose proof (window_keys_NoDup s W) as ND.
  pose proof (dict_get_NoDup k1 r1 _ ND I1) as G1.
  pose proof (dict_get_NoDup k1 r2 _ ND I2) as G2.
  congruence.
Qed.

(** X22.  A depth tick whose symbol is not a symbol of the grid never
    changes the state of a reachable engine, whatever else it
    carries. *)
Theorem depth_for_foreign_symbol_ignored `{PyText} (s : chain)
    (data : json) (sym : string) :
  reachable s ->
  depth_symbol data = Ok (JStr sym) ->
  (forall k r t, In (k, r) (option_data s) -> symbol_of t r <> sym) ->
  handle_depth_update data s = Done s.
Proof.
  intros R Es N. unfold handle_depth_update. rewrite Es.
  cbn.
  destruct (subscription_map s !! sym) as [[k t]|] eqn:E; [|reflexivity].
  exfalso.
  destruct (reachable_invariant s R) as (W & _ & _).
  destruct (reachable_routing_sound s R sym k t E) as [I Esym].
  unfold dict_keys in I. apply in_map_iff in I.
  destruct I as ([k0 r] & Ek & I). cbn in Ek. subst k0.
  apply (N k r t I). rewrite Esym. now apply row_symbol.
Qed.

Lemma grid_symbols_distinct_witness :
  24600 = 24600 /\ CE = CE
  /\ Row 24600 "OTM1" 1 "NIFTY28AUG2524600CE" "NIFTY28AUG2524600PE"
         empty_quote empty_quote
     = Row 24600 "OTM1" 1 "NIFTY28AUG2524600CE" "NIFTY28AUG2524600PE"
           empty_quote empty_quote.
Proof.
  refine (@grid_symbols_distinct plain_text nifty 24600 24600
            (Row 24600 "OTM1" 1 "NIFTY28AUG2524600CE" "NIFTY28AUG2524600PE"
                 empty_quote empty_quote)
            (Row 24600 "OTM1" 1 "NIFTY28AUG2524600CE" "NIFTY28AUG2524600PE"
                 empty_quote empty_quote)
            CE CE _ _ _ _).
  - apply reachable_nifty.
  - vm_compute. do 21 right. left. reflexivity.
  - vm_compute. do 21 right. left. reflexivity.
  - reflexivity.
Defined.

Lemma depth_for_foreign_symbol_ignored_witness :
  @handle_depth_update plain_text
    (JObj [("symbol", JStr "BANKNIFTY28AUG2550000CE");
           ("ltp", JNum 310);
           ("bids", JArr [JArr [JNum 309; JNum 30]]);
           ("asks", JArr [JArr [JNum 311; JNum 15]])])
    nifty
  = Done nifty.
Proof.
  refine (@depth_for_foreign_symbol_ignored plain_text nifty _
            "BANKNIFTY28AUG2550000CE" _ _ _).
  - apply reachable_nifty.
  - reflexivity.
  - intros k r t I E.
    assert (F : forallb
                  (fun kr =>
                     negb (String.eqb (ce_symbol kr.2)
                                      "BANKNIFTY28AUG2550000CE")
                     && negb (String.eqb (pe_symbol kr.2)
                                         "BANKNIFTY28AUG2550000CE"))
                  (option_data nifty) = true)
      by (vm_compute; reflexivity).
    rewrite forallb_forall in F. specialize (F (k, r) I). cbn [snd] in F.
    destruct t; cbn [symbol_of] in E; rewrite E, String.eqb_refl in F;
      [discriminate F | rewrite andb_false_r in F; discriminate F].
Defined.

(** ** The grid once it exists *)

Lemma map_cell_dict_set (k : Z) (r r' : row) (d : list (Z * row)) :
  dict_get k d = Some r ->
  cell (k, r') = cell (k, r) ->
  map cell (dict_set k r' d) = map cell d.
Proof.
  intros G C. induction d as [|[k0 r0] d IH]; cbn in *; [discriminate|].
  destruct (Z.eqb_spec k k0) as [->|Ne].
  - injection G as ->. cbn. now rewrite C.
  - cbn. now rewrite IH.
Qed.

Lemma map_cell_nonempty (d d' : list (Z * row)) :
  map cell d' = map cell d -> d <> [] -> d' <> [].
Proof. intros E N ->. destruct d; [now apply N | discriminate]. Qed.

Lemma evolves_grid `{PyText} (s s' : chain) :
  reachable s -> option_data s <> [] -> evolves s s' ->
  reachable s' /\ map cell (option_data s') = map cell (option_data s).
Proof.
  intros R N E.
  induction E as [ | client s' _ [R' IH] | data s' _ [R' IH] Hi
                 | data s' _ [R' IH] Hi | wsm s' _ [R' IH]
                 | s' _ [R' IH] | s' _ [R' IH]].
  - split; [exact R | reflexivity].
  - split; [now apply reach_initialize|].
    destruct (reachable_invariant s' R') as (_ & _ & F).
    destruct (initialized s') eqn:Ei.
    + unfold initialize. rewrite Ei. exact IH.
    + exfalso. apply (map_cell_nonempty _ _ IH N). now apply F.
  - split; [now apply reach_quote|].
    destruct (handle_quote_update_effect data s')
      as [_ G | mid _ _ _ He _ _ | mid Gm _ _ _ Ga _].
    + destruct G as (_&_&_&->&_). exact IH.
    + exfalso. exact (map_cell_nonempty _ _ IH N He).
    + destruct Ga as (_&_&_&->&_), Gm as (_&_&_&Go&_).
      cbn [update_option_tags option_data with_option_data].
      rewrite Go, map_map, <- IH. apply map_ext. intros [k r]. reflexivity.
  - split; [now apply reach_depth|].
    destruct (handle_depth_update_cases data s') as [->|(k & t & q & ->)];
      [exact IH|].
    unfold update_option_depth.
    destruct (dict_get k (option_data s')) as [r|] eqn:Eg; [|exact IH].
    cbn [option_data with_option_data].
    rewrite (map_cell_dict_set k r); [exact IH | exact Eg|].
    destruct t; reflexivity.
  - split; [now apply reach_connection | exact IH].
  - split; [now apply reach_start_monitoring | exact IH].
  - split; [now apply reach_stop_monitoring | exact IH].
Qed.

(** X23.  The grid is generated once.  From a reachable state that has
    rows, whatever follows (further calls of [initialize], quote ticks
    that move the ATM strike, depth ticks, changes of the connection)
    leaves the strikes, their order and the symbols of the rows as they
    are: the window is never recentred. *)
Theorem grid_fixed_once_generated `{PyText} (s s' : chain) :
  reachable s ->
  option_data s <> [] ->
  evolves s s' ->
  map cell (option_data s') = map cell (option_data s).
Proof. intros R N E. exact (proj2 (evolves_grid s s' R N E)). Qed.

Lemma grid_fixed_once_generated_witness :
  map cell (option_data nifty_at_30000) = map cell (option_data nifty).
Proof.
  refine (@grid_fixed_once_generated plain_text nifty nifty_at_30000 _ _ _).
  - apply reachable_nifty.
  - vm_compute. discriminate.
  - unfold nifty_at_30000. apply ev_quote; [apply ev_here | reflexivity].
Defined.

(** ** The snapshot *)

Lemma nth_error_py_range (lo hi : Z) (i : nat) (x : Z) :
  nth_error (py_range lo hi) i = Some x -> x = lo + Z.of_nat i.
Proof.
  unfold py_range. intros E.
  assert (L : (i < List.length (seq 0 (Z.to_nat (hi - lo))))%nat).
  { rewrite <- (length_map (fun n => lo + Z.of_nat n)).
    apply nth_error_Some. rewrite E. discriminate. }
  rewrite length_seq in L.
  apply (nth_error_nth _ _ (lo + Z.of_nat 0)) in E.
  rewrite (map_nth (fun n => lo + Z.of_nat n)) in E.
  rewrite seq_nth in E by exact L. now subst x.
Qed.

Lemma window_strikes (s : chain) :
  window_ok s ->
  map strike (dict_values (option_data s)) = dict_keys (option_data s).
Proof.
  intros W. unfold dict_values, dict_keys. rewrite map_map.
  apply map_ext_in. intros [k r] I. apply (ok_rows s W k r I).
Qed.

(** X24.  The snapshot of a reachable engine has no row or 41 rows, in
    ascending order of strike and one strike step apart: the row at
    index j is (j - i) steps above the row at index i. *)
Theorem snapshot_rows_ascending `{PyText} (timestamp : string) (s : chain) :
  reachable s ->
  let rows := snap_options (get_option_chain timestamp s) in
  (List.length rows = 0%nat \/ List.length rows = 41%nat)
  /\ forall (i j : nat) (a b : row),
       (i < j)%nat ->
       nth_error rows i = Some a ->
       nth_error rows j = Some b ->
       strike b
       = strike a + (Z.of_nat j - Z.of_nat i) * strike_step s
       /\ strike a < strike b.
Proof.
  intros R rows. subst rows. cbn [snap_options get_option_chain].
  destruct (reachable_invariant s R) as (W & _ & _).
  pose proof (window_strikes s W) as Es.
  pose proof (ok_step s W) as St.
  destruct (ok_window s W) as [E|(base & _ & Ek)].
  - rewrite E. split; [left; reflexivity|].
    intros i j a b _ Ea. destruct i; discriminate.
  - rewrite Ek in Es. split.
    + right. rewrite <- (length_map strike), Es, length_map, length_py_range.
      reflexivity.
    + intros i j a b Lt Ea Eb.
      assert (At : forall n r, nth_error (dict_values (option_data s)) n
                               = Some r ->
                     strike r = base + (-20 + Z.of_nat n) * strike_step s).
      { intros n r En.
        apply (map_nth_error strike) in En. rewrite Es in En.
        rewrite nth_error_map in En.
        destruct (nth_error (py_range (-20) 21) n) as [x|] eqn:Ex;
          [|discriminate].
        apply nth_error_py_range in Ex. cbn in En. injection En as <-.
        now subst x. }
      rewrite (At i a Ea), (At j b Eb). split; [ring | nia].
Qed.

Lemma snapshot_rows_ascending_witness :
  List.length (snap_options (get_option_chain "2025-08-21T09:15:00" nifty))
  = 0%nat
  \/ List.length (snap_options (get_option_chain "2025-08-21T09:15:00" nifty))
     = 41%nat.
Proof.
  refine (proj1 (@snapshot_rows_ascending plain_text "2025-08-21T09:15:00"
                   nifty _)).
  apply reachable_nifty.
Defined.

(** ** Totals after a depth update *)

Lemma py_sum_dict_set (f : row -> Z) (k : Z) (r r' : row)
    (d : list (Z * row)) :
  dict_get k d = Some r ->
  py_sum (map f (dict_values (dict_set k r' d)))
  = py_sum (map f (dict_values d)) + f r' - f r.
Proof.
  unfold dict_values.
  induction d as [|[k0 r0] d IH]; cbn [dict_get dict_set]; [discriminate|].
  destruct (Z.eqb k k0).
  - intros [= ->]. cbn [map snd]. rewrite !py_sum_cons. lia.
  - intros G. cbn [map snd]. rewrite !py_sum_cons, (IH G). lia.
Qed.

(** X25.  A depth update of one side of a row moves the totals of that
    side by the difference between the new and the old quote of that
    side, and leaves the totals of the other side as they are. *)
Theorem depth_update_moves_totals (s : chain) (k : Z) (t : option_type)
    (q : side_quote) (r : row) :
  dict_get k (option_data s) = Some r ->
  let before := calculate_market_metrics s in
  let after := calculate_market_metrics (update_option_depth k t q s) in
  total_ce_volume after
  = total_ce_volume before
    + match t with CE => volume q - volume (ce_data r) | PE => 0 end
  /\ total_pe_volume after
     = total_pe_volume before
       + match t with CE => 0 | PE => volume q - volume (pe_data r) end
  /\ total_volume after
     = total_volume before + volume q - volume (side_of t r)
  /\ total_ce_oi after
     = total_ce_oi before
       + match t with CE => oi q - oi (ce_data r) | PE => 0 end
  /\ total_pe_oi after
     = total_pe_oi before
       + match t with CE => 0 | PE => oi q - oi (pe_data r) end.
Proof.
  intros G before after. subst before after.
  unfold update_option_depth. rewrite G.
  unfold calculate_market_metrics.
  cbn [option_data with_option_data total_ce_volume total_pe_volume
       total_volume total_ce_oi total_pe_oi].
  rewrite !(py_sum_dict_set _ k r _ _ G).
  destruct t; cbn [with_ce_data with_pe_data ce_data pe_data side_of];
    repeat split; lia.
Qed.

Lemma depth_update_moves_totals_witness :
  let q := SideQuote (1205 # 10) 120 121 75 50 1 5000 12000 in
  let after :=
    calculate_market_metrics (update_option_depth 24600 CE q nifty) in
  total_ce_volume after = 5000
  /\ total_pe_volume after = 0
  /\ total_volume after = 5000
  /\ total_ce_oi after = 12000
  /\ total_pe_oi after = 0.
Proof.
  intros q after.
  exact (depth_update_moves_totals nifty 24600 CE q
           (Row 24600 "OTM1" 1 "NIFTY28AUG2524600CE" "NIFTY28AUG2524600PE"
                empty_quote empty_quote)
           eq_refl).
Defined.

(** ** The nearest strike *)


(** X26.  The ATM strike computed from a price is the multiple of the
    strike step nearest to it: it is at most half a step away from the
    price. *)
Theorem atm_within_half_step (price : Q) (step atm : Z) :
  0 < step ->
  atm_for (JNum price) step = Ok atm ->
  (step | atm)
  /\ (inject_Z atm - inject_Z step / 2 <= price
      <= inject_Z atm + inject_Z step / 2)%Q.
Proof.
  intros Hs E. unfold atm_for in E. cbn in E. injection E as <-.
  split; [apply Z.divide_factor_r|].
  assert (Ps : (0 < inject_Z step)%Q).
  { change 0%Q with (inject_Z 0). rewrite <- Zlt_Qlt. exact Hs. }
  pose proof (py_round_near (price / inject_Z step)) as [Lo Hi].
  rewrite inject_Z_mult.
  set (n := inject_Z (py_round (price / inject_Z step))) in *.
  set (x := (price / inject_Z step)%Q) in *.
  assert (Ex : (price == x * inject_Z step)%Q).
  { subst x. field. lra. }
  set (st := inject_Z step) in *.
  assert (A : ((x - (1 # 2)) * st <= n * st)%Q)
    by (apply Qmult_le_compat_r; [exact Lo | lra]).
  assert (B : (n * st <= (x + (1 # 2)) * st)%Q)
    by (apply Qmult_le_compat_r; [exact Hi | lra]).
  clearbody n. clearbody x. clearbody st.
  unfold Qdiv. change (/ 2)%Q with (1 # 2)%Q.
  rewrite Ex. split; lra.
Qed.

Lemma atm_within_half_step_witness :
  (50 | 24550)
  /\ (inject_Z 24550 - inject_Z 50 / 2 <= 24537
      <= inject_Z 24550 + inject_Z 50 / 2)%Q.
Proof.
  refine (atm_within_half_step 24537 50 24550 _ _).
  - lia.
  - reflexivity.
Defined.

(** ** An expiry that cannot be read *)

Lemma drop_dashes_no_dash (s : string) :
  has_dash s = false -> drop_dashes s = s.
Proof.
  induction s as [|c s IH]; cbn; [reflexivity|].
  destruct (Ascii.eqb c "-"); cbn; [discriminate|].
  intros E. now rewrite IH.
Qed.

Lemma scan_months_none (mons : list string) (expiry_clean : string) :
  (forall mon, In mon mons -> String.index 0 mon expiry_clean = None) ->
  scan_months mons expiry_clean = "28AUG".
Proof.
  induction mons as [|mon rest IH]; intros N; cbn; [reflexivity|].
  rewrite (N mon) by (left; reflexivity).
  apply IH. intros mon' I. apply N. right. exact I.
Qed.

(** X27.  An expiry that is neither a date nor a text with a dash or a
    month name in it is not an error: the symbol is built with the day
    and month 28AUG. *)
Theorem unreadable_expiry_falls_back (self : chain) (strike : Z)
    (t : option_type) :
  (expiry self = ExpiryOther
   \/ exists text,
        expiry self = ExpiryStr text
        /\ has_dash text = false
        /\ forall mon, In mon months ->
             String.index 0 mon (upper text) = None) ->
  construct_option_symbol self strike t
  = underlying self ++ "28AUG" ++ "25" ++ py_str strike ++ type_name t.
Proof.
  intros [E|(text & E & Nd & Nm)]; unfold construct_option_symbol; rewrite E;
    [reflexivity|].
  do 1 f_equal. f_equal. unfold expiry_formatted.
  rewrite (split_dash_no_dash text Nd), (drop_dashes_no_dash text Nd).
  now apply scan_months_none.
Qed.

Lemma unreadable_expiry_falls_back_witness :
  construct_option_symbol (new_chain "NIFTY" (ExpiryStr "weekly") None)
                          24600 CE
  = "NIFTY" ++ "28AUG" ++ "25" ++ py_str 24600 ++ type_name CE.
Proof.
  refine (unreadable_expiry_falls_back
            (new_chain "NIFTY" (ExpiryStr "weekly") None) 24600 CE _).
  right. exists "weekly". split; [reflexivity|]. split; [reflexivity|].
  intros mon I. cbn in I.
  repeat (destruct I as [<-|I]; [reflexivity|]). destruct I.
Defined.
